(** * Feature selection by random shuffling

    A shallow embedding of the notebook
    [feature-selection-for-machine-learning-main/11-Hybrid-methods/11.1-Feature-shuffling.ipynb]:
    the classification loop (cell 11), the regression loop (cell 32), the
    construction of [feature_importance] (cells 13 and 33) and the two
    selection expressions (cells 21 and 37).

    What the notebook owns is glue: copy a frame, shuffle one column,
    predict, score, subtract, append.  The random forest, the metrics and
    NumPy's seeded permutation are collaborators: the fields of the class
    [Collaborators].  The metrics and the permutation are functions of
    their arguments that return or raise.  The forests are built with
    [n_jobs=4]: a prediction adds up the trees' answers in the order the
    worker threads hand them in, so it is a function of the model, of the
    frame and of that order, which the notebook's state carries as
    [threads].  pandas' frame and series operations that the loops call
    are modelled by executable definitions; a frame is taken to have
    unique column names, as one read from a CSV file has. *)

From Stdlib Require Import String List ZArith Zpower Bool Arith Lia Permutation.
From Stdlib Require Import Floats.SpecFloat.
From Stdlib Require DecimalString.
Import ListNotations.
Local Open Scope string_scope.
Local Open Scope list_scope.

(** ** Python floats

    A Python [float] is an IEEE 754 binary64 number: [spec_float] at
    precision 53 and maximal exponent 1024. *)
Module Float64.

Definition prec : Z := 53.
Definition emax : Z := 1024.

Definition float : Type := spec_float.

(** [x - y] *)
Definition sub (x y : float) : float := SFsub prec emax x y.

(** [-x] *)
Definition opp (x : float) : float := SFopp x.

(** [x < y] and [x > y]; both are [False] when an operand is NaN. *)
Definition ltb (x y : float) : bool := SFltb x y.
Definition gtb (x y : float) : bool := SFltb y x.

(** [x + y], [x * y], [x / y] and the square root. *)
Definition add (x y : float) : float := SFadd prec emax x y.
Definition mul (x y : float) : float := SFmul prec emax x y.
Definition div (x y : float) : float := SFdiv prec emax x y.
Definition sqrt (x : float) : float := SFsqrt prec emax x.

(** The literal [0], read as a float. *)
Definition zero : float := S754_zero false.

(** The float nearest to an integer. *)
Definition of_Z (z : Z) : float := binary_normalize prec emax z 0 false.

(** Neither an infinity nor NaN. *)
Definition is_finite (x : float) : bool :=
  match x with
  | S754_zero _ | S754_finite _ _ _ => true
  | S754_infinity _ | S754_nan => false
  end.

(** Not zero, not NaN, and of sign [s] ([true] for minus). *)
Definition signed_nonzero (s : bool) (x : float) : Prop :=
  match x with
  | S754_finite s' _ _ | S754_infinity s' => s' = s
  | _ => False
  end.

(** The mantissa and exponent are those of a binary64 number. *)
Definition valid (x : float) : bool := valid_binary prec emax x.

End Float64.

Definition float : Type := Float64.float.

(** ** Exceptions and fallible values *)

Inductive exn : Type :=
| KeyError (key : string)
| NameError (name : string)
| IndexError
| ValueError (msg : string).

Inductive result (A : Type) : Type :=
| Ok (a : A)
| Raise (e : exn).

Arguments Ok {A} a.
Arguments Raise {A} e.

Definition rbind {A B : Type} (r : result A) (k : A -> result B) : result B :=
  match r with
  | Ok a => k a
  | Raise e => Raise e
  end.

(** ** Lists of labels *)

Fixpoint list_nat_eqb (l1 l2 : list nat) : bool :=
  match l1, l2 with
  | [], [] => true
  | a :: l1', b :: l2' => Nat.eqb a b && list_nat_eqb l1' l2'
  | _, _ => false
  end.

Fixpoint nodupb (l : list nat) : bool :=
  match l with
  | [] => true
  | a :: l' => negb (existsb (Nat.eqb a) l') && nodupb l'
  end.

(** [l] holds each of [0 .. n-1] and has [n] elements. *)
Definition is_range_permutation (n : nat) (l : list nat) : bool :=
  Nat.eqb (length l) n && forallb (fun i => existsb (Nat.eqb i) l) (seq 0 n).

(** [a[:, 1]] *)
Fixpoint column_1 (a : list (list float)) : result (list float) :=
  match a with
  | [] => Ok []
  | row :: rest =>
      match nth_error row 1 with
      | None => Raise IndexError
      | Some p =>
          match column_1 rest with
          | Ok ps => Ok (p :: ps)
          | Raise e => Raise e
          end
      end
  end.

(** The labels of a series: positions ([pd.Series(list)], [reset_index]) or
    column names ([feature_importance.index = X_train.columns]). *)
Inductive label : Type :=
| RangeLabel (i : nat)
| NameLabel (name : string).

(** ** Frames and series *)

(** A column taken out of a frame: its rows, each an index label and a value. *)
Definition Series (V : Type) : Type := list (nat * V).

(** A frame: the row index and the named columns, in column order. *)
Record DataFrame (V : Type) : Type := mkDataFrame {
  df_index : list nat;
  df_data : list (string * list V)
}.

Arguments mkDataFrame {V} df_index df_data.
Arguments df_index {V} d.
Arguments df_data {V} d.

Fixpoint unique_names (names : list string) : bool :=
  match names with
  | [] => true
  | n :: rest => negb (existsb (String.eqb n) rest) && unique_names rest
  end.

Section Pandas.

(** The type of a cell and the value pandas writes where a label is
    missing on alignment. *)
Context {V : Type}.
Variable nan : V.

(** [df.columns] *)
Definition columns (df : DataFrame V) : list string := map fst (df_data df).

(** [len(df)] *)
Definition n_rows (df : DataFrame V) : nat := length (df_index df).

(** Every column has one value per row and no name occurs twice. *)
Definition well_formed (df : DataFrame V) : bool :=
  forallb (fun c => Nat.eqb (length (snd c)) (n_rows df)) (df_data df)
  && unique_names (columns df).

(** The index [reset_index(drop=True)] leaves behind: [0 .. N-1]. *)
Definition range_indexed (df : DataFrame V) : bool :=
  list_nat_eqb (df_index df) (seq 0 (n_rows df)).

(** [df.copy()]: a new frame that shares nothing with [df]. *)
Definition copy (df : DataFrame V) : DataFrame V :=
  mkDataFrame (df_index df) (df_data df).

(** [df.reset_index(drop=True, inplace=True)] *)
Definition reset_index_frame (df : DataFrame V) : DataFrame V :=
  mkDataFrame (seq 0 (n_rows df)) (df_data df).

Fixpoint lookup_column (name : string) (data : list (string * list V))
  : option (list V) :=
  match data with
  | [] => None
  | (n, c) :: rest => if String.eqb name n then Some c else lookup_column name rest
  end.

(** [df[name]] *)
Definition getitem (df : DataFrame V) (name : string) : result (Series V) :=
  match lookup_column name (df_data df) with
  | Some c => Ok (combine (df_index df) c)
  | None => Raise (KeyError name)
  end.

(** [s.take(positions)]: the rows at the given positions, labels included. *)
Fixpoint take (s : Series V) (positions : list nat) : result (Series V) :=
  match positions with
  | [] => Ok []
  | i :: rest =>
      match nth_error s i with
      | None => Raise IndexError
      | Some row =>
          match take s rest with
          | Ok rows => Ok (row :: rows)
          | Raise e => Raise e
          end
      end
  end.

(** NumPy's [RandomState(seed).permutation(n)], a function of the seed and
    of [n] alone. *)
Variable permutation : Z -> nat -> list nat.

(** [s.sample(frac=1, random_state=seed)]: all [len(s)] rows, drawn without
    replacement. *)
Definition sample (s : Series V) (random_state : Z) : result (Series V) :=
  take s (permutation random_state (length s)).

(** [s.reset_index(drop=True)] *)
Definition reset_index (s : Series V) : Series V :=
  combine (seq 0 (length s)) (map snd s).

(** [s.reindex(labels)]: per label, the value [s] has there, else NaN. *)
Definition reindex (s : Series V) (labels : list nat) : list V :=
  map (fun l =>
         match find (fun row => Nat.eqb (fst row) l) s with
         | Some row => snd row
         | None => nan
         end) labels.

Fixpoint replace_column (name : string) (col : list V)
  (data : list (string * list V)) : list (string * list V) :=
  match data with
  | [] => [(name, col)]
  | (n, c) :: rest =>
      if String.eqb name n then (n, col) :: rest
      else (n, c) :: replace_column name col rest
  end.

(** [df[name] = s]: [s] is aligned with the frame's index by label. *)
Definition setitem (df : DataFrame V) (name : string) (s : Series V)
  : result (DataFrame V) :=
  let labels := map fst s in
  if list_nat_eqb labels (df_index df) then
    Ok (mkDataFrame (df_index df) (replace_column name (map snd s) (df_data df)))
  else if nodupb labels then
    Ok (mkDataFrame (df_index df)
          (replace_column name (reindex s (df_index df)) (df_data df)))
  else Raise (ValueError "cannot reindex on an axis with duplicate labels").

(** The frame the loop hands to the model for [feature]:
<<
    X_train_c = X_train.copy()
    X_train_c[feature] = X_train_c[feature].sample(
        frac=1, random_state=seed).reset_index(drop=True)
>> *)
Definition working_copy (random_state : Z) (X : DataFrame V) (feature : string)
  : result (DataFrame V) :=
  rbind (getitem (copy X) feature) (fun column =>
  rbind (sample column random_state) (fun shuffled =>
  setitem (copy X) feature (reset_index shuffled))).

End Pandas.

(** The values of [l] at the given positions, in that order. *)
Definition permute {A : Type} (positions : list nat) (l : list A) : list A :=
  flat_map (fun i => match nth_error l i with Some a => [a] | None => [] end)
    positions.

(** ** NumPy's seeded permutation

    [s.sample(frac=1, random_state=seed)] takes its positions from
    [numpy.random.RandomState(seed).permutation(n)]: the Mersenne Twister
    MT19937 seeded with [seed], and a shuffle of [0 .. n-1] that goes from
    the last position down and swaps each with a position drawn at or
    below it. *)
Module MT19937.

Local Open Scope Z_scope.

(** [N], the number of words, and [M], the distance to the word each one
    is mixed with. *)
Definition state_len : nat := 624.
Definition middle : nat := 397.
Definition matrix_a : Z := 0x9908b0df.
Definition upper_mask : Z := 0x80000000.
Definition lower_mask : Z := 0x7fffffff.

(** The 624 words of the generator and the position of the next one. *)
Record state : Type := mkState { key : list Z; pos : nat }.

(** [mt19937_seed]:
<<
  seed &= 0xffffffffUL;
  for (pos = 0; pos < RK_STATE_LEN; pos++) {
    state->key[pos] = seed;
    seed = (1812433253UL * (seed ^ (seed >> 30)) + pos + 1) & 0xffffffffUL;
  }
  state->pos = RK_STATE_LEN;
>> *)
Fixpoint seed_key (count : nat) (pos : Z) (seed : Z) : list Z :=
  match count with
  | O => []
  | S count' =>
      seed :: seed_key count' (pos + 1)
                (Z.land (1812433253 * Z.lxor seed (Z.shiftr seed 30) + pos + 1)
                   0xffffffff)
  end.

Definition seed (s : Z) : state :=
  mkState (seed_key state_len 0 (Z.land s 0xffffffff)) state_len.

Definition get (k : list Z) (i : nat) : Z := nth i k 0.

Fixpoint update (k : list Z) (i : nat) (v : Z) : list Z :=
  match k, i with
  | [], _ => []
  | _ :: k', O => v :: k'
  | x :: k', S i' => x :: update k' i' v
  end.

(** One step of [mt19937_gen], on word [i] with its neighbour [j] and the
    word [m] further on:
<<
    y = (key[i] & UPPER_MASK) | (key[j] & LOWER_MASK);
    key[i] = key[m] ^ (y >> 1) ^ (-(y & 1) & MATRIX_A);
>> *)
Definition twist (k : list Z) (i j m : nat) : list Z :=
  let y := Z.lor (Z.land (get k i) upper_mask) (Z.land (get k j) lower_mask) in
  update k i
    (Z.lxor (Z.lxor (get k m) (Z.shiftr y 1))
       (if Z.odd y then matrix_a else 0)).

(** [mt19937_gen]: the words [0 .. N-M-1] with [j = i+1], [m = i+M]; the
    words [N-M .. N-2] with [j = i+1], [m = i+M-N]; the word [N-1] with
    [j = 0], [m = M-1]; then [pos = 0]. *)
Definition gen (st : state) : state :=
  let k := fold_left (fun k i => twist k i (i + 1) (i + middle))
             (seq 0 (state_len - middle)) (key st) in
  let k := fold_left (fun k i => twist k i (i + 1) (i + middle - state_len))
             (seq (state_len - middle) (middle - 1)) k in
  let k := twist k (state_len - 1) 0 (middle - 1) in
  mkState k 0.

(** The tempering of [mt19937_next]. *)
Definition temper (y : Z) : Z :=
  let y := Z.lxor y (Z.shiftr y 11) in
  let y := Z.lxor y (Z.land (Z.shiftl y 7) 0x9d2c5680) in
  let y := Z.lxor y (Z.land (Z.shiftl y 15) 0xefc60000) in
  Z.lxor y (Z.shiftr y 18).

(** [mt19937_next]: the next 32 bits. *)
Definition next_uint32 (st : state) : Z * state :=
  let st := if Nat.eqb (pos st) state_len then gen st else st in
  (temper (get (key st) (pos st)), mkState (key st) (S (pos st))).

End MT19937.

Module NumPy.

Local Open Scope Z_scope.

(** The smallest mask of low bits that covers [max]. *)
Definition bit_mask (max : Z) : Z :=
  let mask := max in
  let mask := Z.lor mask (Z.shiftr mask 1) in
  let mask := Z.lor mask (Z.shiftr mask 2) in
  let mask := Z.lor mask (Z.shiftr mask 4) in
  let mask := Z.lor mask (Z.shiftr mask 8) in
  let mask := Z.lor mask (Z.shiftr mask 16) in
  Z.lor mask (Z.shiftr mask 32).

(** The loop of [random_interval]:
<<
    while ((value = (next_uint32(state) & mask)) > max);
>>
    given up after [tries] draws. *)
Fixpoint search (tries : nat) (mask max : Z) (st : MT19937.state)
  : option (Z * MT19937.state) :=
  match tries with
  | O => None
  | S tries' =>
      let (v, st') := MT19937.next_uint32 st in
      let value := Z.land v mask in
      if value <=? max then Some (value, st') else search tries' mask max st'
  end.

(** [random_interval(state, max)]: a number in [0 .. max], for [max] below
    [2^32] (beyond, NumPy draws 64 bits at a time: left out). *)
Definition random_interval (tries : nat) (max : Z) (st : MT19937.state)
  : option (Z * MT19937.state) :=
  if max =? 0 then Some (0, st)
  else if max <=? 0xffffffff then search tries (bit_mask max) max st
  else None.

Fixpoint put (data : list nat) (i : nat) (v : nat) : list nat :=
  match data, i with
  | [], _ => []
  | _ :: data', O => v :: data'
  | x :: data', S i' => x :: put data' i' v
  end.

(** [data[i], data[j] = data[j], data[i]] *)
Definition swap (i j : nat) (data : list nat) : list nat :=
  put (put data j (nth i data O)) i (nth j data O).

(** [RandomState.shuffle] on a one-dimensional array:
<<
    for i in reversed(range(1, n)):
        j = random_interval(&self._bitgen, i)
        data[i], data[j] = data[j], data[i]
>> *)
Fixpoint shuffle_raw (tries : nat) (i : nat) (data : list nat)
  (st : MT19937.state) : option (list nat) :=
  match i with
  | O => Some data
  | S i' =>
      match random_interval tries (Z.of_nat i) st with
      | None => None
      | Some (j, st') => shuffle_raw tries i' (swap i (Z.to_nat j) data) st'
      end
  end.

(** The draws allowed to one [random_interval]; each one succeeds more
    than every other time. *)
Definition tries : nat := 64.

(** [RandomState(seed).permutation(n)], for a seed in [0 .. 2^32-1]:
    [arange(n)], shuffled. *)
Definition RandomState_permutation (seed : Z) (n : nat) : option (list nat) :=
  shuffle_raw tries (n - 1) (seq 0 n) (MT19937.seed seed).

(** The same as a list: empty when the draw did not come back, which is
    then no permutation of [0 .. n-1] for any [n] above 0. *)
Definition permutation (seed : Z) (n : nat) : list nat :=
  match RandomState_permutation seed n with
  | Some positions => positions
  | None => []
  end.

End NumPy.

(** ** The notebook's state *)

(** The order in which the worker threads of one prediction call hand in
    the trees' answers: the positions of the trees, in the order they are
    added up. *)
Definition schedule : Type := list nat.

Section State.

(** The types of a cell of the feature matrix, of a target value and of
    the fitted model. *)
Variables V T Mo : Type.

(** A call to a collaborator, with its arguments. *)
Inductive event_of : Type :=
| EvPredict (m : Mo) (X : DataFrame V)
| EvScore (y : list T) (prediction : list float).

(** The variables of the notebook that the loops read and write, the
    calls made so far, and what the worker threads are going to do:
    [threads k] is the order of the [k]-th prediction call from now on. *)
Record world_of : Type := mkWorld {
  rf : Mo;
  X_train : DataFrame V;
  y_train : list T;
  X_train_c : option (DataFrame V);
  performance_shift : option (list float);
  feature_importance : option (list (label * float));
  log : list event_of;
  threads : nat -> schedule
}.

(** What one turn of the loop obtained: the frame handed to the model, the
    order in which the threads answered, the prediction and the score that
    came back. *)
Record outcome_of : Type := mkOutcome {
  out_frame : DataFrame V;
  out_schedule : schedule;
  out_prediction : list float;
  out_score : float
}.

End State.

Arguments EvPredict {V T Mo} m X.
Arguments EvScore {V T Mo} y prediction.
Arguments mkWorld {V T Mo} rf X_train y_train X_train_c performance_shift
  feature_importance log threads.
Arguments rf {V T Mo} w.
Arguments X_train {V T Mo} w.
Arguments y_train {V T Mo} w.
Arguments X_train_c {V T Mo} w.
Arguments performance_shift {V T Mo} w.
Arguments feature_importance {V T Mo} w.
Arguments log {V T Mo} w.
Arguments threads {V T Mo} w.
Arguments mkOutcome {V} out_frame out_schedule out_prediction out_score.
Arguments out_frame {V} o.
Arguments out_schedule {V} o.
Arguments out_prediction {V} o.
Arguments out_score {V} o.

(** ** The collaborators *)

(** The libraries behind the notebook's calls: the cells of a frame and
    pandas' missing value, the targets, the fitted model with its two
    prediction methods, the two metrics and NumPy's seeded permutation.
    A prediction method is given the order in which the threads answer. *)
Class Collaborators : Type := {
  cell : Type;
  nan : cell;
  target : Type;
  model : Type;
  (** [rf.predict_proba(X)]: one row of class probabilities per row of [X]. *)
  predict_proba : schedule -> model -> DataFrame cell
                  -> result (list (list float));
  (** [roc_auc_score(y_true, y_score)] *)
  roc_auc_score : list target -> list float -> result float;
  (** [rf.predict(X)] *)
  predict : schedule -> model -> DataFrame cell -> result (list float);
  (** [mean_squared_error(y_true, y_pred, squared=...)] *)
  mean_squared_error : list target -> list float -> bool -> result float;
  (** [RandomState(seed).permutation(n)] *)
  permutation : Z -> nat -> list nat
}.

Section Notebook.

Context {C : Collaborators}.

Definition Frame : Type := DataFrame cell.

(** *** The notebook's state, over the collaborators' types *)

Definition event : Type := event_of cell target model.
Definition world : Type := world_of cell target model.

Definition set_X_train (X : Frame) (w : world) : world :=
  mkWorld (rf w) X (y_train w) (X_train_c w) (performance_shift w)
    (feature_importance w) (log w) (threads w).

Definition set_X_train_c (X : Frame) (w : world) : world :=
  mkWorld (rf w) (X_train w) (y_train w) (Some X) (performance_shift w)
    (feature_importance w) (log w) (threads w).

Definition set_performance_shift (l : list float) (w : world) : world :=
  mkWorld (rf w) (X_train w) (y_train w) (X_train_c w) (Some l)
    (feature_importance w) (log w) (threads w).

Definition set_feature_importance (s : list (label * float)) (w : world) : world :=
  mkWorld (rf w) (X_train w) (y_train w) (X_train_c w) (performance_shift w)
    (Some s) (log w) (threads w).

Definition add_event (e : event) (w : world) : world :=
  mkWorld (rf w) (X_train w) (y_train w) (X_train_c w) (performance_shift w)
    (feature_importance w) (log w ++ [e]) (threads w).

(** One prediction call has been answered: the threads' orders move up. *)
Definition next_call (w : world) : world :=
  mkWorld (rf w) (X_train w) (y_train w) (X_train_c w) (performance_shift w)
    (feature_importance w) (log w) (fun k => threads w (S k)).

(** A statement: it reads and writes the state, and returns or raises.  What
    was written before an exception stays written. *)
Definition M (A : Type) : Type := world -> result A * world.

Definition ret {A : Type} (a : A) : M A := fun w => (Ok a, w).

Definition bind {A B : Type} (c : M A) (k : A -> M B) : M B :=
  fun w =>
    match c w with
    | (Ok a, w1) => k a w1
    | (Raise e, w1) => (Raise e, w1)
    end.

Definition lift {A : Type} (r : result A) : M A := fun w => (r, w).

Definition run {A : Type} (c : M A) (w : world) : result A * world := c w.

Notation "x <- c ;; k" := (bind c (fun x => k))
  (at level 61, c at next level, right associativity).
Notation "c ;;; k" := (bind c (fun _ => k))
  (at level 61, right associativity).

Fixpoint for_each {A : Type} (xs : list A) (body : A -> M unit) : M unit :=
  match xs with
  | [] => ret tt
  | x :: rest => body x ;;; for_each rest body
  end.

Definition read_X_train : M Frame := fun w => (Ok (X_train w), w).
Definition read_y_train : M (list target) := fun w => (Ok (y_train w), w).

Definition read_X_train_c : M Frame :=
  fun w =>
    match X_train_c w with
    | Some X => (Ok X, w)
    | None => (Raise (NameError "X_train_c"), w)
    end.

Definition read_performance_shift : M (list float) :=
  fun w =>
    match performance_shift w with
    | Some l => (Ok l, w)
    | None => (Raise (NameError "performance_shift"), w)
    end.

Definition read_feature_importance : M (list (label * float)) :=
  fun w =>
    match feature_importance w with
    | Some s => (Ok s, w)
    | None => (Raise (NameError "feature_importance"), w)
    end.

Definition assign_X_train (X : Frame) : M unit :=
  fun w => (Ok tt, set_X_train X w).
Definition assign_X_train_c (X : Frame) : M unit :=
  fun w => (Ok tt, set_X_train_c X w).
Definition assign_performance_shift (l : list float) : M unit :=
  fun w => (Ok tt, set_performance_shift l w).
Definition assign_feature_importance (s : list (label * float)) : M unit :=
  fun w => (Ok tt, set_feature_importance s w).

(** A call of the model's prediction method on [X]: the threads answer in
    the order that comes next. *)
Definition call_predictor
  (predictor : schedule -> model -> Frame -> result (list float))
  (X : Frame) : M (list float) :=
  fun w => (predictor (threads w 0) (rf w) X,
            next_call (add_event (EvPredict (rf w) X) w)).

(** A call of the metric. *)
Definition call_scorer (scorer : list target -> list float -> result float)
  (y : list target) (prediction : list float) : M float :=
  fun w => (scorer y prediction, add_event (EvScore y prediction) w).

(** *** The cells *)

(** Cells 7 and 27:
<<
X_train.reset_index(drop=True, inplace=True)
>>
    ([X_test] plays no part in the loops.) *)
Definition cell_7 : M unit :=
  X <- read_X_train ;;
  assign_X_train (reset_index_frame X).

(** The body of the loop of cells 11 and 32:
<<
    X_train_c = X_train.copy()
    X_train_c[feature] = X_train_c[feature].sample(
        frac=1, random_state=seed).reset_index(drop=True)
    shuff = scorer(y_train, predictor(X_train_c))
    drift = train - shuff
    performance_shift.append(drift)
>> *)
Definition shuffle_feature
  (predictor : schedule -> model -> Frame -> result (list float))
  (scorer : list target -> list float -> result float)
  (random_state : Z) (train : float) (feature : string) : M unit :=
  X <- read_X_train ;;
  assign_X_train_c (copy X) ;;;
  Xc <- read_X_train_c ;;
  column <- lift (getitem Xc feature) ;;
  shuffled <- lift (sample permutation column random_state) ;;
  Xc <- read_X_train_c ;;
  Xc' <- lift (setitem nan Xc feature (reset_index shuffled)) ;;
  assign_X_train_c Xc' ;;;
  y <- read_y_train ;;
  Xc <- read_X_train_c ;;
  prediction <- call_predictor predictor Xc ;;
  shuff <- call_scorer scorer y prediction ;;
  let drift := Float64.sub train shuff in
  l <- read_performance_shift ;;
  assign_performance_shift (l ++ [drift]).

(** Cells 11 and 32 but for the model's method, the metric and the seed:
<<
train = scorer(y_train, predictor(X_train))
performance_shift = []
for feature in X_train.columns:
    ...
>> *)
Definition shuffle_cell
  (predictor : schedule -> model -> Frame -> result (list float))
  (scorer : list target -> list float -> result float)
  (random_state : Z) : M unit :=
  y <- read_y_train ;;
  X <- read_X_train ;;
  prediction <- call_predictor predictor X ;;
  train <- call_scorer scorer y prediction ;;
  assign_performance_shift [] ;;;
  X <- read_X_train ;;
  for_each (columns X) (shuffle_feature predictor scorer random_state train).

(** [rf.predict_proba(X)[:, 1]] *)
Definition predict_proba_1 (s : schedule) (m : model) (X : Frame)
  : result (list float) :=
  rbind (predict_proba s m X) column_1.

(** [mean_squared_error(y, p, squared=False)] *)
Definition rmse (y : list target) (p : list float) : result float :=
  mean_squared_error y p false.

(** Cell 11, the classification loop: ROC-AUC, [random_state=10]. *)
Definition cell_11 : M unit := shuffle_cell predict_proba_1 roc_auc_score 10.

(** Cell 32, the regression loop: RMSE, [random_state=11]. *)
Definition cell_32 : M unit := shuffle_cell predict rmse 11.

(** [pd.Series(l)] *)
Definition pd_Series (l : list float) : list (label * float) :=
  combine (map RangeLabel (seq 0 (length l))) l.

(** Cells 13 and 33:
<<
feature_importance = pd.Series(performance_shift)
feature_importance.index = X_train.columns
>> *)
Definition cell_13 : M unit :=
  l <- read_performance_shift ;;
  assign_feature_importance (pd_Series l) ;;;
  s <- read_feature_importance ;;
  X <- read_X_train ;;
  if Nat.eqb (length (columns X)) (length s)
  then assign_feature_importance (combine (map NameLabel (columns X)) (map snd s))
  else lift (Raise (ValueError "Length mismatch")).

(** The loop, then the series of drifts under the column names: for any
    prediction method, metric and seed, and as the notebook runs them. *)
Definition evaluate
  (predictor : schedule -> model -> Frame -> result (list float))
  (scorer : list target -> list float -> result float)
  (random_state : Z) : M unit :=
  shuffle_cell predictor scorer random_state ;;; cell_13.

Definition evaluate_classification : M unit := cell_11 ;;; cell_13.
Definition evaluate_regression : M unit := cell_32 ;;; cell_13.

(** *** What a run obtained from the collaborators *)

(** One turn of the loop: the frame handed to the model, the prediction
    and the score that came back. *)
Definition outcome : Type := outcome_of cell.

Definition shuffled_outcome
  (predictor : schedule -> model -> Frame -> result (list float))
  (scorer : list target -> list float -> result float)
  (random_state : Z) (m : model) (X : Frame) (y : list target)
  (feature : string) (o : outcome) : Prop :=
  working_copy nan permutation random_state X feature = Ok (out_frame o) /\
  predictor (out_schedule o) m (out_frame o) = Ok (out_prediction o) /\
  scorer y (out_prediction o) = Ok (out_score o).

(** What a run that returns obtained: the baseline prediction and score,
    and one outcome per column, in column order; the threads answered the
    baseline call in their first order and the turns in the next ones. *)
Definition evaluation
  (predictor : schedule -> model -> Frame -> result (list float))
  (scorer : list target -> list float -> result float)
  (random_state : Z) (w : world)
  (prediction : list float) (train : float) (outs : list outcome) : Prop :=
  predictor (threads w 0) (rf w) (X_train w) = Ok prediction /\
  scorer (y_train w) prediction = Ok train /\
  Forall2
    (shuffled_outcome predictor scorer random_state
       (rf w) (X_train w) (y_train w))
    (columns (X_train w)) outs /\
  map out_schedule outs = map (threads w) (seq 1 (length outs)).

(** [drift = train - shuff], turn by turn. *)
Definition drifts (train : float) (outs : list outcome) : list float :=
  map (fun o => Float64.sub train (out_score o)) outs.

(** The calls of one turn, in order. *)
Definition events_of (m : model) (y : list target) (o : outcome) : list event :=
  [EvPredict m (out_frame o); EvScore y (out_prediction o)].

(** The state a run of the loop leaves when it returns, [l] being the
    drifts recorded. *)
Definition after_loop (w : world) (l : list float) (outs : list outcome)
  : world :=
  mkWorld (rf w) (X_train w) (y_train w)
    (fold_left (fun _ o => Some (out_frame o)) outs (X_train_c w))
    (Some l)
    (feature_importance w)
    (log w ++ flat_map (events_of (rf w) (y_train w)) outs)
    (fun k => threads w (length outs + k)).

(** The calls of the baseline, in order. *)
Definition baseline_events (w : world) (prediction : list float) : list event :=
  [EvPredict (rf w) (X_train w); EvScore (y_train w) prediction].

(** The state the loop cell leaves when it returns. *)
Definition after_shuffle_cell (w : world) (prediction : list float)
  (train : float) (outs : list outcome) : world :=
  mkWorld (rf w) (X_train w) (y_train w)
    (fold_left (fun _ o => Some (out_frame o)) outs (X_train_c w))
    (Some (drifts train outs))
    (feature_importance w)
    (log w ++ baseline_events w prediction
       ++ flat_map (events_of (rf w) (y_train w)) outs)
    (fun k => threads w (S (length outs) + k)).

(** The state [evaluate] leaves when it returns. *)
Definition after_evaluate (w : world) (prediction : list float)
  (train : float) (outs : list outcome) : world :=
  set_feature_importance
    (combine (map NameLabel (columns (X_train w))) (drifts train outs))
    (after_shuffle_cell w prediction train outs).

(** Two states with the same model, features and target. *)
Definition same_inputs (w1 w2 : world) : Prop :=
  rf w1 = rf w2 /\ X_train w1 = X_train w2 /\ y_train w1 = y_train w2.

(** The number of prediction calls among the events. *)
Fixpoint predict_calls (evs : list event) : nat :=
  match evs with
  | [] => 0
  | EvPredict _ _ :: rest => S (predict_calls rest)
  | EvScore _ _ :: rest => predict_calls rest
  end.


End Notebook.

(** *** Selection *)

(** [s > t] and [s < t], row by row. *)
Definition series_gt (s : list (label * float)) (t : float) : list bool :=
  map (fun row => Float64.gtb (snd row) t) s.

Definition series_lt (s : list (label * float)) (t : float) : list bool :=
  map (fun row => Float64.ltb (snd row) t) s.

(** [s[mask]] for a boolean mask over the same index: the rows where the mask holds. *)
Fixpoint getitem_mask (s : list (label * float)) (mask : list bool)
  : list (label * float) :=
  match s, mask with
  | row :: s', b :: mask' =>
      if b then row :: getitem_mask s' mask' else getitem_mask s' mask'
  | _, _ => []
  end.

(** [s.index] *)
Definition index (s : list (label * float)) : list label := map fst s.

(** [s[s > t].index] and [s[s < t].index] *)
Definition select_above (s : list (label * float)) (t : float) : list label :=
  index (getitem_mask s (series_gt s t)).

Definition select_below (s : list (label * float)) (t : float) : list label :=
  index (getitem_mask s (series_lt s t)).

(** Cell 21: [selected_features = feature_importance[feature_importance > 0].index] *)
Definition selected_features (feature_importance : list (label * float)) : list label :=
  select_above feature_importance Float64.zero.

(** Cell 37: [feat = feature_importance[feature_importance<0].index] *)
Definition feat (feature_importance : list (label * float)) : list label :=
  select_below feature_importance Float64.zero.

(** [l] is [l'] with some elements left out, the others in their order. *)
Inductive subsequence {A : Type} : list A -> list A -> Prop :=
| subsequence_nil : subsequence [] []
| subsequence_keep (a : A) (l l' : list A) :
    subsequence l l' -> subsequence (a :: l) (a :: l')
| subsequence_skip (a : A) (l l' : list A) :
    subsequence l l' -> subsequence l (a :: l').

(** *** Selection as the specification words it

    The names whose drift exceeds the threshold, by descending drift, ties
    in column order. *)
Module Spec.

Fixpoint insert_descending (row : label * float) (sorted : list (label * float))
  : list (label * float) :=
  match sorted with
  | [] => [row]
  | r :: rest =>
      if Float64.ltb (snd row) (snd r) then r :: insert_descending row rest
      else row :: r :: rest
  end.

Definition sort_descending (s : list (label * float)) : list (label * float) :=
  fold_right insert_descending [] s.

Definition select (report : list (label * float)) (threshold : float)
  : list label :=
  index (sort_descending
           (filter (fun row => Float64.gtb (snd row) threshold) report)).

End Spec.

(** ** A small instance of the collaborators

    Integer cells; a model of one tree, which reads one column and predicts
    its value (regression) or whether it reaches a threshold
    (classification), whatever the threads do; the root mean squared error
    and the area under the ROC curve computed in binary64; NumPy's
    permutation. *)
Module Toy.

Record toy_model : Type := mkToyModel {
  feature_read : string;
  threshold : Z
}.

Definition toy_predict (m : toy_model) (X : DataFrame Z) : result (list float) :=
  match lookup_column (feature_read m) (df_data X) with
  | Some col => Ok (map Float64.of_Z col)
  | None => Raise (KeyError (feature_read m))
  end.

Definition toy_predict_proba (m : toy_model) (X : DataFrame Z)
  : result (list (list float)) :=
  match lookup_column (feature_read m) (df_data X) with
  | Some col =>
      Ok (map (fun v => if (threshold m <=? v)%Z
                        then [Float64.of_Z 0; Float64.of_Z 1]
                        else [Float64.of_Z 1; Float64.of_Z 0]) col)
  | None => Raise (KeyError (feature_read m))
  end.

Definition sum_squared_errors (y : list Z) (p : list float) : float :=
  fold_left
    (fun acc yp =>
       let d := Float64.sub (Float64.of_Z (fst yp)) (snd yp) in
       Float64.add acc (Float64.mul d d))
    (combine y p) Float64.zero.

Definition toy_mean_squared_error (y : list Z) (p : list float) (squared : bool)
  : result float :=
  if negb (Nat.eqb (length y) (length p)) then
    Raise (ValueError "Found input variables with inconsistent numbers of samples")
  else if Nat.eqb (length y) 0 then
    Raise (ValueError "Found array with 0 sample(s)")
  else
    let mse := Float64.div (sum_squared_errors y p)
                 (Float64.of_Z (Z.of_nat (length y))) in
    Ok (if squared then mse else Float64.sqrt mse).

(** Twice the number of (positive, negative) pairs the scores order
    rightly, a tie counting for half a pair. *)
Definition concordance (pos neg : list float) : Z :=
  fold_left
    (fun acc p =>
       fold_left
         (fun acc n =>
            if Float64.ltb n p then (acc + 2)%Z
            else if Float64.ltb p n then acc
            else (acc + 1)%Z)
         neg acc)
    pos 0%Z.

Definition toy_roc_auc_score (y : list Z) (p : list float) : result float :=
  if negb (Nat.eqb (length y) (length p)) then
    Raise (ValueError "Found input variables with inconsistent numbers of samples")
  else
    let rows := combine y p in
    let pos := map snd (filter (fun r => (fst r =? 1)%Z) rows) in
    let neg := map snd (filter (fun r => negb (fst r =? 1)%Z) rows) in
    match pos, neg with
    | [], _ | _, [] => Raise (ValueError "Only one class present in y_true")
    | _, _ =>
        Ok (Float64.div (Float64.of_Z (concordance pos neg))
              (Float64.of_Z (2 * Z.of_nat (length pos) * Z.of_nat (length neg))))
    end.

#[export] Instance toy : Collaborators := {|
  cell := Z;
  nan := 0%Z;
  target := Z;
  model := toy_model;
  predict_proba := fun _ => toy_predict_proba;
  roc_auc_score := toy_roc_auc_score;
  predict := fun _ => toy_predict;
  mean_squared_error := toy_mean_squared_error;
  permutation := NumPy.permutation
|}.

(** The notebook before the loop, the one tree answering alone. *)
Definition notebook (m : toy_model) (X : DataFrame Z) (y : list Z) : world :=
  mkWorld m X y None None None [] (fun _ => [0]).

(** Column [x] tells the target apart at 3; column [y] is constant. *)
Definition frame_A : DataFrame Z :=
  mkDataFrame [0; 1; 2; 3; 4]
    [("x", [1; 2; 3; 4; 5]%Z); ("y", [9; 9; 9; 9; 9]%Z)].
Definition world_A : world :=
  notebook (mkToyModel "x" 3) frame_A [0; 0; 1; 1; 1]%Z.

(** One column [z]; the error is 100 as it stands and 150 once NumPy has
    shuffled [z] with seed 11, which reads four rows at [2; 3; 0; 1]. *)
Definition frame_B : DataFrame Z :=
  mkDataFrame [0; 1; 2; 3] [("z", [150; 50; 0; 0]%Z)].
Definition world_B : world :=
  notebook (mkToyModel "z" 0) frame_B [250; 150; 100; 100]%Z.

(** Where the classification evaluation leaves [world_A] and the
    regression evaluation [world_B]. *)
Definition world_A_evaluated : world :=
  snd (run (evaluate predict_proba_1 roc_auc_score 10) world_A).
Definition world_B_evaluated : world :=
  snd (run evaluate_regression world_B).

(** Two columns with the same values; the model reads [a] alone. *)
Definition frame_AB : DataFrame Z :=
  mkDataFrame [0; 1; 2; 3]
    [("a", [150; 50; 0; 0]%Z); ("b", [150; 50; 0; 0]%Z)].
Definition world_AB : world :=
  notebook (mkToyModel "a" 0) frame_AB [250; 150; 100; 100]%Z.

(** Two rows of features against one target value. *)
Definition frame_two_rows : DataFrame Z :=
  mkDataFrame [0; 1] [("z", [100; 150]%Z)].
Definition world_mismatch : world :=
  notebook (mkToyModel "z" 0) frame_two_rows [0]%Z.

(** Two rows and no column. *)
Definition frame_no_columns : DataFrame Z := mkDataFrame [0; 1] [].
Definition world_no_columns : world :=
  notebook (mkToyModel "z" 0) frame_no_columns [0; 250]%Z.

(** A report where the second column has the larger drift. *)
Definition report_xy : list (label * float) :=
  [(NameLabel "x", Float64.of_Z 1); (NameLabel "y", Float64.of_Z 2)].

End Toy.

(** ** The other frame operations of the notebooks *)

(** A number as Python prints it. *)
Definition decimal (n : nat) : string :=
  DecimalString.NilZero.string_of_uint (Nat.to_uint n).

(** Python's [repr] of a string of ASCII characters.  The string is put
    between apostrophes, or between double quotes when it holds an
    apostrophe and no double quote; the quote in use and the backslash are
    escaped, the tab, the line feed and the carriage return are written
    with their letters and the other control characters in hexadecimal. *)
Definition apostrophe : Ascii.ascii := Ascii.ascii_of_nat 39.
Definition double_quote : Ascii.ascii := Ascii.ascii_of_nat 34.
Definition backslash : Ascii.ascii := Ascii.ascii_of_nat 92.

Fixpoint holds (c : Ascii.ascii) (s : string) : bool :=
  match s with
  | EmptyString => false
  | String c' s' => Ascii.eqb c c' || holds c s'
  end.

Definition hex_digit (n : nat) : Ascii.ascii :=
  nth n (list_ascii_of_string "0123456789abcdef") (Ascii.ascii_of_nat 48).

Definition python_escape (quote c : Ascii.ascii) : string :=
  let n := Ascii.nat_of_ascii c in
  if Ascii.eqb c quote || Ascii.eqb c backslash
  then String backslash (String c EmptyString)
  else if Nat.eqb n 9 then String backslash "t"
  else if Nat.eqb n 10 then String backslash "n"
  else if Nat.eqb n 13 then String backslash "r"
  else if Nat.ltb n 32 || Nat.eqb n 127
  then (String backslash "x"
          ++ String (hex_digit (n / 16))
               (String (hex_digit (n mod 16)) EmptyString))%string
  else String c EmptyString.

Fixpoint python_escapes (quote : Ascii.ascii) (s : string) : string :=
  match s with
  | EmptyString => EmptyString
  | String c s' => (python_escape quote c ++ python_escapes quote s')%string
  end.

Definition python_repr (s : string) : string :=
  let quote := if holds apostrophe s && negb (holds double_quote s)
               then double_quote else apostrophe in
  String quote (python_escapes quote s ++ String quote EmptyString)%string.

(** Every character of the name is an ASCII character. *)
Fixpoint ascii_name (s : string) : bool :=
  match s with
  | EmptyString => true
  | String c s' => Nat.ltb (Ascii.nat_of_ascii c) 128 && ascii_name s'
  end.

(** A list of names as Python prints it: ['Id', 'SalePrice']. *)
Definition python_list (names : list string) : string :=
  ("[" ++ String.concat ", " (map python_repr names) ++ "]")%string.

Section MorePandas.

Context {V : Type}.

(** The columns under the given labels, in the order of the labels.  A
    label that names no column raises [KeyError]; pandas's message lists
    the labels not found, the key here is the first of them. *)
Fixpoint select_columns (data : list (string * list V)) (labels : list label)
  : result (list (string * list V)) :=
  match labels with
  | [] => Ok []
  | l :: rest =>
      match l with
      | NameLabel name =>
          match lookup_column name data with
          | Some col =>
              match select_columns data rest with
              | Ok cols => Ok ((name, col) :: cols)
              | Raise e => Raise e
              end
          | None => Raise (KeyError name)
          end
      | RangeLabel i => Raise (KeyError (decimal i))
      end
  end.

(** [df[labels]] for an index or a list of labels. *)
Definition getitem_list (df : DataFrame V) (labels : list label)
  : result (DataFrame V) :=
  match select_columns (df_data df) labels with
  | Ok data => Ok (mkDataFrame (df_index df) data)
  | Raise e => Raise e
  end.

(** [df.drop(labels=labels, axis=1)]: the frame without the columns named;
    labels that name no column raise [KeyError], the message listing them
    as Python prints a list of strings. *)
Definition drop (df : DataFrame V) (labels : list string) : result (DataFrame V) :=
  match filter (fun l => negb (existsb (String.eqb l) (columns df))) labels with
  | [] =>
      Ok (mkDataFrame (df_index df)
            (filter (fun c => negb (existsb (String.eqb (fst c)) labels))
               (df_data df)))
  | missing => Raise (KeyError (python_list missing ++ " not found in axis"))
  end.

(** [df.fillna(value)], [isna] telling the missing cells. *)
Definition fillna (isna : V -> bool) (value : V) (df : DataFrame V)
  : DataFrame V :=
  mkDataFrame (df_index df)
    (map (fun c => (fst c, map (fun x => if isna x then value else x) (snd c)))
       (df_data df)).

(** [df.iloc[i]]: row [i] as a series over the column names. *)
Fixpoint row_of (data : list (string * list V)) (i : nat)
  : result (list (string * V)) :=
  match data with
  | [] => Ok []
  | (name, col) :: rest =>
      match nth_error col i with
      | None => Raise IndexError
      | Some x =>
          match row_of rest i with
          | Ok row => Ok ((name, x) :: row)
          | Raise e => Raise e
          end
      end
  end.

Definition iloc (df : DataFrame V) (i : nat) : result (list (string * V)) :=
  if Nat.ltb i (n_rows df) then row_of (df_data df) i else Raise IndexError.

(** [s.to_numpy()] *)
Definition to_numpy (s : list (string * V)) : list V := map snd s.

(** [r] rows of [c] values each, read off [a] in order. *)
Fixpoint rows_of (r c : nat) (a : list V) : list (list V) :=
  match r with
  | 0 => []
  | S r' => firstn c a :: rows_of r' c (skipn c a)
  end.

(** [a.reshape(r, c)] of a one-dimensional array. *)
Definition reshape (r c : nat) (a : list V) : result (list (list V)) :=
  if Nat.eqb (length a) (r * c) then Ok (rows_of r c a)
  else Raise (ValueError ("cannot reshape array of size " ++ decimal (length a)
                          ++ " into shape (" ++ decimal r ++ ","
                          ++ decimal c ++ ")")).

(** The PCA notebook's first image:
<<
pixels = digits.drop('number_label',axis=1)
single_image = pixels.iloc[0]
single_image.to_numpy().reshape(8,8)
>> *)
Definition single_image_array (digits : DataFrame V) : result (list (list V)) :=
  rbind (drop digits ["number_label"]) (fun pixels =>
  rbind (iloc pixels 0) (fun single_image =>
  reshape 8 8 (to_numpy single_image))).

End MorePandas.

(** [name] is none of [labels]. *)
Definition kept (labels : list string) (name : string) : bool :=
  negb (existsb (String.eqb name) labels).

(** [isna] on a float cell. *)
Definition isna_float (x : float) : bool :=
  match x with
  | S754_nan => true
  | _ => false
  end.

(** The drifts with their signs turned. *)
Definition negated (s : list (label * float)) : list (label * float) :=
  map (fun row => (fst row, Float64.opp (snd row))) s.

Section MoreCells.

Context {C : Collaborators}.

(** Cell 37, for [X_train] ([X_test], which the loops never read, is sliced
    by the same expression):
<<
feat = feature_importance[feature_importance<0].index
X_train = X_train[feat]
>> *)
Definition cell_37 : M unit :=
  bind read_feature_importance (fun s =>
  bind read_X_train (fun X =>
  bind (lift (getitem_list X (feat s))) (fun X' =>
  assign_X_train X'))).

(** Cell 28, for [X_train]: [X_train = X_train.fillna(0)], [isna] telling
    the missing cells and [zero] being the cell [0]. *)
Definition cell_28 (isna : cell -> bool) (zero : cell) : M unit :=
  bind read_X_train (fun X => assign_X_train (fillna isna zero X)).

End MoreCells.

(** ** A forest whose answer depends on the threads

    Trees that read one column and answer its value times so many tenths.
    The forest starts from zeros, adds the trees' answers in the order the
    threads hand them in and divides by the number of trees, as the
    forests of scikit-learn do under [n_jobs=4]; an order is a permutation
    of the positions of the trees. *)
Module Forest.

Import Toy.

Record tree : Type := mkTree {
  tree_feature : string;
  tenths : Z
}.

Definition tree_predict (t : tree) (X : DataFrame Z) : result (list float) :=
  match lookup_column (tree_feature t) (df_data X) with
  | Some col =>
      Ok (map (fun v => Float64.div (Float64.of_Z (tenths t * v))
                          (Float64.of_Z 10)) col)
  | None => Raise (KeyError (tree_feature t))
  end.

(** [out += prediction] *)
Fixpoint add_rows (out prediction : list float) : list float :=
  match out, prediction with
  | o :: out', p :: prediction' => Float64.add o p :: add_rows out' prediction'
  | _, _ => []
  end.

Fixpoint accumulate (order : schedule) (trees : list tree) (X : DataFrame Z)
  (out : list float) : result (list float) :=
  match order with
  | [] => Ok out
  | i :: rest =>
      match nth_error trees i with
      | None => Raise IndexError
      | Some t =>
          rbind (tree_predict t X) (fun prediction =>
          accumulate rest trees X (add_rows out prediction))
      end
  end.

Definition forest_predict (order : schedule) (trees : list tree)
  (X : DataFrame Z) : result (list float) :=
  rbind (accumulate order trees X (repeat Float64.zero (n_rows X)))
    (fun out =>
       Ok (map (fun v => Float64.div v
                           (Float64.of_Z (Z.of_nat (length trees)))) out)).

Definition forest_predict_proba (order : schedule) (trees : list tree)
  (X : DataFrame Z) : result (list (list float)) :=
  rbind (forest_predict order trees X)
    (fun p => Ok (map (fun v => [Float64.sub (Float64.of_Z 1) v; v]) p)).

Definition forest : Collaborators := {|
  cell := Z;
  nan := 0%Z;
  target := Z;
  model := list tree;
  predict_proba := forest_predict_proba;
  roc_auc_score := toy_roc_auc_score;
  predict := forest_predict;
  mean_squared_error := toy_mean_squared_error;
  permutation := NumPy.permutation
|}.

(** Three trees on column [x], of one, two and three tenths. *)
Definition three_trees : list tree :=
  [mkTree "x" 1; mkTree "x" 2; mkTree "x" 3].

(** Column [x] and a constant column [c]. *)
Definition frame_XC : DataFrame Z :=
  mkDataFrame [0; 1; 2] [("x", [1; 2; 3]%Z); ("c", [9; 9; 9]%Z)].

(** The trees handed in from the first to the last, and from the last to
    the first. *)
Definition first_to_last : schedule := [0; 1; 2].
Definition last_to_first : schedule := [2; 1; 0].

(** The notebook before the loop, the threads answering every call in the
    same order. *)
Definition world_steady (order : schedule) : @world forest :=
  mkWorld three_trees frame_XC [1; 1; 2]%Z None None None []
    (fun _ => order).

(** The same, the threads answering the first call in one order and the
    later calls in the other. *)
Definition world_unsteady : @world forest :=
  mkWorld three_trees frame_XC [1; 1; 2]%Z None None None []
    (fun k => match k with
              | O => first_to_last
              | S _ => last_to_first
              end).

End Forest.

(** ** More small data *)
Module Cases.

Import Toy.

(** A model that reads column [x] and refuses a frame where [x] does not
    start with 1. *)
Definition picky_predict (m : toy_model) (X : DataFrame Z) : result (list float) :=
  match lookup_column "x" (df_data X) with
  | Some ((1%Z :: _) as col) => Ok (map Float64.of_Z col)
  | Some _ => Raise (ValueError "x is out of order")
  | None => Raise (KeyError "x")
  end.

Definition picky : Collaborators := {|
  cell := Z;
  nan := 0%Z;
  target := Z;
  model := toy_model;
  predict_proba := fun _ => toy_predict_proba;
  roc_auc_score := toy_roc_auc_score;
  predict := fun _ => picky_predict;
  mean_squared_error := toy_mean_squared_error;
  permutation := NumPy.permutation
|}.

(** The constant column first, the telling column second. *)
Definition frame_YX : DataFrame Z :=
  mkDataFrame [0; 1; 2; 3; 4]
    [("y", [9; 9; 9; 9; 9]%Z); ("x", [1; 2; 3; 4; 5]%Z)].
Definition world_YX : @world picky :=
  mkWorld (mkToyModel "x" 3) frame_YX [1; 2; 3; 4; 5]%Z None None None []
    (fun _ => [0]).

(** Scenario B's column under the labels a split leaves behind. *)
Definition frame_unreset : DataFrame Z :=
  mkDataFrame [7; 0; 3; 1] [("z", [150; 50; 0; 0]%Z)].
Definition world_unreset : @world toy :=
  notebook (mkToyModel "z" 0) frame_unreset [250; 150; 100; 100]%Z.

(** Three rows, which NumPy reads at [0; 2; 1] under seed 10 and under
    seed 11. *)
Definition world_XC : @world toy :=
  notebook (mkToyModel "x" 2) Forest.frame_XC [1; 1; 2]%Z.

(** Three columns, one of them the target. *)
Definition frame_data : DataFrame Z :=
  mkDataFrame [0; 1]
    [("a", [1; 2]%Z); ("target", [0; 1]%Z); ("b", [3; 4]%Z)].

(** A report with drifts below, at and above zero. *)
Definition report_abc : list (label * float) :=
  [(NameLabel "a", Float64.of_Z (-1)); (NameLabel "target", Float64.zero);
   (NameLabel "b", Float64.of_Z (-2))].

(** What the picky model's baseline returns on [frame_YX], and the frame
    it refuses: [x] read at [2; 4; 0; 3; 1], NumPy's draw for seed 11. *)
Definition prediction_YX : list float := map Float64.of_Z [1; 2; 3; 4; 5]%Z.
Definition frame_YX_shuffled : DataFrame Z :=
  mkDataFrame [0; 1; 2; 3; 4]
    [("y", [9; 9; 9; 9; 9]%Z); ("x", [3; 5; 1; 4; 2]%Z)].

(** Where the runs on these data end. *)
Definition world_unreset_evaluated : @world toy :=
  snd (run (bind cell_7 (fun _ => evaluate predict rmse 11)) world_unreset).
Definition world_mismatch_failed : @world toy :=
  snd (run (evaluate predict rmse 11) world_mismatch).
Definition world_AB_evaluated : @world toy :=
  snd (run (evaluate predict rmse 11) world_AB).
Definition world_AB_sliced : @world toy :=
  snd (run cell_37 world_AB_evaluated).

(** A frame of floats with a missing cell. *)
Definition frame_holes : DataFrame float :=
  mkDataFrame [0; 1]
    [("LotFrontage", [S754_nan; Float64.of_Z 65]);
     ("LotArea", [Float64.of_Z 8450; Float64.of_Z 9600])].

(** One image: its label and its 64 pixels. *)
Definition digits_8x8 : DataFrame Z :=
  mkDataFrame [0]
    (("number_label", [4%Z])
       :: map (fun i => (decimal i, [Z.of_nat i])) (seq 0 64)).

End Cases.

(** * Facts *)

(** ** Labels and positions *)

Lemma list_nat_eqb_eq (l1 l2 : list nat) :
  list_nat_eqb l1 l2 = true <-> l1 = l2.
Proof.
  revert l2; induction l1 as [|a l1 IH]; intros [|b l2]; simpl;
    try (split; [discriminate | discriminate]); try tauto.
  rewrite andb_true_iff, Nat.eqb_eq, IH.
  split; [intros [-> ->]; reflexivity | intros E; inversion E; auto].
Qed.

Lemma is_range_permutation_sound (n : nat) (l : list nat) :
  is_range_permutation n l = true -> Permutation l (seq 0 n).
Proof.
  unfold is_range_permutation.
  rewrite andb_true_iff, Nat.eqb_eq, forallb_forall.
  intros [Hlen Hall].
  apply Permutation_sym, NoDup_Permutation_bis.
  - apply seq_NoDup.
  - rewrite length_seq; lia.
  - intros i Hi. specialize (Hall i Hi).
    apply existsb_exists in Hall as (j & Hj & E).
    apply Nat.eqb_eq in E; subst; assumption.
Qed.

Lemma range_permutation_bound (n : nat) (l : list nat) :
  is_range_permutation n l = true ->
  length l = n /\ forall i, In i l -> i < n.
Proof.
  intros H. pose proof (is_range_permutation_sound _ _ H) as P.
  split.
  - rewrite (Permutation_length P). apply length_seq.
  - intros i Hi. apply (Permutation_in _ P) in Hi.
    apply in_seq in Hi. lia.
Qed.

Section PermuteFacts.

Context {A : Type}.

Lemma permute_cons (i : nat) (p : list nat) (l : list A) (a : A) :
  nth_error l i = Some a -> permute (i :: p) l = a :: permute p l.
Proof. intros E. unfold permute; simpl. rewrite E. reflexivity. Qed.

Lemma permute_length (p : list nat) (l : list A) :
  (forall i, In i p -> i < length l) -> length (permute p l) = length p.
Proof.
  induction p as [|i p IH]; intros Hp; [reflexivity|].
  destruct (nth_error l i) as [a|] eqn:E.
  - rewrite (permute_cons _ _ _ _ E). simpl. f_equal.
    apply IH. intros j Hj. apply Hp. right; assumption.
  - apply nth_error_None in E.
    specialize (Hp i (or_introl eq_refl)). lia.
Qed.

Lemma permute_In (p : list nat) (l : list A) (a : A) :
  In a (permute p l) -> In a l.
Proof.
  unfold permute. rewrite in_flat_map.
  intros (i & _ & Hi).
  destruct (nth_error l i) as [b|] eqn:E; [|contradiction].
  destruct Hi as [<-|[]]. eapply nth_error_In; eassumption.
Qed.

Lemma permute_shift (a : A) (l : list A) (p : list nat) :
  permute (map S p) (a :: l) = permute p l.
Proof.
  unfold permute. induction p as [|i p IH]; simpl; [reflexivity|].
  rewrite IH. reflexivity.
Qed.

(** Reading a list at [0 .. n-1] reads it whole. *)
Lemma permute_seq (l : list A) : permute (seq 0 (length l)) l = l.
Proof.
  induction l as [|a l IH]; [reflexivity|].
  simpl length. rewrite <- cons_seq, <- seq_shift.
  rewrite (permute_cons 0 _ (a :: l) a eq_refl).
  rewrite permute_shift, IH. reflexivity.
Qed.

(** Reading a list at a rearrangement of its positions rearranges it. *)
Lemma permute_Permutation (p : list nat) (l : list A) :
  Permutation p (seq 0 (length l)) -> Permutation (permute p l) l.
Proof.
  intros P. rewrite <- (permute_seq l) at 2.
  unfold permute. apply Permutation_flat_map. assumption.
Qed.

(** A list whose values are all [v] reads the same at any [length l]
    positions inside it. *)
Lemma permute_constant (p : list nat) (l : list A) (v : A) :
  (forall a, In a l -> a = v) ->
  length p = length l ->
  (forall i, In i p -> i < length l) ->
  permute p l = l.
Proof.
  intros Hv Hlen Hp.
  assert (Hr : forall l' : list A, (forall a, In a l' -> a = v) ->
                          l' = repeat v (length l')).
  { induction l' as [|b l' IH]; intros Hb; [reflexivity|].
    simpl. rewrite (Hb b (or_introl eq_refl)) at 1.
    f_equal. apply IH. intros a Ha. apply Hb. right; assumption. }
  transitivity (repeat v (length l)); [|symmetry; apply Hr; assumption].
  rewrite (Hr (permute p l)).
  - rewrite (permute_length _ _ Hp), Hlen. reflexivity.
  - intros a Ha. apply Hv. eapply permute_In; eassumption.
Qed.

End PermuteFacts.

Lemma permute_map {A B : Type} (f : A -> B) (p : list nat) (l : list A) :
  map f (permute p l) = permute p (map f l).
Proof.
  unfold permute. induction p as [|i p IH]; simpl; [reflexivity|].
  rewrite map_app, IH, nth_error_map.
  destruct (nth_error l i); reflexivity.
Qed.

(** ** Floats *)

Module Float64Facts.

Local Open Scope Z_scope.

Lemma digits2_pos_bounds (m : positive) :
  2 ^ (Zpos (digits2_pos m) - 1) <= Zpos m < 2 ^ Zpos (digits2_pos m).
Proof.
  induction m as [m IH|m IH|]; simpl digits2_pos.
  - rewrite Pos2Z.inj_succ.
    replace (Z.succ (Z.pos (digits2_pos m)) - 1) with
      (Z.succ (Z.pos (digits2_pos m) - 1)) by lia.
    rewrite !Z.pow_succ_r by lia. lia.
  - rewrite Pos2Z.inj_succ.
    replace (Z.succ (Z.pos (digits2_pos m)) - 1) with
      (Z.succ (Z.pos (digits2_pos m) - 1)) by lia.
    rewrite !Z.pow_succ_r by lia. lia.
  - simpl. lia.
Qed.

Lemma iter_xO (d m : positive) : Zpos (Pos.iter xO m d) = Zpos m * 2 ^ Zpos d.
Proof.
  change (Pos.iter xO m d) with (shift_pos d m).
  rewrite shift_pos_correct, Z.pow_pos_fold. lia.
Qed.

Lemma shr_1_m (mrs : shr_record) :
  0 <= shr_m mrs -> shr_m (shr_1 mrs) = shr_m mrs / 2.
Proof.
  destruct mrs as [m r s]. simpl.
  destruct m as [|[p|p|]|p]; simpl; intros H; try lia; try reflexivity.
  - rewrite Pos2Z.inj_xI. apply Z.div_unique with (r := 1); lia.
  - rewrite Pos2Z.inj_xO. apply Z.div_unique with (r := 0); lia.
Qed.

Lemma iter_shr_1_m (p : positive) :
  forall mrs, 0 <= shr_m mrs ->
    shr_m (iter_pos shr_1 p mrs) = shr_m mrs / 2 ^ Zpos p.
Proof.
  induction p as [p IH|p IH|]; intros mrs H; simpl iter_pos.
  - assert (H1 : 0 <= shr_m (shr_1 mrs)) by (rewrite shr_1_m by assumption; apply Z.div_pos; lia).
    assert (H2 : 0 <= shr_m (iter_pos shr_1 p (shr_1 mrs)))
      by (rewrite IH by assumption; apply Z.div_pos; [assumption | apply Z.pow_pos_nonneg; lia]).
    rewrite (IH _ H2), (IH _ H1), shr_1_m by assumption.
    rewrite !Z.div_div by (try apply Z.pow_pos_nonneg; lia).
    f_equal. rewrite Pos2Z.inj_xI, Z.pow_add_r, Z.pow_mul_r by lia.
    change (2 ^ 2) with 4. 
    rewrite Z.pow_1_r.
    replace (4 ^ Z.pos p) with (2 ^ Z.pos p * 2 ^ Z.pos p).
    + ring.
    + rewrite <- Z.pow_add_r by lia. replace (Z.pos p + Z.pos p) with (2 * Z.pos p) by lia.
      rewrite Z.pow_mul_r by lia. reflexivity.
  - assert (H2 : 0 <= shr_m (iter_pos shr_1 p mrs))
      by (rewrite IH by assumption; apply Z.div_pos; [assumption | apply Z.pow_pos_nonneg; lia]).
    rewrite (IH _ H2), (IH _ H).
    rewrite !Z.div_div by (try apply Z.pow_pos_nonneg; lia).
    f_equal. rewrite Pos2Z.inj_xO.
    rewrite <- Z.pow_add_r by lia. f_equal. lia.
  - rewrite shr_1_m by assumption. reflexivity.
Qed.

Lemma shr_m_of_loc (m : Z) (l : location) : shr_m (shr_record_of_loc m l) = m.
Proof. destruct l as [|[]]; reflexivity. Qed.

Lemma shr_fexp_pos (m e : Z) (l : location) :
  0 < m -> emin Float64.prec Float64.emax <= e ->
  0 < shr_m (fst (shr_fexp Float64.prec Float64.emax m e l)) /\
  emin Float64.prec Float64.emax <= snd (shr_fexp Float64.prec Float64.emax m e l).
Proof.
  intros Hm He. unfold shr_fexp, shr.
  destruct m as [|p|p]; try lia. simpl Zdigits2.
  pose proof (digits2_pos_bounds p) as Hd.
  destruct (fexp Float64.prec Float64.emax (Z.pos (digits2_pos p) + e) - e) as [|q|q] eqn:En;
    simpl; rewrite ?shr_m_of_loc; try (split; lia).
  unfold fexp, emin, Float64.prec, Float64.emax in *.
  assert (Hq : Z.pos q <= Z.pos (digits2_pos p) - 1) by lia.
  rewrite iter_shr_1_m by (rewrite shr_m_of_loc; lia).
  rewrite shr_m_of_loc. split; [|lia].
  apply Z.div_str_pos. split; [apply Z.pow_pos_nonneg; lia|].
  apply Z.le_trans with (2 ^ (Z.pos (digits2_pos p) - 1)); [|lia].
  apply Z.pow_le_mono_r; lia.
Qed.

Lemma round_nearest_even_pos (m : Z) (l : location) :
  0 < m -> 0 < round_nearest_even m l.
Proof.
  intros H. destruct l as [|[]]; simpl; try assumption; try lia.
  destruct (Z.even m); lia.
Qed.

Lemma binary_round_aux_signed (s : bool) (m e : Z) (l : location) :
  0 < m -> emin Float64.prec Float64.emax <= e ->
  Float64.signed_nonzero s (binary_round_aux Float64.prec Float64.emax s m e l).
Proof.
  intros Hm He. unfold binary_round_aux.
  destruct (shr_fexp_pos m e l Hm He) as [Hm1 He1].
  destruct (shr_fexp Float64.prec Float64.emax m e l) as [mrs1 e1]. simpl in Hm1, He1.
  pose proof (round_nearest_even_pos _ (loc_of_shr_record mrs1) Hm1) as Hr.
  destruct (shr_fexp_pos _ e1 loc_Exact Hr He1) as [Hm2 He2].
  destruct (shr_fexp Float64.prec Float64.emax _ e1 loc_Exact) as [mrs2 e2]. simpl in Hm2, He2.
  destruct (shr_m mrs2) as [|p|p]; try lia.
  destruct (Z.leb e2 (Float64.emax - Float64.prec)); reflexivity.
Qed.

Lemma binary_round_signed (s : bool) (m : positive) (e : Z) :
  emin Float64.prec Float64.emax <= e ->
  Float64.signed_nonzero s (binary_round Float64.prec Float64.emax s m e).
Proof.
  intros He. unfold binary_round.
  destruct (shl_align m e (fexp Float64.prec Float64.emax (Z.pos (digits2_pos m) + e)))
    as [mz ez] eqn:Es.
  apply binary_round_aux_signed; [lia|].
  unfold shl_align in Es.
  destruct (fexp Float64.prec Float64.emax (Z.pos (digits2_pos m) + e) - e) eqn:En;
    inversion Es; subst; try assumption.
  unfold fexp. lia.
Qed.

Lemma valid_exponent (s : bool) (m : positive) (e : Z) :
  valid_binary Float64.prec Float64.emax (S754_finite s m e) = true ->
  e = fexp Float64.prec Float64.emax (Z.pos (digits2_pos m) + e) /\ emin Float64.prec Float64.emax <= e.
Proof.
  simpl. unfold bounded, canonical_mantissa.
  rewrite andb_true_iff, Z.eqb_eq. intros [E _].
  split; [symmetry; assumption|]. rewrite <- E. unfold fexp. lia.
Qed.

(** Of two valid positive floats the one with the smaller exponent is the
    smaller. *)
Lemma canonical_lt (mx my : positive) (ex ey : Z) :
  ex = fexp Float64.prec Float64.emax (Z.pos (digits2_pos mx) + ex) ->
  ey = fexp Float64.prec Float64.emax (Z.pos (digits2_pos my) + ey) ->
  ex < ey ->
  Z.pos mx < Z.pos my * 2 ^ (ey - ex).
Proof.
  intros Hx Hy Hlt.
  pose proof (digits2_pos_bounds mx) as Hdx.
  pose proof (digits2_pos_bounds my) as Hdy.
  unfold fexp, emin, Float64.prec, Float64.emax in *.
  assert (Hd : Z.pos (digits2_pos mx) <= Z.pos (digits2_pos my) - 1 + (ey - ex)) by lia.
  apply Z.lt_le_trans with (2 ^ Z.pos (digits2_pos mx)); [lia|].
  apply Z.le_trans with (2 ^ (Z.pos (digits2_pos my) - 1 + (ey - ex))).
  - apply Z.pow_le_mono_r; lia.
  - rewrite Z.pow_add_r by lia.
    apply Z.mul_le_mono_nonneg_r; [apply Z.pow_nonneg; lia | lia].
Qed.

Lemma shl_align_fst (m : positive) (e e' : Z) :
  e' <= e -> Z.pos (fst (shl_align m e e')) = Z.pos m * 2 ^ (e - e').
Proof.
  intros H. unfold shl_align.
  destruct (e' - e) as [|d|d] eqn:Ed; simpl; try lia.
  - replace (e - e') with 0 by lia. simpl. lia.
  - rewrite iter_xO. replace (e - e') with (Z.pos d) by lia. reflexivity.
Qed.

(** A valid float minus a larger one is below zero: no difference of two
    floats is rounded to zero. *)
Lemma sub_lt_negative (x y : float) :
  Float64.valid x = true ->
  Float64.valid y = true ->
  Float64.ltb x y = true ->
  Float64.ltb (Float64.sub x y) Float64.zero = true.
Proof.
  unfold Float64.valid, Float64.ltb, Float64.sub, Float64.zero.
  intros Vx Vy. unfold SFltb.
  destruct x as [sx|sx| |sx mx ex], y as [sy|sy| |sy my ey]; simpl;
    try discriminate;
    try (destruct sx; try discriminate; destruct sy; try discriminate; reflexivity);
    try (destruct sx; try discriminate; reflexivity);
    try (destruct sy; try discriminate; reflexivity).
  intros Hlt.
  destruct (valid_exponent _ _ _ Vx) as [Cx Ex].
  destruct (valid_exponent _ _ _ Vy) as [Cy Ey].
  assert (Hneg : cond_Zopp sx (Z.pos (fst (shl_align mx ex (Z.min ex ey))))
                 - cond_Zopp sy (Z.pos (fst (shl_align my ey (Z.min ex ey)))) < 0).
  { rewrite !shl_align_fst by lia. unfold cond_Zopp.
    assert (Hpx : 0 < 2 ^ (ex - Z.min ex ey)) by (apply Z.pow_pos_nonneg; lia).
    assert (Hpy : 0 < 2 ^ (ey - Z.min ex ey)) by (apply Z.pow_pos_nonneg; lia).
    destruct sx, sy; simpl in Hlt; try discriminate Hlt.
    - (* both negative *)
      destruct (Z.compare_spec ex ey) as [E|L|G]; try discriminate Hlt.
      + subst ey. rewrite Z.min_id, Z.sub_diag, Z.pow_0_r.
        change (Pos.compare_cont Eq mx my) with (Pos.compare mx my) in Hlt.
        destruct (Pos.compare_spec mx my); try discriminate Hlt. lia.
      + pose proof (canonical_lt my mx ey ex Cy Cx G) as Hc.
        rewrite Z.min_r by lia. rewrite Z.sub_diag, Z.pow_0_r. lia.
    - (* x negative, y positive *)
      nia.
    - (* both positive *)
      destruct (Z.compare_spec ex ey) as [E|L|G]; try discriminate Hlt.
      + subst ey. rewrite Z.min_id, Z.sub_diag, Z.pow_0_r.
        change (Pos.compare_cont Eq mx my) with (Pos.compare mx my) in Hlt.
        destruct (Pos.compare_spec mx my); try discriminate Hlt. lia.
      + pose proof (canonical_lt mx my ex ey Cx Cy L) as Hc.
        rewrite Z.min_l by lia. rewrite Z.sub_diag, Z.pow_0_r. lia. }
  unfold binary_normalize.
  destruct (_ - _) as [|d|d] eqn:Ed; try lia.
  assert (Hs : Float64.signed_nonzero true (binary_round Float64.prec Float64.emax true d (Z.min ex ey)))
    by (apply binary_round_signed; lia).
  destruct (binary_round Float64.prec Float64.emax true d (Z.min ex ey)) as [s|s| |s m e];
    simpl in Hs; try contradiction; subst; reflexivity.
Qed.

End Float64Facts.

(** A finite float minus itself is [+0.0]. *)
Lemma sub_diag (x : float) :
  Float64.is_finite x = true -> Float64.sub x x = Float64.zero.
Proof.
  unfold Float64.sub, Float64.zero.
  destruct x as [s|s| |s m e]; intros H; try discriminate H.
  - destruct s; reflexivity.
  - unfold SFsub. rewrite Z.sub_diag. reflexivity.
Qed.

(** A float that is not finite, minus itself, is NaN. *)
Lemma sub_diag_not_finite (x : float) :
  Float64.is_finite x = false -> Float64.sub x x = S754_nan.
Proof.
  unfold Float64.sub.
  destruct x as [s|s| |s m e]; intros H; try discriminate H;
    [destruct s|]; reflexivity.
Qed.

(** ** Pairs of lists *)

Lemma combine_NoDup_unique {A B : Type} (l : list A) (l' : list B)
  (a : A) (b b' : B) :
  NoDup l -> In (a, b) (combine l l') -> In (a, b') (combine l l') -> b = b'.
Proof.
  revert l'; induction l as [|x l IH]; intros l' Hnd; [intros []|].
  destruct l' as [|y l']; simpl; [intros []|].
  inversion Hnd as [|? ? Hx Hnd']; subst.
  intros [E|Hb] [E'|Hb'].
  - congruence.
  - inversion E; subst. exfalso. apply Hx. eapply in_combine_l; eassumption.
  - inversion E'; subst. exfalso. apply Hx. eapply in_combine_l; eassumption.
  - eapply IH; eassumption.
Qed.

Lemma Forall2_combine_In {A B : Type} (R : A -> B -> Prop)
  (l : list A) (l' : list B) (a : A) (b : B) :
  Forall2 R l l' -> In (a, b) (combine l l') -> R a b.
Proof.
  induction 1 as [|x y l l' Hxy F IH]; simpl; [intros []|].
  intros [E|Hin]; [inversion E; subst; assumption | auto].
Qed.

Lemma Forall2_In_combine {A B : Type} (R : A -> B -> Prop)
  (l : list A) (l' : list B) (a : A) :
  Forall2 R l l' -> In a l -> exists b, In (a, b) (combine l l').
Proof.
  induction 1 as [|x y l l' Hxy F IH]; simpl; [intros []|].
  intros [->|Hin]; [eauto|].
  destruct (IH Hin) as (b & Hb). eauto.
Qed.

Lemma In_combine_map {A B A' B' : Type} (f : A -> A') (g : B -> B')
  (l : list A) (l' : list B) (x : A') (d : B') :
  In (x, d) (combine (map f l) (map g l')) <->
  exists a b, In (a, b) (combine l l') /\ x = f a /\ d = g b.
Proof.
  revert l'; induction l as [|a l IH]; intros [|b l']; simpl;
    try solve [split; [intros [] | intros (? & ? & H & _); destruct H]].
  split.
  - intros [E|Hin].
    + inversion E; subst. exists a, b. auto.
    + apply IH in Hin as (a' & b' & Hin & -> & ->). exists a', b'. auto.
  - intros (a' & b' & [E|Hin] & -> & ->).
    + inversion E; subst. left; reflexivity.
    + right. apply IH. exists a', b'. auto.
Qed.

(** ** Frames and series *)

Lemma map_fst_combine {A B : Type} (l : list A) (l' : list B) :
  length l = length l' -> map fst (combine l l') = l.
Proof.
  revert l'; induction l as [|a l IH]; intros [|b l'] E; simpl in *;
    try discriminate; [reflexivity|].
  f_equal. apply IH. lia.
Qed.

Lemma map_snd_combine {A B : Type} (l : list A) (l' : list B) :
  length l = length l' -> map snd (combine l l') = l'.
Proof.
  revert l'; induction l as [|a l IH]; intros [|b l'] E; simpl in *;
    try discriminate; [reflexivity|].
  f_equal. apply IH. lia.
Qed.

Section PandasFacts.

Context {V : Type}.
Variable nan : V.
Variable permutation : Z -> nat -> list nat.

Lemma copy_eq (df : DataFrame V) : copy df = df.
Proof. destruct df; reflexivity. Qed.

Lemma take_Ok (s : Series V) (p : list nat) (rows : Series V) :
  take s p = Ok rows ->
  rows = permute p s /\ forall i, In i p -> i < length s.
Proof.
  revert rows; induction p as [|i p IH]; intros rows; simpl.
  - intros E; inversion E. split; [reflexivity | intros i []].
  - destruct (nth_error s i) as [row|] eqn:Ei; [|discriminate].
    destruct (take s p) as [rows'|e]; [|discriminate].
    intros E; inversion E; subst rows; clear E.
    destruct (IH rows' eq_refl) as [-> Hp].
    split.
    + reflexivity.
    + intros j [<-|Hj]; [|apply Hp; assumption].
      apply nth_error_Some. rewrite Ei. discriminate.
Qed.

Lemma take_permute (s : Series V) (p : list nat) :
  (forall i, In i p -> i < length s) -> take s p = Ok (permute p s).
Proof.
  induction p as [|i p IH]; intros Hp; [reflexivity|].
  simpl. destruct (nth_error s i) as [row|] eqn:Ei.
  - rewrite IH by (intros j Hj; apply Hp; right; assumption).
    reflexivity.
  - apply nth_error_None in Ei.
    specialize (Hp i (or_introl eq_refl)). lia.
Qed.

Lemma lookup_column_In (name : string) (data : list (string * list V)) :
  In name (map fst data) -> exists col, lookup_column name data = Some col.
Proof.
  induction data as [|[n c] data IH]; simpl; [intros []|].
  intros H. destruct (String.eqb_spec name n) as [->|Hne]; [eauto|].
  destruct H as [E|H]; [congruence | auto].
Qed.

Lemma lookup_column_Some (name : string) (data : list (string * list V))
  (col : list V) :
  lookup_column name data = Some col -> In (name, col) data.
Proof.
  induction data as [|[n c] data IH]; simpl; [discriminate|].
  destruct (String.eqb_spec name n) as [->|Hne].
  - intros E; inversion E; auto.
  - auto.
Qed.

Lemma lookup_replace_same (name : string) (col : list V)
  (data : list (string * list V)) :
  lookup_column name (replace_column name col data) = Some col.
Proof.
  induction data as [|[n c] data IH]; simpl.
  - rewrite String.eqb_refl. reflexivity.
  - destruct (String.eqb_spec name n) as [->|Hne]; simpl.
    + rewrite String.eqb_refl. reflexivity.
    + apply String.eqb_neq in Hne. rewrite Hne. assumption.
Qed.

Lemma lookup_replace_other (name other : string) (col : list V)
  (data : list (string * list V)) :
  other <> name ->
  lookup_column other (replace_column name col data) = lookup_column other data.
Proof.
  intros Hne. induction data as [|[n c] data IH]; simpl.
  - apply String.eqb_neq in Hne. rewrite Hne. reflexivity.
  - destruct (String.eqb_spec name n) as [->|Hn]; simpl.
    + apply String.eqb_neq in Hne. rewrite Hne. reflexivity.
    + rewrite IH. reflexivity.
Qed.

Lemma names_replace (name : string) (col col' : list V)
  (data : list (string * list V)) :
  lookup_column name data = Some col' ->
  map fst (replace_column name col data) = map fst data.
Proof.
  induction data as [|[n c] data IH]; simpl; [discriminate|].
  destruct (String.eqb_spec name n) as [->|Hn]; simpl; [reflexivity|].
  intros E. rewrite (IH E). reflexivity.
Qed.

(** Writing back the column that is there changes nothing. *)
Lemma replace_same (name : string) (col : list V)
  (data : list (string * list V)) :
  lookup_column name data = Some col -> replace_column name col data = data.
Proof.
  induction data as [|[n c] data IH]; simpl; [discriminate|].
  destruct (String.eqb_spec name n) as [->|Hn].
  - intros E; inversion E; reflexivity.
  - intros E. rewrite (IH E). reflexivity.
Qed.

Lemma well_formed_column (X : DataFrame V) (name : string) (col : list V) :
  well_formed X = true ->
  lookup_column name (df_data X) = Some col ->
  length col = n_rows X.
Proof.
  unfold well_formed. rewrite andb_true_iff, forallb_forall.
  intros [Hlen _] E. apply lookup_column_Some in E.
  apply Nat.eqb_eq. apply (Hlen _ E).
Qed.

Lemma unique_names_NoDup (names : list string) :
  unique_names names = true -> NoDup names.
Proof.
  induction names as [|n names IH]; simpl; [constructor|].
  rewrite andb_true_iff, negb_true_iff. intros [Hn Hrest].
  constructor; [|auto].
  intros Hin. assert (existsb (String.eqb n) names = true) as E.
  { apply existsb_exists. exists n. split; [assumption | apply String.eqb_refl]. }
  congruence.
Qed.

Lemma well_formed_NoDup (X : DataFrame V) :
  well_formed X = true -> NoDup (columns X).
Proof.
  unfold well_formed. rewrite andb_true_iff.
  intros [_ H]. apply unique_names_NoDup; assumption.
Qed.

(** Cell 7 leaves a frame with the index [0 .. N-1] and the same columns. *)
Lemma reset_index_frame_range (X : DataFrame V) :
  range_indexed (reset_index_frame X) = true.
Proof.
  unfold range_indexed, reset_index_frame, n_rows; simpl.
  rewrite length_seq. apply list_nat_eqb_eq. reflexivity.
Qed.

Lemma reset_index_frame_well_formed (X : DataFrame V) :
  well_formed X = true -> well_formed (reset_index_frame X) = true.
Proof.
  unfold well_formed, reset_index_frame, n_rows, columns; simpl.
  rewrite length_seq. auto.
Qed.

(** Replacing a column that is there keeps every name in its place and
    every column of another name as it is. *)
Lemma replace_column_elsewhere (name : string) (col col' : list V)
  (data : list (string * list V)) :
  lookup_column name data = Some col' ->
  Forall2 (fun c c' => fst c' = fst c /\ (fst c <> name -> snd c' = snd c))
    data (replace_column name col data).
Proof.
  induction data as [|[n c] data IH]; simpl; [discriminate|].
  destruct (String.eqb_spec name n) as [->|Hn].
  - intros _. constructor; [simpl; split; [reflexivity | congruence]|].
    clear IH. induction data; constructor; auto.
  - intros E. constructor; [simpl; auto | auto].
Qed.

(** A working copy, whatever the index of the frame and whatever NumPy
    returned: the index and the names are those of the frame, and so is
    every column of another name. *)
Lemma working_copy_frame (seed : Z) (X Xc : DataFrame V) (name : string) :
  working_copy nan permutation seed X name = Ok Xc ->
  df_index Xc = df_index X /\
  In name (columns X) /\
  Forall2 (fun c c' => fst c' = fst c /\ (fst c <> name -> snd c' = snd c))
    (df_data X) (df_data Xc).
Proof.
  unfold working_copy, getitem, setitem. rewrite copy_eq.
  destruct (lookup_column name (df_data X)) as [col|] eqn:Ecol;
    simpl; [|discriminate].
  destruct (sample permutation (combine (df_index X) col) seed)
    as [shuffled|e]; simpl; [|discriminate].
  assert (Hin : In name (columns X)).
  { apply lookup_column_Some in Ecol. unfold columns.
    change name with (fst (name, col)). apply in_map. assumption. }
  destruct (list_nat_eqb _ _);
    [|destruct (nodupb _); [|discriminate]];
    intros E; inversion E; subst Xc; clear E; simpl;
    (split; [reflexivity|]; split; [assumption|];
     eapply replace_column_elsewhere; eassumption).
Qed.

(** The working copy of a frame with index [0 .. N-1], given a
    permutation of [0 .. N-1]: column [name] holds its own values at the
    permuted positions. *)
Lemma working_copy_range (seed : Z) (X : DataFrame V) (name : string)
  (col : list V) :
  well_formed X = true ->
  range_indexed X = true ->
  is_range_permutation (n_rows X) (permutation seed (n_rows X)) = true ->
  lookup_column name (df_data X) = Some col ->
  working_copy nan permutation seed X name =
  Ok (mkDataFrame (df_index X)
        (replace_column name (permute (permutation seed (n_rows X)) col)
           (df_data X))).
Proof.
  intros Hwf Hrange Hperm Ecol.
  pose proof (well_formed_column _ _ _ Hwf Ecol) as Hlen.
  destruct (range_permutation_bound _ _ Hperm) as [Hplen Hpbound].
  apply list_nat_eqb_eq in Hrange.
  unfold working_copy, getitem. rewrite copy_eq, Ecol. simpl.
  assert (Hs : length (combine (df_index X) col) = n_rows X).
  { rewrite length_combine, Hlen. unfold n_rows. lia. }
  unfold sample. rewrite Hs.
  rewrite take_permute by (rewrite Hs; assumption). simpl.
  unfold reset_index, setitem.
  rewrite permute_length by (rewrite Hs; assumption).
  rewrite Hplen, permute_map.
  rewrite map_snd_combine by (unfold n_rows in Hlen; lia).
  assert (Hl : length (seq 0 (n_rows X))
               = length (permute (permutation seed (n_rows X)) col)).
  { rewrite length_seq, permute_length by (rewrite Hlen; assumption).
    symmetry; assumption. }
  rewrite (map_fst_combine _ _ Hl), (map_snd_combine _ _ Hl).
  rewrite <- Hrange.
  replace (list_nat_eqb (df_index X) (df_index X)) with true
    by (symmetry; apply list_nat_eqb_eq; reflexivity).
  reflexivity.
Qed.

End PandasFacts.

(** ** The loop *)

Section NotebookFacts.

Context {C : Collaborators}.
Variable predictor : schedule -> model -> Frame -> result (list float).
Variable scorer : list target -> list float -> result float.
Variable random_state : Z.

(** One turn of the loop, statement by statement. *)
Lemma shuffle_feature_run (train : float) (feature : string) (w : world) :
  run (shuffle_feature predictor scorer random_state train feature) w =
  match working_copy nan permutation random_state (X_train w) feature with
  | Raise e => (Raise e, set_X_train_c (copy (X_train w)) w)
  | Ok Xc =>
      let w1 := next_call
                  (add_event (EvPredict (rf w) Xc) (set_X_train_c Xc w)) in
      match predictor (threads w 0) (rf w) Xc with
      | Raise e => (Raise e, w1)
      | Ok prediction =>
          let w2 := add_event (EvScore (y_train w) prediction) w1 in
          match scorer (y_train w) prediction with
          | Raise e => (Raise e, w2)
          | Ok shuff =>
              match performance_shift w with
              | None => (Raise (NameError "performance_shift"), w2)
              | Some l =>
                  (Ok tt,
                   set_performance_shift (l ++ [Float64.sub train shuff]) w2)
              end
          end
      end
  end.
Proof.
  unfold shuffle_feature, working_copy, run, bind, lift, read_X_train,
    assign_X_train_c, read_X_train_c, read_y_train, call_predictor,
    call_scorer, read_performance_shift, assign_performance_shift; simpl.
  destruct (getitem (copy (X_train w)) feature) as [column|e]; simpl;
    [|reflexivity].
  destruct (sample permutation column random_state) as [shuffled|e]; simpl;
    [|reflexivity].
  destruct (setitem nan (copy (X_train w)) feature (reset_index shuffled))
    as [Xc|e]; simpl; [|reflexivity].
  destruct (predictor (threads w 0) (rf w) Xc) as [prediction|e];
    [|reflexivity].
  destruct (scorer (y_train w) prediction) as [shuff|e]; [|reflexivity].
  destruct (performance_shift w); reflexivity.
Qed.

Lemma shuffle_feature_Ok (train : float) (feature : string) (w w' : world) :
  run (shuffle_feature predictor scorer random_state train feature) w
  = (Ok tt, w') <->
  exists o l,
    shuffled_outcome predictor scorer random_state
      (rf w) (X_train w) (y_train w) feature o /\
    out_schedule o = threads w 0 /\
    performance_shift w = Some l /\
    w' = mkWorld (rf w) (X_train w) (y_train w) (Some (out_frame o))
           (Some (l ++ [Float64.sub train (out_score o)]))
           (feature_importance w)
           (log w ++ events_of (rf w) (y_train w) o)
           (fun k => threads w (S k)).
Proof.
  rewrite shuffle_feature_run. unfold shuffled_outcome. split.
  - destruct (working_copy _ _ _ _ _) as [Xc|e]; [|discriminate].
    simpl.
    destruct (predictor (threads w 0) (rf w) Xc) as [prediction|e] eqn:Ep;
      [|discriminate].
    destruct (scorer (y_train w) prediction) as [shuff|e] eqn:Es;
      [|discriminate].
    destruct (performance_shift w) as [l|] eqn:El; [|discriminate].
    intros E; inversion E; subst w'; clear E.
    exists (mkOutcome Xc (threads w 0) prediction shuff), l; simpl.
    repeat split; try assumption.
    unfold set_performance_shift, add_event, next_call, set_X_train_c; simpl.
    rewrite <- app_assoc. reflexivity.
  - intros ([Xc s prediction shuff] & l & (Ew & Ep & Es) & Et & El & ->).
    simpl in *. subst s. rewrite Ew; simpl. rewrite Ep, Es, El.
    unfold set_performance_shift, add_event, next_call, set_X_train_c; simpl.
    rewrite <- app_assoc. reflexivity.
Qed.

(** The orders from the second on, one by one. *)
Lemma map_later (t : nat -> schedule) (a n : nat) :
  map (fun k => t (S k)) (seq a n) = map t (seq (S a) n).
Proof. rewrite <- seq_shift, map_map. reflexivity. Qed.

Lemma run_bind {A B : Type} (c : M A) (k : A -> M B) (w : world) :
  run (bind c k) w =
  match run c w with
  | (Ok a, w1) => run (k a) w1
  | (Raise e, w1) => (Raise e, w1)
  end.
Proof. reflexivity. Qed.

(** The loop over a list of columns, from a state where
    [performance_shift] holds [l]. *)
Lemma for_each_shuffle_Ok (train : float) (cols : list string) :
  forall (w w' : world) (l : list float),
    performance_shift w = Some l ->
    (run (for_each cols (shuffle_feature predictor scorer random_state train)) w
     = (Ok tt, w') <->
     exists outs,
       Forall2
         (shuffled_outcome predictor scorer random_state
            (rf w) (X_train w) (y_train w)) cols outs /\
       map out_schedule outs = map (threads w) (seq 0 (length outs)) /\
       w' = after_loop w (l ++ drifts train outs) outs).
Proof.
  induction cols as [|feature cols IH]; intros w w' l El.
  - simpl. unfold run, ret. split.
    + intros E; inversion E; subst w'; clear E.
      exists []. split; [constructor|]. split; [reflexivity|].
      unfold after_loop; simpl. rewrite !app_nil_r, <- El.
      destruct w; reflexivity.
    + intros (outs & F & _ & ->). inversion F; subst.
      unfold after_loop; simpl. rewrite !app_nil_r, <- El.
      destruct w; reflexivity.
  - simpl for_each. rewrite run_bind. split.
    + destruct (run (shuffle_feature _ _ _ _ _) w) as [[[]|e] w1] eqn:E1;
        [|discriminate].
      apply shuffle_feature_Ok in E1 as (o & l' & Ho & Et & El' & ->).
      rewrite El in El'; inversion El'; subst l'; clear El'.
      intros E.
      match type of E with
      | run _ ?w1 = _ => apply (proj1 (IH w1 w' _ eq_refl)) in E
      end.
      destruct E as (outs & F & Hs & ->).
      exists (o :: outs). split; [constructor; assumption|]. split.
      * simpl in Hs |- *. rewrite Et, Hs, map_later. reflexivity.
      * unfold after_loop, drifts; simpl.
        rewrite <- !app_assoc. reflexivity.
    + intros (outs & F & Hs & ->).
      inversion F as [|f o cols' outs' Ho F']; subst.
      simpl in Hs. inversion Hs as [[Et Hs']].
      assert (E1 : run (shuffle_feature predictor scorer random_state train
                          feature) w
                   = (Ok tt,
                      mkWorld (rf w) (X_train w) (y_train w)
                        (Some (out_frame o))
                        (Some (l ++ [Float64.sub train (out_score o)]))
                        (feature_importance w)
                        (log w ++ events_of (rf w) (y_train w) o)
                        (fun k => threads w (S k)))).
      { apply shuffle_feature_Ok. exists o, l. auto. }
      rewrite E1.
      match goal with
      | |- run _ ?w1 = _ => apply (proj2 (IH w1 _ _ eq_refl))
      end.
      exists outs'. split; [assumption|]. split.
      * simpl. rewrite Hs', map_later. reflexivity.
      * unfold after_loop, drifts; simpl.
        rewrite <- !app_assoc. reflexivity.
Qed.

(** The loop cell, statement by statement down to the loop. *)
Lemma shuffle_cell_run (w : world) :
  run (shuffle_cell predictor scorer random_state) w =
  let w1 := next_call (add_event (EvPredict (rf w) (X_train w)) w) in
  match predictor (threads w 0) (rf w) (X_train w) with
  | Raise e => (Raise e, w1)
  | Ok prediction =>
      let w2 := add_event (EvScore (y_train w) prediction) w1 in
      match scorer (y_train w) prediction with
      | Raise e => (Raise e, w2)
      | Ok train =>
          run (for_each (columns (X_train w))
                 (shuffle_feature predictor scorer random_state train))
            (set_performance_shift [] w2)
      end
  end.
Proof.
  unfold shuffle_cell, run, bind, read_y_train, read_X_train, call_predictor,
    call_scorer, assign_performance_shift; simpl.
  destruct (predictor (threads w 0) (rf w) (X_train w)) as [prediction|e];
    [|reflexivity].
  destruct (scorer (y_train w) prediction) as [train|e]; reflexivity.
Qed.

Lemma shuffle_cell_Ok (w w' : world) :
  run (shuffle_cell predictor scorer random_state) w = (Ok tt, w') <->
  exists prediction train outs,
    evaluation predictor scorer random_state w prediction train outs /\
    w' = after_shuffle_cell w prediction train outs.
Proof.
  rewrite shuffle_cell_run. unfold evaluation. simpl. split.
  - destruct (predictor (threads w 0) (rf w) (X_train w))
      as [prediction|e] eqn:Ep; [|discriminate].
    destruct (scorer (y_train w) prediction) as [train|e] eqn:Es;
      [|discriminate].
    intros E.
    match type of E with
    | run _ ?w1 = _ => apply (proj1 (for_each_shuffle_Ok _ _ w1 w' _ eq_refl)) in E
    end.
    destruct E as (outs & F & Hs & ->).
    exists prediction, train, outs.
    split.
    + split; [reflexivity|]. split; [assumption|]. split; [assumption|].
      simpl in Hs. rewrite Hs, map_later. reflexivity.
    + unfold after_loop, after_shuffle_cell, baseline_events; simpl.
      rewrite <- !app_assoc. reflexivity.
  - intros (prediction & train & outs & (Ep & Es & F & Hs) & ->).
    rewrite Ep, Es.
    match goal with
    | |- run _ ?w1 = _ => apply (proj2 (for_each_shuffle_Ok _ _ w1 _ _ eq_refl))
    end.
    exists outs. split; [assumption|]. split.
    + simpl. rewrite Hs, map_later. reflexivity.
    + unfold after_loop, after_shuffle_cell, baseline_events; simpl.
      rewrite <- !app_assoc. reflexivity.
Qed.

Lemma length_pd_Series (l : list float) : length (pd_Series l) = length l.
Proof.
  unfold pd_Series. rewrite length_combine, length_map, length_seq. lia.
Qed.

Lemma values_pd_Series (l : list float) : map snd (pd_Series l) = l.
Proof.
  unfold pd_Series. apply map_snd_combine.
  rewrite length_map, length_seq. reflexivity.
Qed.

(** Cells 13 and 33 on as many drifts as there are columns. *)
Lemma cell_13_run (w : world) (l : list float) :
  performance_shift w = Some l ->
  length l = length (columns (X_train w)) ->
  run cell_13 w =
  (Ok tt, set_feature_importance (combine (map NameLabel (columns (X_train w))) l) w).
Proof.
  intros El Hlen.
  unfold cell_13, run, bind, read_performance_shift, assign_feature_importance,
    read_feature_importance, read_X_train. rewrite El. simpl.
  rewrite length_pd_Series, Hlen, Nat.eqb_refl, values_pd_Series.
  reflexivity.
Qed.

Lemma evaluate_Ok (w w' : world) :
  run (evaluate predictor scorer random_state) w = (Ok tt, w') <->
  exists prediction train outs,
    evaluation predictor scorer random_state w prediction train outs /\
    w' = after_evaluate w prediction train outs.
Proof.
  unfold evaluate. rewrite run_bind.
  assert (Hlen : forall train outs,
             Forall2 (shuffled_outcome predictor scorer random_state
                        (rf w) (X_train w) (y_train w))
               (columns (X_train w)) outs ->
             length (drifts train outs) = length (columns (X_train w))).
  { intros train outs F. unfold drifts. rewrite length_map.
    symmetry. eapply Forall2_length; eassumption. }
  split.
  - destruct (run (shuffle_cell _ _ _) w) as [[[]|e] w1] eqn:E1; [|discriminate].
    apply shuffle_cell_Ok in E1 as (prediction & train & outs & Hev & ->).
    rewrite (cell_13_run (after_shuffle_cell w prediction train outs)
               (drifts train outs) eq_refl)
      by (apply Hlen, Hev).
    intros E; inversion E; subst w'; clear E.
    exists prediction, train, outs. split; [assumption | reflexivity].
  - intros (prediction & train & outs & Hev & ->).
    rewrite (proj2 (shuffle_cell_Ok w _)
               (ex_intro _ prediction (ex_intro _ train (ex_intro _ outs
                  (conj Hev eq_refl))))).
    rewrite (cell_13_run (after_shuffle_cell w prediction train outs)
               (drifts train outs) eq_refl)
      by (apply Hlen, Hev).
    reflexivity.
Qed.

(** *** What any run leaves alone *)

Lemma same_inputs_refl (w : world) : same_inputs w w.
Proof. repeat split. Qed.

Lemma same_inputs_trans (w1 w2 w3 : world) :
  same_inputs w1 w2 -> same_inputs w2 w3 -> same_inputs w1 w3.
Proof.
  unfold same_inputs. intros (? & ? & ?) (? & ? & ?).
  repeat split; congruence.
Qed.

Lemma same_inputs_sym (w1 w2 : world) : same_inputs w1 w2 -> same_inputs w2 w1.
Proof. unfold same_inputs. intros (? & ? & ?). repeat split; congruence. Qed.

(** One turn keeps the model, the features, the target and
    [feature_importance], and only adds calls. *)
Lemma shuffle_feature_frame (train : float) (feature : string) (w : world) :
  same_inputs w (snd (run (shuffle_feature predictor scorer random_state
                             train feature) w)) /\
  feature_importance
    (snd (run (shuffle_feature predictor scorer random_state train feature) w))
  = feature_importance w /\
  exists evs,
    log (snd (run (shuffle_feature predictor scorer random_state train
                     feature) w))
    = log w ++ evs.
Proof.
  rewrite shuffle_feature_run. unfold same_inputs.
  destruct (working_copy _ _ _ _ _) as [Xc|e]; simpl.
  2:{ repeat split. exists []. rewrite app_nil_r. reflexivity. }
  destruct (predictor (threads w 0) (rf w) Xc) as [prediction|e]; simpl.
  2:{ repeat split. eexists. reflexivity. }
  destruct (scorer (y_train w) prediction) as [shuff|e]; simpl.
  2:{ repeat split. eexists. rewrite <- app_assoc. reflexivity. }
  destruct (performance_shift w); simpl;
    (repeat split; eexists; rewrite <- app_assoc; reflexivity).
Qed.

Lemma for_each_frame (train : float) (cols : list string) (w : world) :
  same_inputs w
    (snd (run (for_each cols
                 (shuffle_feature predictor scorer random_state train)) w)) /\
  feature_importance
    (snd (run (for_each cols
                 (shuffle_feature predictor scorer random_state train)) w))
  = feature_importance w /\
  exists evs,
    log (snd (run (for_each cols
                     (shuffle_feature predictor scorer random_state train)) w))
    = log w ++ evs.
Proof.
  revert w. induction cols as [|feature cols IH]; intros w.
  - simpl. split; [apply same_inputs_refl|]. split; [reflexivity|].
    exists []. rewrite app_nil_r. reflexivity.
  - simpl for_each. rewrite run_bind.
    destruct (shuffle_feature_frame train feature w) as (Hin & Hfi & evs & Hlog).
    destruct (run (shuffle_feature _ _ _ _ _) w) as [[[]|e] w1]; simpl in *.
    + destruct (IH w1) as (Hin' & Hfi' & evs' & Hlog').
      split; [eapply same_inputs_trans; eassumption|].
      split; [congruence|].
      exists (evs ++ evs'). rewrite Hlog', Hlog, app_assoc. reflexivity.
    + split; [assumption|]. split; [assumption|]. exists evs. assumption.
Qed.

(** The loop cell keeps them too, and its first call is the prediction on
    [X_train]. *)
Lemma shuffle_cell_frame (w : world) :
  same_inputs w (snd (run (shuffle_cell predictor scorer random_state) w)) /\
  feature_importance (snd (run (shuffle_cell predictor scorer random_state) w))
  = feature_importance w /\
  exists evs,
    log (snd (run (shuffle_cell predictor scorer random_state) w))
    = log w ++ EvPredict (rf w) (X_train w) :: evs.
Proof.
  rewrite shuffle_cell_run. simpl.
  destruct (predictor (threads w 0) (rf w) (X_train w)) as [prediction|e];
    simpl.
  2:{ repeat split. eexists. reflexivity. }
  destruct (scorer (y_train w) prediction) as [train|e]; simpl.
  2:{ repeat split. eexists. rewrite <- app_assoc. reflexivity. }
  match goal with
  | |- context [run (for_each ?cols ?body) ?w1] =>
      destruct (for_each_frame train cols w1) as (Hin & Hfi & evs & Hlog)
  end.
  split; [|split].
  - eapply same_inputs_trans; [|exact Hin]. repeat split.
  - rewrite Hfi. reflexivity.
  - eexists. rewrite Hlog. simpl. rewrite <- !app_assoc. reflexivity.
Qed.

(** Cells 13 and 33 make no call and keep the inputs and the drifts. *)
Lemma cell_13_frame (w : world) :
  same_inputs w (snd (run cell_13 w)) /\
  performance_shift (snd (run cell_13 w)) = performance_shift w /\
  log (snd (run cell_13 w)) = log w.
Proof.
  unfold cell_13, run, bind, read_performance_shift, assign_feature_importance,
    read_feature_importance, read_X_train, lift, same_inputs.
  destruct (performance_shift w) eqn:E; simpl; [|auto].
  destruct (Nat.eqb _ _); simpl; auto.
Qed.

(** *** The notebook's own cells *)

(** The classification evaluation is [evaluate] with [predict_proba], the
    ROC-AUC and seed 10; the regression evaluation is [evaluate] with
    [predict], the RMSE and seed 11. *)
Lemma evaluate_classification_eq :
  evaluate_classification = evaluate predict_proba_1 roc_auc_score 10.
Proof. reflexivity. Qed.

Lemma evaluate_regression_eq :
  evaluate_regression = evaluate predict rmse 11.
Proof. reflexivity. Qed.

(** Cell 7 leaves [X_train] with the index [0 .. N-1], its columns as they
    were. *)
Lemma cell_7_run (w : world) :
  run cell_7 w = (Ok tt, set_X_train (reset_index_frame (X_train w)) w) /\
  range_indexed (reset_index_frame (X_train w)) = true /\
  df_data (reset_index_frame (X_train w)) = df_data (X_train w).
Proof.
  split; [reflexivity|]. split; [apply reset_index_frame_range | reflexivity].
Qed.

(** *** The calls of a run that returns *)

Lemma predict_calls_app (evs evs' : list event) :
  predict_calls (evs ++ evs') = predict_calls evs + predict_calls evs'.
Proof.
  induction evs as [|[m X|y p] evs IH]; simpl; [reflexivity| |assumption].
  rewrite IH. reflexivity.
Qed.



Lemma NoDup_NameLabel (names : list string) :
  NoDup names -> NoDup (map NameLabel names).
Proof.
  induction 1 as [|n names Hn Hnd IH]; simpl; constructor; [|assumption].
  rewrite in_map_iff. intros (n' & E & Hin). inversion E; subst. contradiction.
Qed.


(** C9: the report of an evaluation that returns holds one drift per column
    of the feature matrix, under that column's name and in column order:
    its index is the list of columns, where no name occurs twice.  The
    drift under a column's name is the one of that column's turn: the
    baseline score minus the score of its working copy. *)
Theorem report_follows_the_columns (w w' : world) :
  well_formed (X_train w) = true ->
  run (evaluate predictor scorer random_state) w = (Ok tt, w') ->
  exists report,
    feature_importance w' = Some report /\
    index report = map NameLabel (columns (X_train w)) /\
    length report = length (columns (X_train w)) /\
    NoDup (index report) /\
    performance_shift w' = Some (map snd report) /\
    exists prediction train outs,
      evaluation predictor scorer random_state w prediction train outs /\
      report = combine (map NameLabel (columns (X_train w)))
                 (map (fun o => Float64.sub train (out_score o)) outs).
Proof.
  intros Hwf E.
  apply evaluate_Ok in E as (prediction & train & outs & Hev & ->).
  pose proof Hev as (_ & _ & F & _).
  assert (Hlen : length (map NameLabel (columns (X_train w)))
                 = length (drifts train outs)).
  { unfold drifts. rewrite !length_map. eapply Forall2_length; eassumption. }
  exists (combine (map NameLabel (columns (X_train w))) (drifts train outs)).
  split; [reflexivity|].
  unfold index. rewrite (map_fst_combine _ _ Hlen), (map_snd_combine _ _ Hlen).
  split; [reflexivity|]. split; [|split; [|split; [reflexivity|]]].
  - rewrite length_combine, <- Hlen, length_map. lia.
  - apply NoDup_NameLabel, well_formed_NoDup. assumption.
  - exists prediction, train, outs. split; [assumption | reflexivity].
Qed.

(** C4: in an evaluation that returns, the frame handed to the model for a
    feature has the row index of the feature matrix and, column by column,
    the same name and, but for that feature's column, the same values in
    the same rows; each score is computed against the target as it was, and
    the feature matrix and the target are left as they were. *)
Theorem working_copy_differs_in_one_column (w w' : world) :
  run (evaluate predictor scorer random_state) w = (Ok tt, w') ->
  exists prediction outs,
    log w' = log w ++ baseline_events w prediction
               ++ flat_map (events_of (rf w) (y_train w)) outs /\
    Forall2
      (fun feature o =>
         df_index (out_frame o) = df_index (X_train w) /\
         Forall2
           (fun c c' => fst c' = fst c /\ (fst c <> feature -> snd c' = snd c))
           (df_data (X_train w)) (df_data (out_frame o)))
      (columns (X_train w)) outs /\
    X_train w' = X_train w /\
    y_train w' = y_train w.
Proof.
  intros E.
  apply evaluate_Ok in E as (prediction & train & outs & Hev & ->).
  destruct Hev as (_ & _ & F & _).
  exists prediction, outs.
  split; [reflexivity|]. split; [|split; reflexivity].
  eapply Forall2_impl; [|exact F].
  intros feature o (Hw & _ & _).
  apply working_copy_frame in Hw as (Hidx & _ & Hother).
  auto.
Qed.

(** The working copy of each column of a well-formed frame with index
    [0 .. N-1], given a permutation of [0 .. N-1]. *)
Lemma outcomes_shuffled (m : model) (X : Frame) (y : list target)
  (outs : list outcome) :
  well_formed X = true ->
  range_indexed X = true ->
  is_range_permutation (n_rows X) (permutation random_state (n_rows X)) = true ->
  Forall2 (shuffled_outcome predictor scorer random_state m X y)
    (columns X) outs ->
  Forall2
    (fun feature o =>
       exists col,
         lookup_column feature (df_data X) = Some col /\
         out_frame o =
         mkDataFrame (df_index X)
           (replace_column feature
              (permute (permutation random_state (n_rows X)) col) (df_data X)))
    (columns X) outs.
Proof.
  intros Hwf Hrange Hperm F.
  eapply Forall2_impl; [|exact F].
  intros feature o (Hw & _ & _).
  destruct (working_copy_frame _ _ _ _ _ _ Hw) as (_ & Hin & _).
  destruct (lookup_column_In _ _ Hin) as (col & Ecol).
  exists col. split; [assumption|].
  rewrite (working_copy_range nan permutation _ _ _ _ Hwf Hrange Hperm Ecol)
    in Hw.
  inversion Hw. reflexivity.
Qed.

(** C5: in an evaluation that returns on a well-formed feature matrix whose
    index is [0 .. N-1], the column a working copy holds for its feature is
    a rearrangement of the values that feature has in the feature matrix:
    the same values, each as many times. *)
Theorem shuffled_column_keeps_its_values (w w' : world) :
  well_formed (X_train w) = true ->
  range_indexed (X_train w) = true ->
  is_range_permutation (n_rows (X_train w))
    (permutation random_state (n_rows (X_train w))) = true ->
  run (evaluate predictor scorer random_state) w = (Ok tt, w') ->
  exists prediction outs,
    log w' = log w ++ baseline_events w prediction
               ++ flat_map (events_of (rf w) (y_train w)) outs /\
    Forall2
      (fun feature o =>
         exists col col',
           lookup_column feature (df_data (X_train w)) = Some col /\
           lookup_column feature (df_data (out_frame o)) = Some col' /\
           Permutation col' col)
      (columns (X_train w)) outs.
Proof.
  intros Hwf Hrange Hperm E.
  apply evaluate_Ok in E as (prediction & train & outs & Hev & ->).
  destruct Hev as (_ & _ & F & _).
  exists prediction, outs. split; [reflexivity|].
  eapply Forall2_impl;
    [|exact (outcomes_shuffled _ _ _ _ Hwf Hrange Hperm F)].
  intros feature o (col & Ecol & ->).
  exists col, (permute (permutation random_state (n_rows (X_train w))) col).
  split; [assumption|]. split; [apply lookup_replace_same|].
  apply permute_Permutation.
  rewrite (well_formed_column _ _ _ Hwf Ecol).
  apply is_range_permutation_sound. assumption.
Qed.

(** C10, as the code has it: in an evaluation that returns on a well-formed
    feature matrix whose index is [0 .. N-1], every working copy holds, for
    its feature, that feature's values read at the positions
    [permutation random_state N], the same positions for every feature; two
    columns with the same values are therefore given the same shuffled
    values. *)
Theorem every_column_shuffled_by_the_same_positions (w w' : world) :
  well_formed (X_train w) = true ->
  range_indexed (X_train w) = true ->
  is_range_permutation (n_rows (X_train w))
    (permutation random_state (n_rows (X_train w))) = true ->
  run (evaluate predictor scorer random_state) w = (Ok tt, w') ->
  exists prediction outs,
    log w' = log w ++ baseline_events w prediction
               ++ flat_map (events_of (rf w) (y_train w)) outs /\
    Forall2
      (fun feature o =>
         exists col,
           lookup_column feature (df_data (X_train w)) = Some col /\
           lookup_column feature (df_data (out_frame o))
           = Some (permute (permutation random_state (n_rows (X_train w))) col))
      (columns (X_train w)) outs /\
    forall f g o o',
      In (f, o) (combine (columns (X_train w)) outs) ->
      In (g, o') (combine (columns (X_train w)) outs) ->
      lookup_column f (df_data (X_train w))
      = lookup_column g (df_data (X_train w)) ->
      lookup_column f (df_data (out_frame o))
      = lookup_column g (df_data (out_frame o')).
Proof.
  intros Hwf Hrange Hperm E.
  apply evaluate_Ok in E as (prediction & train & outs & Hev & ->).
  destruct Hev as (_ & _ & F & _).
  pose proof (outcomes_shuffled _ _ _ _ Hwf Hrange Hperm F) as F'.
  exists prediction, outs. split; [reflexivity|]. split.
  - eapply Forall2_impl; [|exact F'].
    intros feature o (col & Ecol & ->).
    exists col. split; [assumption | apply lookup_replace_same].
  - intros f g o o' Hf Hg Esame.
    destruct (Forall2_combine_In _ _ _ _ _ F' Hf) as (colf & Ef & ->).
    destruct (Forall2_combine_In _ _ _ _ _ F' Hg) as (colg & Eg & ->).
    simpl. rewrite !lookup_replace_same.
    congruence.
Qed.

(** The working copy of a column that holds one value in every row is the
    frame itself. *)
Lemma constant_feature_frame (w : world) (feature : string)
  (col : list cell) (v : cell) (outs : list outcome) (o : outcome) :
  well_formed (X_train w) = true ->
  range_indexed (X_train w) = true ->
  is_range_permutation (n_rows (X_train w))
    (permutation random_state (n_rows (X_train w))) = true ->
  lookup_column feature (df_data (X_train w)) = Some col ->
  (forall a, In a col -> a = v) ->
  Forall2
    (shuffled_outcome predictor scorer random_state
       (rf w) (X_train w) (y_train w))
    (columns (X_train w)) outs ->
  In (feature, o) (combine (columns (X_train w)) outs) ->
  out_frame o = X_train w.
Proof.
  intros Hwf Hrange Hperm Ecol Hconst F Ho.
  pose proof (outcomes_shuffled _ _ _ _ Hwf Hrange Hperm F) as F'.
  destruct (Forall2_combine_In _ _ _ _ _ F' Ho) as (col' & Ecol' & Eframe).
  rewrite Ecol in Ecol'; inversion Ecol'; subst col'; clear Ecol'.
  destruct (range_permutation_bound _ _ Hperm) as [Hplen Hpbound].
  pose proof (well_formed_column _ _ _ Hwf Ecol) as Hlen.
  rewrite (permute_constant _ col v Hconst) in Eframe
    by (rewrite Hlen; assumption).
  rewrite (replace_same _ _ _ Ecol) in Eframe.
  rewrite Eframe. destruct (X_train w); reflexivity.
Qed.

(** C6, as the code has it: in an evaluation that returns on a well-formed
    feature matrix whose index is [0 .. N-1], whatever the seed, the frame
    handed to the model for a feature whose column holds one value in every
    row is the feature matrix itself: the model is asked the baseline
    prediction once more, and the drift recorded for the feature is the
    baseline score minus the score of that second answer.  When the second
    answer is the first one, the drift is [+0.0] for a finite baseline
    score and NaN for an infinite or NaN one.  A forest whose trees are
    added up in the order the threads finish need not give the same answer
    twice. *)
Theorem constant_feature_drift_is_zero_when_the_model_repeats_its_answer
  (w w' : world) (feature : string) (col : list cell) (v : cell) :
  well_formed (X_train w) = true ->
  range_indexed (X_train w) = true ->
  is_range_permutation (n_rows (X_train w))
    (permutation random_state (n_rows (X_train w))) = true ->
  lookup_column feature (df_data (X_train w)) = Some col ->
  (forall a, In a col -> a = v) ->
  run (evaluate predictor scorer random_state) w = (Ok tt, w') ->
  exists prediction train outs o,
    evaluation predictor scorer random_state w prediction train outs /\
    feature_importance w'
    = Some (combine (map NameLabel (columns (X_train w))) (drifts train outs)) /\
    In (feature, o) (combine (columns (X_train w)) outs) /\
    out_frame o = X_train w /\
    (forall d,
        In (NameLabel feature, d)
          (combine (map NameLabel (columns (X_train w))) (drifts train outs))
        <-> d = Float64.sub train (out_score o)) /\
    (out_prediction o = prediction ->
     out_score o = train /\
     (Float64.is_finite train = true ->
      Float64.sub train (out_score o) = Float64.zero) /\
     (Float64.is_finite train = false ->
      Float64.sub train (out_score o) = S754_nan)).
Proof.
  intros Hwf Hrange Hperm Ecol Hconst E.
  apply evaluate_Ok in E as (prediction & train & outs & Hev & ->).
  pose proof Hev as (Ep & Es & F & _).
  assert (Hin : In feature (columns (X_train w))).
  { apply lookup_column_Some in Ecol. unfold columns.
    change feature with (fst (feature, col)). apply in_map. assumption. }
  destruct (Forall2_In_combine _ _ _ _ F Hin) as (o & Ho).
  exists prediction, train, outs, o.
  split; [assumption|]. split; [reflexivity|]. split; [assumption|].
  split; [eapply constant_feature_frame; eassumption|]. split.
  - intros d. unfold drifts. rewrite In_combine_map. split.
    + intros (f & o' & Ho' & Ef & ->). inversion Ef; subst f.
      rewrite (combine_NoDup_unique _ _ _ _ _ (well_formed_NoDup _ Hwf) Ho' Ho).
      reflexivity.
    + intros ->. exists feature, o. auto.
  - intros Esame.
    destruct (Forall2_combine_In _ _ _ _ _ F Ho) as (_ & _ & Eos).
    rewrite Esame, Es in Eos. inversion Eos as [Escore].
    split; [reflexivity|]. split.
    + apply sub_diag.
    + apply sub_diag_not_finite.
Qed.

Lemma evaluate_frame (w : world) :
  same_inputs w (snd (run (evaluate predictor scorer random_state) w)).
Proof.
  unfold evaluate. rewrite run_bind.
  destruct (shuffle_cell_frame w) as (Hin & _).
  destruct (run (shuffle_cell _ _ _) w) as [[[]|e] w1]; simpl in *;
    [|assumption].
  destruct (cell_13_frame w1) as (Hin' & _).
  eapply same_inputs_trans; eassumption.
Qed.

(** C7, as the code has it: an evaluation checks no shape and no emptiness
    of its own.  Whatever the feature matrix and the target, its first act
    is the prediction call on the feature matrix; an exception of that call,
    or of the metric on its result, is the exception of the evaluation, and
    nothing is shuffled; and an evaluation that raises, wherever it does,
    leaves [feature_importance] as it found it: no report is made. *)
Theorem evaluate_validates_nothing_itself (w : world) :
  (exists evs,
      log (snd (run (evaluate predictor scorer random_state) w))
      = log w ++ EvPredict (rf w) (X_train w) :: evs) /\
  (forall e,
      predictor (threads w 0) (rf w) (X_train w) = Raise e ->
      run (evaluate predictor scorer random_state) w
      = (Raise e, next_call (add_event (EvPredict (rf w) (X_train w)) w))) /\
  (forall prediction e,
      predictor (threads w 0) (rf w) (X_train w) = Ok prediction ->
      scorer (y_train w) prediction = Raise e ->
      run (evaluate predictor scorer random_state) w
      = (Raise e,
         add_event (EvScore (y_train w) prediction)
           (next_call (add_event (EvPredict (rf w) (X_train w)) w)))) /\
  (forall e w',
      run (evaluate predictor scorer random_state) w = (Raise e, w') ->
      feature_importance w' = feature_importance w).
Proof.
  unfold evaluate. rewrite run_bind.
  split; [|split; [|split]].
  - destruct (shuffle_cell_frame w) as (_ & _ & evs & Hlog).
    destruct (run (shuffle_cell _ _ _) w) as [[[]|e] w1]; simpl in *.
    + destruct (cell_13_frame w1) as (_ & _ & Hl). rewrite Hl.
      exists evs. assumption.
    + exists evs. assumption.
  - intros e Ee. rewrite shuffle_cell_run, Ee. reflexivity.
  - intros prediction e Ep Ee. rewrite shuffle_cell_run, Ep. simpl.
    rewrite Ee. reflexivity.
  - intros e w'.
    destruct (shuffle_cell_frame w) as (_ & Hfi & _).
    destruct (run (shuffle_cell _ _ _) w) as [[[]|e1] w1] eqn:E1; simpl in *.
    + apply shuffle_cell_Ok in E1 as (prediction & train & outs & Hev & ->).
      rewrite (cell_13_run (after_shuffle_cell w prediction train outs)
                 (drifts train outs) eq_refl).
      * discriminate.
      * destruct Hev as (_ & _ & F & _). unfold drifts. rewrite length_map.
        symmetry. eapply Forall2_length; exact F.
    + intros E; inversion E; subst. assumption.
Qed.

End NotebookFacts.

(** ** Two runs *)

Section TwoRuns.

Context {C : Collaborators}.
Variable predictor : schedule -> model -> Frame -> result (list float).
Variable scorer : list target -> list float -> result float.

(** On a well-formed frame the working copy depends on the seed through
    the draw of [N] positions alone. *)
Lemma working_copy_same_draw (seed1 seed2 : Z) (X : Frame) (feature : string) :
  well_formed X = true ->
  permutation seed1 (n_rows X) = permutation seed2 (n_rows X) ->
  working_copy nan permutation seed1 X feature
  = working_copy nan permutation seed2 X feature.
Proof.
  intros Hwf Hdraw. unfold working_copy, getitem. rewrite copy_eq.
  destruct (lookup_column feature (df_data X)) as [col|] eqn:Ecol;
    [|reflexivity].
  simpl. unfold sample.
  assert (Hs : length (combine (df_index X) col) = n_rows X).
  { rewrite length_combine, (well_formed_column _ _ _ Hwf Ecol).
    unfold n_rows. lia. }
  rewrite Hs, Hdraw. reflexivity.
Qed.

(** One turn from two states with the same inputs, under seeds with the
    same draw, the model answering the call the same in both. *)
Lemma shuffle_feature_same_inputs (seed1 seed2 : Z) (train : float)
  (feature : string) (w1 w2 w1' w2' : world) (r1 r2 : result unit) :
  same_inputs w1 w2 ->
  well_formed (X_train w1) = true ->
  permutation seed1 (n_rows (X_train w1))
  = permutation seed2 (n_rows (X_train w1)) ->
  (forall X, predictor (threads w1 0) (rf w1) X
             = predictor (threads w2 0) (rf w1) X) ->
  performance_shift w1 = performance_shift w2 ->
  run (shuffle_feature predictor scorer seed1 train feature) w1 = (r1, w1') ->
  run (shuffle_feature predictor scorer seed2 train feature) w2 = (r2, w2') ->
  r1 = r2 /\ same_inputs w1' w2' /\
  performance_shift w1' = performance_shift w2' /\
  (exists evs, log w1' = log w1 ++ evs /\ log w2' = log w2 ++ evs) /\
  (r1 = Ok tt ->
   (forall k, threads w1' k = threads w1 (S k)) /\
   (forall k, threads w2' k = threads w2 (S k))).
Proof.
  intros (Hrf & HX & Hy) Hwf Hdraw Hans Hps. rewrite !shuffle_feature_run.
  rewrite <- Hrf, <- HX, <- Hy, <- Hps,
    <- (working_copy_same_draw seed1 seed2 _ feature Hwf Hdraw).
  unfold same_inputs.
  destruct (working_copy _ _ _ _ _) as [Xc|e]; simpl.
  2:{ intros E1 E2; inversion E1; inversion E2; subst; simpl.
      repeat split; try assumption; try discriminate.
      exists []. rewrite !app_nil_r. split; reflexivity. }
  rewrite <- Hans.
  destruct (predictor (threads w1 0) (rf w1) Xc) as [prediction|e]; simpl.
  2:{ intros E1 E2; inversion E1; inversion E2; subst; simpl.
      repeat split; try assumption; try discriminate.
      eexists. split; reflexivity. }
  destruct (scorer (y_train w1) prediction) as [shuff|e]; simpl.
  2:{ intros E1 E2; inversion E1; inversion E2; subst; simpl.
      repeat split; try assumption; try discriminate.
      eexists. rewrite <- !app_assoc. split; reflexivity. }
  destruct (performance_shift w1) eqn:Ew1;
    intros E1 E2; inversion E1; inversion E2; subst; simpl;
    (repeat split; try assumption; try discriminate; try congruence);
    eexists; rewrite <- !app_assoc; split; reflexivity.
Qed.

Lemma for_each_same_inputs (seed1 seed2 : Z) (train : float)
  (cols : list string) :
  forall (w1 w2 w1' w2' : world) (r1 r2 : result unit),
    same_inputs w1 w2 ->
    well_formed (X_train w1) = true ->
    permutation seed1 (n_rows (X_train w1))
    = permutation seed2 (n_rows (X_train w1)) ->
    (forall i X, i < length cols ->
                 predictor (threads w1 i) (rf w1) X
                 = predictor (threads w2 i) (rf w1) X) ->
    performance_shift w1 = performance_shift w2 ->
    run (for_each cols (shuffle_feature predictor scorer seed1 train)) w1
    = (r1, w1') ->
    run (for_each cols (shuffle_feature predictor scorer seed2 train)) w2
    = (r2, w2') ->
    r1 = r2 /\ same_inputs w1' w2' /\
    performance_shift w1' = performance_shift w2' /\
    exists evs, log w1' = log w1 ++ evs /\ log w2' = log w2 ++ evs.
Proof.
  induction cols as [|feature cols IH];
    intros w1 w2 w1' w2' r1 r2 Hin Hwf Hdraw Hans Hps.
  - simpl. unfold run, ret. intros E1 E2; inversion E1; inversion E2; subst.
    repeat split; try assumption; try apply Hin.
    exists []. rewrite !app_nil_r. split; reflexivity.
  - simpl for_each. rewrite !run_bind.
    destruct (run (shuffle_feature _ _ seed1 _ _) w1) as [ra wa] eqn:Ea.
    destruct (run (shuffle_feature _ _ seed2 _ _) w2) as [rb wb] eqn:Eb.
    assert (Hans0 : forall X, predictor (threads w1 0) (rf w1) X
                              = predictor (threads w2 0) (rf w1) X)
      by (intros X; apply Hans; simpl; lia).
    destruct (shuffle_feature_same_inputs _ _ _ _ _ _ _ _ _ _
                Hin Hwf Hdraw Hans0 Hps Ea Eb)
      as (<- & Hin' & Hps' & (evs & Hla & Hlb) & Hth).
    pose proof (shuffle_feature_frame predictor scorer seed1 train feature w1)
      as (Hkeep & _).
    rewrite Ea in Hkeep. simpl in Hkeep.
    destruct Hkeep as (Hrf1 & HX1 & _).
    destruct ra as [[]|e].
    + destruct (Hth eq_refl) as (Hta & Htb).
      intros E1 E2.
      assert (Hwf' : well_formed (X_train wa) = true)
        by (rewrite <- HX1; assumption).
      assert (Hdraw' : permutation seed1 (n_rows (X_train wa))
                       = permutation seed2 (n_rows (X_train wa)))
        by (rewrite <- HX1; assumption).
      assert (Hans' : forall i X, i < length cols ->
                        predictor (threads wa i) (rf wa) X
                        = predictor (threads wb i) (rf wa) X).
      { intros i X Hi. rewrite Hta, Htb, <- Hrf1.
        apply Hans. simpl. lia. }
      destruct (IH _ _ _ _ _ _ Hin' Hwf' Hdraw' Hans' Hps' E1 E2)
        as (-> & Hin'' & Hps'' & evs' & Hla' & Hlb').
      repeat split; try assumption; try apply Hin''.
      exists (evs ++ evs'). rewrite Hla', Hlb', Hla, Hlb, !app_assoc.
      split; reflexivity.
    + intros E1 E2; inversion E1; inversion E2; subst.
      repeat split; try assumption; try apply Hin'.
      exists evs. split; assumption.
Qed.

Lemma shuffle_cell_same_inputs (seed1 seed2 : Z) (w1 w2 w1' w2' : world)
  (r1 r2 : result unit) :
  same_inputs w1 w2 ->
  well_formed (X_train w1) = true ->
  permutation seed1 (n_rows (X_train w1))
  = permutation seed2 (n_rows (X_train w1)) ->
  (forall i X, i <= length (columns (X_train w1)) ->
               predictor (threads w1 i) (rf w1) X
               = predictor (threads w2 i) (rf w1) X) ->
  run (shuffle_cell predictor scorer seed1) w1 = (r1, w1') ->
  run (shuffle_cell predictor scorer seed2) w2 = (r2, w2') ->
  r1 = r2 /\ same_inputs w1' w2' /\
  (r1 = Ok tt -> performance_shift w1' = performance_shift w2') /\
  exists evs, log w1' = log w1 ++ evs /\ log w2' = log w2 ++ evs.
Proof.
  intros (Hrf & HX & Hy) Hwf Hdraw Hans. rewrite !shuffle_cell_run. simpl.
  rewrite <- Hrf, <- HX, <- Hy, <- (Hans 0 (X_train w1)) by lia.
  unfold same_inputs.
  destruct (predictor (threads w1 0) (rf w1) (X_train w1))
    as [prediction|e]; simpl.
  2:{ intros E1 E2; inversion E1; inversion E2; subst; simpl.
      repeat split; try assumption; try discriminate.
      eexists. split; reflexivity. }
  destruct (scorer (y_train w1) prediction) as [train|e]; simpl.
  2:{ intros E1 E2; inversion E1; inversion E2; subst; simpl.
      repeat split; try assumption; try discriminate.
      eexists. rewrite <- !app_assoc. split; reflexivity. }
  intros E1 E2.
  match type of E1 with
  | run _ ?wa = _ =>
      match type of E2 with
      | run _ ?wb = _ =>
          assert (Hin : same_inputs wa wb) by (repeat split; assumption);
          destruct (for_each_same_inputs seed1 seed2 _ _ wa wb _ _ _ _
                      Hin Hwf Hdraw
                      (fun i X Hi => Hans (S i) X (proj1 (Nat.le_succ_l _ _) Hi))
                      eq_refl E1 E2)
            as (-> & Hin' & Hps' & evs & Hla & Hlb)
      end
  end.
  split; [reflexivity|]. split; [exact Hin'|]. split; [auto|].
  eexists. rewrite Hla, Hlb. simpl. rewrite <- !app_assoc.
  split; reflexivity.
Qed.

Lemma cell_13_same_inputs (w1 w2 w1' w2' : world) (r1 r2 : result unit) :
  same_inputs w1 w2 ->
  performance_shift w1 = performance_shift w2 ->
  run cell_13 w1 = (r1, w1') ->
  run cell_13 w2 = (r2, w2') ->
  r1 = r2 /\ same_inputs w1' w2' /\
  performance_shift w1' = performance_shift w2' /\
  (r1 = Ok tt ->
   feature_importance w1' = feature_importance w2' /\
   feature_importance w1' <> None) /\
  log w1' = log w1 /\ log w2' = log w2.
Proof.
  intros (Hrf & HX & Hy) Hps.
  destruct w1, w2; simpl in *; subst.
  unfold cell_13, run, bind, read_performance_shift, assign_feature_importance,
    read_feature_importance, read_X_train, lift, same_inputs; simpl.
  match goal with
  | |- context [match ?ps with Some _ => _ | None => _ end] =>
      destruct ps as [l|]; simpl
  end.
  2:{ intros E1 E2; inversion E1; inversion E2; subst; simpl.
      repeat split; discriminate. }
  destruct (Nat.eqb _ _); simpl;
    intros E1 E2; inversion E1; inversion E2; subst; simpl;
    repeat split; discriminate.
Qed.

Lemma evaluate_same_inputs (seed1 seed2 : Z) (w1 w2 w1' w2' : world)
  (r1 r2 : result unit) :
  same_inputs w1 w2 ->
  well_formed (X_train w1) = true ->
  permutation seed1 (n_rows (X_train w1))
  = permutation seed2 (n_rows (X_train w1)) ->
  (forall i X, i <= length (columns (X_train w1)) ->
               predictor (threads w1 i) (rf w1) X
               = predictor (threads w2 i) (rf w1) X) ->
  run (evaluate predictor scorer seed1) w1 = (r1, w1') ->
  run (evaluate predictor scorer seed2) w2 = (r2, w2') ->
  r1 = r2 /\ same_inputs w1' w2' /\
  (r1 = Ok tt ->
   feature_importance w1' = feature_importance w2' /\
   feature_importance w1' <> None /\
   performance_shift w1' = performance_shift w2') /\
  exists evs, log w1' = log w1 ++ evs /\ log w2' = log w2 ++ evs.
Proof.
  intros Hin Hwf Hdraw Hans. unfold evaluate. rewrite !run_bind.
  destruct (run (shuffle_cell _ _ seed1) w1) as [ra wa] eqn:Ea.
  destruct (run (shuffle_cell _ _ seed2) w2) as [rb wb] eqn:Eb.
  destruct (shuffle_cell_same_inputs _ _ _ _ _ _ _ _ Hin Hwf Hdraw Hans Ea Eb)
    as (<- & Hin' & Hps' & evs & Hla & Hlb).
  destruct ra as [[]|e].
  - intros E1 E2.
    destruct (cell_13_same_inputs _ _ _ _ _ _ Hin' (Hps' eq_refl) E1 E2)
      as (-> & Hin'' & Hps'' & Hfi & Hl1 & Hl2).
    split; [reflexivity|]. split; [assumption|]. split.
    + intros Hok. destruct (Hfi Hok). auto.
    + exists evs. rewrite Hl1, Hl2. split; assumption.
  - intros E1 E2; inversion E1; inversion E2; subst.
    split; [reflexivity|]. split; [assumption|].
    split; [discriminate|]. exists evs. split; assumption.
Qed.

(** The frames of the turns of two runs that return on the same inputs,
    under seeds with the same draw. *)
Lemma outcomes_same_frames (seed1 seed2 : Z) (m : model) (X : Frame)
  (y : list target) (cols : list string) (outs1 outs2 : list outcome) :
  well_formed X = true ->
  permutation seed1 (n_rows X) = permutation seed2 (n_rows X) ->
  Forall2 (shuffled_outcome predictor scorer seed1 m X y) cols outs1 ->
  Forall2 (shuffled_outcome predictor scorer seed2 m X y) cols outs2 ->
  map out_frame outs1 = map out_frame outs2.
Proof.
  intros Hwf Hdraw F1. revert outs2.
  induction F1 as [|f o1 cols outs1 (Hw1 & _) F1 IH]; intros outs2 F2;
    inversion F2 as [|f' o2 cols' outs2' (Hw2 & _) F2']; subst;
    [reflexivity|].
  simpl. rewrite (IH _ F2'). f_equal.
  rewrite (working_copy_same_draw seed1 seed2 _ f Hwf Hdraw) in Hw1.
  congruence.
Qed.

(** C3, as the code has it: two evaluations with the same prediction
    method and metric, from two states of the notebook that hold the same
    model, the same well-formed feature matrix and the same target, under
    seeds for which NumPy draws the same [N] positions (the same seed, for
    one).  When both return, they have handed the model the same frames,
    call for call, and their reports have the same index: the shuffles
    depend on the seed alone.  When moreover the model answers each of the
    [1 + k] prediction calls the same in both, whatever the frame, the two
    end alike: both return or both raise the same exception, having made
    the same calls, and when they return they leave the same report and the
    same list of drifts, bit for bit.  And when the model's answers do not
    depend on the order of the threads at all, an evaluation run again
    right after one that returned returns the same report.  A forest with
    [n_jobs=4] promises none of the two. *)
Theorem evaluate_repeats_under_the_same_draw_and_answers
  (seed1 seed2 : Z) (w1 w2 : world) :
  same_inputs w1 w2 ->
  well_formed (X_train w1) = true ->
  permutation seed1 (n_rows (X_train w1))
  = permutation seed2 (n_rows (X_train w1)) ->
  let r1 := run (evaluate predictor scorer seed1) w1 in
  let r2 := run (evaluate predictor scorer seed2) w2 in
  let r3 := run (evaluate predictor scorer seed1) (snd r1) in
  (fst r1 = Ok tt -> fst r2 = Ok tt ->
   exists p1 p2 outs1 outs2 report1 report2,
     log (snd r1) = log w1 ++ baseline_events w1 p1
                      ++ flat_map (events_of (rf w1) (y_train w1)) outs1 /\
     log (snd r2) = log w2 ++ baseline_events w2 p2
                      ++ flat_map (events_of (rf w2) (y_train w2)) outs2 /\
     map out_frame outs1 = map out_frame outs2 /\
     length outs1 = length (columns (X_train w1)) /\
     feature_importance (snd r1) = Some report1 /\
     feature_importance (snd r2) = Some report2 /\
     index report1 = index report2) /\
  ((forall i X, i <= length (columns (X_train w1)) ->
                predictor (threads w1 i) (rf w1) X
                = predictor (threads w2 i) (rf w1) X) ->
   fst r1 = fst r2 /\
   (exists evs, log (snd r1) = log w1 ++ evs /\ log (snd r2) = log w2 ++ evs) /\
   (fst r1 = Ok tt ->
    feature_importance (snd r1) <> None /\
    feature_importance (snd r1) = feature_importance (snd r2) /\
    performance_shift (snd r1) = performance_shift (snd r2))) /\
  ((forall s s' X, predictor s (rf w1) X = predictor s' (rf w1) X) ->
   fst r1 = Ok tt ->
   fst r3 = Ok tt /\
   feature_importance (snd r3) = feature_importance (snd r1)).
Proof.
  intros Hin Hwf Hdraw r1 r2 r3. split; [|split].
  - intros Ok1 Ok2.
    assert (E1 : run (evaluate predictor scorer seed1) w1 = (Ok tt, snd r1))
      by (rewrite <- Ok1; apply surjective_pairing).
    assert (E2 : run (evaluate predictor scorer seed2) w2 = (Ok tt, snd r2))
      by (rewrite <- Ok2; apply surjective_pairing).
    apply evaluate_Ok in E1 as (p1 & t1 & outs1 & (_ & _ & F1 & _) & E1).
    apply evaluate_Ok in E2 as (p2 & t2 & outs2 & (_ & _ & F2 & _) & E2).
    destruct Hin as (Hrf & HX & Hy).
    assert (Hframes : map out_frame outs1 = map out_frame outs2).
    { rewrite <- Hrf, <- HX, <- Hy in F2.
      eapply outcomes_same_frames; eassumption. }
    assert (Hl1 : length outs1 = length (columns (X_train w1)))
      by (symmetry; eapply Forall2_length; exact F1).
    assert (Hl2 : length outs2 = length (columns (X_train w1)))
      by (rewrite HX; symmetry; eapply Forall2_length; exact F2).
    exists p1, p2, outs1, outs2,
      (combine (map NameLabel (columns (X_train w1))) (drifts t1 outs1)),
      (combine (map NameLabel (columns (X_train w2))) (drifts t2 outs2)).
    rewrite E1, E2.
    split; [reflexivity|]. split; [reflexivity|]. split; [assumption|].
    split; [assumption|]. split; [reflexivity|]. split; [reflexivity|].
    assert (Hc : forall t outs,
               length outs = length (columns (X_train w1)) ->
               index (combine (map NameLabel (columns (X_train w1)))
                        (drifts t outs))
               = map NameLabel (columns (X_train w1))).
    { intros t outs Hl. apply map_fst_combine. unfold drifts.
      rewrite (length_map NameLabel).
      etransitivity; [symmetry; exact Hl|]. symmetry; apply length_map. }
    rewrite <- HX, !Hc by assumption. reflexivity.
  - intros Hans.
    destruct (evaluate_same_inputs seed1 seed2 _ _ _ _ _ _ Hin Hwf Hdraw Hans
                (surjective_pairing r1) (surjective_pairing r2))
      as (E12 & _ & Hok & Hlog).
    split; [assumption|]. split; [assumption|].
    intros Ok1. destruct (Hok Ok1) as (Hfi & Hsome & Hps). auto.
  - intros Hany Ok1.
    pose proof (evaluate_frame predictor scorer seed1 w1) as Hin1.
    fold r1 in Hin1.
    destruct (evaluate_same_inputs seed1 seed1 _ _ _ _ _ _ Hin1 Hwf eq_refl
                (fun i X _ => Hany _ _ X)
                (surjective_pairing r1) (surjective_pairing r3))
      as (E13 & _ & Hok3 & _).
    destruct (Hok3 Ok1) as (Hfi3 & _).
    split; [congruence | congruence].
Qed.

End TwoRuns.

(** ** Selection *)

Lemma getitem_mask_filter (f : label * float -> bool) (s : list (label * float)) :
  getitem_mask s (map f s) = filter f s.
Proof.
  induction s as [|row s IH]; simpl; [reflexivity|].
  rewrite IH. reflexivity.
Qed.

Lemma subsequence_filter {A : Type} (f : A -> bool) (l : list A) :
  subsequence (filter f l) l.
Proof.
  induction l as [|a l IH]; simpl; [constructor|].
  destruct (f a); constructor; assumption.
Qed.

Lemma subsequence_map {A B : Type} (g : A -> B) (l l' : list A) :
  subsequence l l' -> subsequence (map g l) (map g l').
Proof. induction 1; simpl; constructor; assumption. Qed.

Lemma select_filter (f : label * float -> bool) (s : list (label * float)) :
  subsequence (index (getitem_mask s (map f s))) (index s) /\
  forall name,
    In name (index (getitem_mask s (map f s))) <->
    exists drift, In (name, drift) s /\ f (name, drift) = true.
Proof.
  rewrite getitem_mask_filter. unfold index. split.
  - apply subsequence_map, subsequence_filter.
  - intros name. rewrite in_map_iff. split.
    + intros ([n d] & <- & Hin). apply filter_In in Hin as [Hin Hf].
      exists d. auto.
    + intros (d & Hin & Hf). exists (name, d). split; [reflexivity|].
      apply filter_In. auto.
Qed.

(** C2, as the code has it: for every series of drifts and every threshold,
    [s[s > t].index] holds the names whose drift is strictly above the
    threshold and no other, in the order the series has them, which is
    column order; [s[s < t].index] does the same for the drifts strictly
    below.  Cell 21 selects above 0, cell 37 below 0. *)
Theorem selection_is_by_threshold_in_column_order
  (s : list (label * float)) (t : float) :
  (subsequence (select_above s t) (index s) /\
   forall name,
     In name (select_above s t) <->
     exists drift, In (name, drift) s /\ Float64.gtb drift t = true) /\
  (subsequence (select_below s t) (index s) /\
   forall name,
     In name (select_below s t) <->
     exists drift, In (name, drift) s /\ Float64.ltb drift t = true) /\
  selected_features s = select_above s Float64.zero /\
  feat s = select_below s Float64.zero.
Proof.
  split; [|split; [|split; reflexivity]].
  - exact (select_filter (fun row => Float64.gtb (snd row) t) s).
  - exact (select_filter (fun row => Float64.ltb (snd row) t) s).
Qed.


(** ** The regression loop *)

Section RegressionFacts.

Context {C : Collaborators}.

(** C1, as the code has it: the regression loop records for every feature
    the difference [train_rmse - shuff_rmse] as it is, without negating
    it; a feature whose shuffling raises the error is therefore recorded
    with a drift strictly below zero. *)
Theorem regression_drift_is_baseline_minus_shuffled (w w' : world) :
  run evaluate_regression w = (Ok tt, w') ->
  exists prediction train_rmse outs,
    evaluation predict rmse 11 w prediction train_rmse outs /\
    performance_shift w'
    = Some (map (fun o => Float64.sub train_rmse (out_score o)) outs) /\
    feature_importance w'
    = Some (combine (map NameLabel (columns (X_train w)))
              (map (fun o => Float64.sub train_rmse (out_score o)) outs)) /\
    forall o,
      In o outs ->
      Float64.valid train_rmse = true ->
      Float64.valid (out_score o) = true ->
      Float64.ltb train_rmse (out_score o) = true ->
      Float64.ltb (Float64.sub train_rmse (out_score o)) Float64.zero = true.
Proof.
  intros E.
  apply (evaluate_Ok predict rmse 11) in E
    as (prediction & train & outs & Hev & ->).
  exists prediction, train, outs.
  split; [assumption|]. split; [reflexivity|]. split; [reflexivity|].
  intros o _. apply Float64Facts.sub_lt_negative.
Qed.

End RegressionFacts.

(** ** The notebook on small data *)

Import Toy Forest Cases.

(** C1, counterexample: with a baseline error of 100 and an error of 150
    once [z] is shuffled, at the positions NumPy draws for seed 11, the
    regression evaluation reports [z] with drift -50, which is not the
    negated difference and is not above zero. *)
Lemma regression_drift_is_not_negated :
  NumPy.RandomState_permutation 11 (n_rows frame_B) = Some [2; 3; 0; 1] /\
  rbind (predict (threads world_B 0) (rf world_B) frame_B)
    (rmse (y_train world_B))
  = Ok (Float64.of_Z 100) /\
  rbind (rbind (working_copy nan permutation 11 frame_B "z")
           (predict (threads world_B 1) (rf world_B)))
    (rmse (y_train world_B))
  = Ok (Float64.of_Z 150) /\
  fst (run evaluate_regression world_B) = Ok tt /\
  feature_importance (snd (run evaluate_regression world_B))
  = Some [(NameLabel "z", Float64.of_Z (-50))] /\
  Float64.of_Z (-50)
  <> Float64.opp (Float64.sub (Float64.of_Z 100) (Float64.of_Z 150)) /\
  Float64.gtb (Float64.of_Z (-50)) Float64.zero = false.
Proof.
  vm_compute. repeat split; try reflexivity. discriminate.
Qed.

(** C2, counterexample: of two columns above the threshold, the second
    with the larger drift, the selection returns the first one first, where
    the order by descending drift has the second one first. *)
Lemma selection_is_not_by_descending_drift :
  selected_features report_xy = [NameLabel "x"; NameLabel "y"] /\
  Spec.select report_xy Float64.zero = [NameLabel "y"; NameLabel "x"] /\
  selected_features report_xy <> Spec.select report_xy Float64.zero.
Proof.
  vm_compute. repeat split; try reflexivity. discriminate.
Qed.

(** C3, counterexample: two evaluations of the regression loop on the same
    forest, feature matrix and target, with the same seed.  In one the
    threads hand in the trees from the first to the last, in the other from
    the last to the first; the two predictions of the same frame differ in
    their last bits, and so do the two reports. *)
Lemma reports_differ_with_the_order_of_the_threads :
  same_inputs (world_steady first_to_last) (world_steady last_to_first) /\
  is_range_permutation (length three_trees) first_to_last = true /\
  is_range_permutation (length three_trees) last_to_first = true /\
  forest_predict first_to_last three_trees frame_XC
  <> forest_predict last_to_first three_trees frame_XC /\
  run (C := forest) evaluate_regression (world_steady first_to_last)
  = (Ok tt,
     snd (run (C := forest) evaluate_regression (world_steady first_to_last))) /\
  run (C := forest) evaluate_regression (world_steady last_to_first)
  = (Ok tt,
     snd (run (C := forest) evaluate_regression (world_steady last_to_first))) /\
  feature_importance
    (snd (run (C := forest) evaluate_regression (world_steady first_to_last)))
  = Some [(NameLabel "x", S754_finite true 4682991526393360 (-56));
          (NameLabel "c", Float64.zero)] /\
  feature_importance
    (snd (run (C := forest) evaluate_regression (world_steady last_to_first)))
  = Some [(NameLabel "x", S754_finite true 4682991526393368 (-56));
          (NameLabel "c", Float64.zero)] /\
  feature_importance
    (snd (run (C := forest) evaluate_regression (world_steady first_to_last)))
  <> feature_importance
       (snd (run (C := forest) evaluate_regression
               (world_steady last_to_first))).
Proof.
  vm_compute. repeat split; try reflexivity; discriminate.
Qed.

(** C6, counterexample: column [c] holds 9 in every row, and its working
    copy is the feature matrix.  The threads hand in the trees in one order
    for the baseline prediction and in the other for the prediction of that
    copy; the two scores differ in their last bits, and the drift recorded
    for [c] is not zero: it is below zero, and cell 37 selects [c]. *)
Lemma constant_feature_with_a_drift_below_zero :
  lookup_column "c" (df_data frame_XC) = Some [9; 9; 9]%Z /\
  well_formed frame_XC = true /\
  range_indexed frame_XC = true /\
  NumPy.RandomState_permutation 11 (n_rows frame_XC) = Some [0; 2; 1] /\
  working_copy (@nan forest) (@permutation forest) 11 frame_XC "c"
  = Ok frame_XC /\
  is_range_permutation (length three_trees) (threads world_unsteady 0) = true /\
  is_range_permutation (length three_trees) (threads world_unsteady 2) = true /\
  run (C := forest) evaluate_regression world_unsteady
  = (Ok tt, snd (run (C := forest) evaluate_regression world_unsteady)) /\
  feature_importance (snd (run (C := forest) evaluate_regression world_unsteady))
  = Some [(NameLabel "x", S754_finite true 4682991526393376 (-56));
          (NameLabel "c", S754_finite true 4503599627370496 (-105))] /\
  S754_finite true 4503599627370496 (-105) <> Float64.zero /\
  feat [(NameLabel "x", S754_finite true 4682991526393376 (-56));
        (NameLabel "c", S754_finite true 4503599627370496 (-105))]
  = [NameLabel "x"; NameLabel "c"].
Proof.
  vm_compute. repeat split; try reflexivity; discriminate.
Qed.

(** C7, counterexample: with two rows of features and one target value the
    evaluation raises what the metric raises, after the prediction call;
    with no column it raises what the model raises, in the prediction call.
    No exception of its own comes before. *)
Lemma errors_come_after_the_prediction_call :
  n_rows (X_train world_mismatch) <> length (y_train world_mismatch) /\
  fst (run evaluate_regression world_mismatch)
  = Raise (ValueError
             "Found input variables with inconsistent numbers of samples") /\
  log (snd (run evaluate_regression world_mismatch))
  = [EvPredict (rf world_mismatch) frame_two_rows;
     EvScore [0%Z] [Float64.of_Z 100; Float64.of_Z 150]] /\
  predict_calls (log (snd (run evaluate_regression world_mismatch))) = 1 /\
  columns (X_train world_no_columns) = [] /\
  fst (run evaluate_regression world_no_columns) = Raise (KeyError "z") /\
  log (snd (run evaluate_regression world_no_columns))
  = [EvPredict (rf world_no_columns) frame_no_columns] /\
  predict_calls (log (snd (run evaluate_regression world_no_columns))) = 1.
Proof.
  vm_compute. repeat split; try reflexivity. discriminate.
Qed.

(** C10, counterexample: two columns hold the same values and are given
    the same shuffled values, at the positions NumPy draws for seed 11, yet
    their drifts differ, the model reading one of them only. *)
Lemma equal_columns_unequal_drifts :
  lookup_column "a" (df_data frame_AB) = lookup_column "b" (df_data frame_AB) /\
  NumPy.RandomState_permutation 11 (n_rows frame_AB) = Some [2; 3; 0; 1] /\
  rbind (working_copy nan permutation 11 frame_AB "a")
    (fun Xc => Ok (lookup_column "a" (df_data Xc)))
  = Ok (Some [0; 0; 150; 50]%Z) /\
  rbind (working_copy nan permutation 11 frame_AB "b")
    (fun Xc => Ok (lookup_column "b" (df_data Xc)))
  = Ok (Some [0; 0; 150; 50]%Z) /\
  fst (run evaluate_regression world_AB) = Ok tt /\
  feature_importance (snd (run evaluate_regression world_AB))
  = Some [(NameLabel "a", Float64.of_Z (-50)); (NameLabel "b", Float64.zero)] /\
  Float64.of_Z (-50) <> Float64.zero.
Proof.
  vm_compute. repeat split; try reflexivity. discriminate.
Qed.

(** *** The theorems at work on scenario A and scenario B *)

Lemma regression_drift_is_baseline_minus_shuffled_witness :
  run evaluate_regression world_B = (Ok tt, world_B_evaluated) /\
  exists prediction train_rmse outs,
    evaluation predict rmse 11 world_B prediction train_rmse outs /\
    performance_shift world_B_evaluated
    = Some (map (fun o => Float64.sub train_rmse (out_score o)) outs) /\
    feature_importance world_B_evaluated
    = Some (combine (map NameLabel (columns (X_train world_B)))
              (map (fun o => Float64.sub train_rmse (out_score o)) outs)) /\
    forall o,
      In o outs ->
      Float64.valid train_rmse = true ->
      Float64.valid (out_score o) = true ->
      Float64.ltb train_rmse (out_score o) = true ->
      Float64.ltb (Float64.sub train_rmse (out_score o)) Float64.zero = true.
Proof.
  assert (H : run evaluate_regression world_B = (Ok tt, world_B_evaluated))
    by (vm_compute; reflexivity).
  split; [exact H|].
  exact (regression_drift_is_baseline_minus_shuffled world_B world_B_evaluated H).
Defined.

Lemma working_copy_differs_in_one_column_witness :
  run (evaluate predict_proba_1 roc_auc_score 10) world_A
  = (Ok tt, world_A_evaluated) /\
  exists prediction outs,
    log world_A_evaluated
    = log world_A ++ baseline_events world_A prediction
        ++ flat_map (events_of (rf world_A) (y_train world_A)) outs /\
    Forall2
      (fun feature o =>
         df_index (out_frame o) = df_index (X_train world_A) /\
         Forall2
           (fun c c' => fst c' = fst c /\ (fst c <> feature -> snd c' = snd c))
           (df_data (X_train world_A)) (df_data (out_frame o)))
      (columns (X_train world_A)) outs /\
    X_train world_A_evaluated = X_train world_A /\
    y_train world_A_evaluated = y_train world_A.
Proof.
  assert (H : run (evaluate predict_proba_1 roc_auc_score 10) world_A
              = (Ok tt, world_A_evaluated)) by (vm_compute; reflexivity).
  split; [exact H|].
  exact (working_copy_differs_in_one_column predict_proba_1 roc_auc_score 10
           world_A world_A_evaluated H).
Defined.

Lemma shuffled_column_keeps_its_values_witness :
  well_formed (X_train world_A) = true /\
  range_indexed (X_train world_A) = true /\
  is_range_permutation (n_rows (X_train world_A))
    (permutation 10 (n_rows (X_train world_A))) = true /\
  run (evaluate predict_proba_1 roc_auc_score 10) world_A
  = (Ok tt, world_A_evaluated) /\
  exists prediction outs,
    log world_A_evaluated
    = log world_A ++ baseline_events world_A prediction
        ++ flat_map (events_of (rf world_A) (y_train world_A)) outs /\
    Forall2
      (fun feature o =>
         exists col col',
           lookup_column feature (df_data (X_train world_A)) = Some col /\
           lookup_column feature (df_data (out_frame o)) = Some col' /\
           Permutation col' col)
      (columns (X_train world_A)) outs.
Proof.
  assert (Hwf : well_formed (X_train world_A) = true) by reflexivity.
  assert (Hrange : range_indexed (X_train world_A) = true) by reflexivity.
  assert (Hperm : is_range_permutation (n_rows (X_train world_A))
                    (permutation 10 (n_rows (X_train world_A))) = true)
    by (vm_compute; reflexivity).
  assert (H : run (evaluate predict_proba_1 roc_auc_score 10) world_A
              = (Ok tt, world_A_evaluated)) by (vm_compute; reflexivity).
  repeat (split; [assumption|]).
  exact (shuffled_column_keeps_its_values predict_proba_1 roc_auc_score 10
           world_A world_A_evaluated Hwf Hrange Hperm H).
Defined.

Lemma constant_feature_drift_is_zero_when_the_model_repeats_its_answer_witness :
  well_formed (X_train world_A) = true /\
  range_indexed (X_train world_A) = true /\
  is_range_permutation (n_rows (X_train world_A))
    (permutation 10 (n_rows (X_train world_A))) = true /\
  lookup_column "y" (df_data (X_train world_A)) = Some [9; 9; 9; 9; 9]%Z /\
  run (evaluate predict_proba_1 roc_auc_score 10) world_A
  = (Ok tt, world_A_evaluated) /\
  exists prediction train outs o,
    evaluation predict_proba_1 roc_auc_score 10 world_A prediction train outs /\
    feature_importance world_A_evaluated
    = Some (combine (map NameLabel (columns (X_train world_A)))
              (drifts train outs)) /\
    In ("y", o) (combine (columns (X_train world_A)) outs) /\
    out_frame o = X_train world_A /\
    (forall d,
        In (NameLabel "y", d)
          (combine (map NameLabel (columns (X_train world_A)))
             (drifts train outs))
        <-> d = Float64.sub train (out_score o)) /\
    (out_prediction o = prediction ->
     out_score o = train /\
     (Float64.is_finite train = true ->
      Float64.sub train (out_score o) = Float64.zero) /\
     (Float64.is_finite train = false ->
      Float64.sub train (out_score o) = S754_nan)).
Proof.
  assert (Hwf : well_formed (X_train world_A) = true) by reflexivity.
  assert (Hrange : range_indexed (X_train world_A) = true) by reflexivity.
  assert (Hperm : is_range_permutation (n_rows (X_train world_A))
                    (permutation 10 (n_rows (X_train world_A))) = true)
    by (vm_compute; reflexivity).
  assert (Hcol : lookup_column "y" (df_data (X_train world_A))
                 = Some [9; 9; 9; 9; 9]%Z) by reflexivity.
  assert (Hconst : forall a : Z, In a [9; 9; 9; 9; 9]%Z -> a = 9%Z)
    by (simpl; intuition).
  assert (H : run (evaluate predict_proba_1 roc_auc_score 10) world_A
              = (Ok tt, world_A_evaluated)) by (vm_compute; reflexivity).
  repeat (split; [assumption|]).
  exact (constant_feature_drift_is_zero_when_the_model_repeats_its_answer
           predict_proba_1 roc_auc_score 10
           world_A world_A_evaluated "y" [9; 9; 9; 9; 9]%Z 9%Z
           Hwf Hrange Hperm Hcol Hconst H).
Defined.


Lemma report_follows_the_columns_witness :
  well_formed (X_train world_A) = true /\
  run (evaluate predict_proba_1 roc_auc_score 10) world_A
  = (Ok tt, world_A_evaluated) /\
  exists report,
    feature_importance world_A_evaluated = Some report /\
    index report = map NameLabel (columns (X_train world_A)) /\
    length report = length (columns (X_train world_A)) /\
    NoDup (index report) /\
    performance_shift world_A_evaluated = Some (map snd report) /\
    exists prediction train outs,
      evaluation predict_proba_1 roc_auc_score 10 world_A
        prediction train outs /\
      report = combine (map NameLabel (columns (X_train world_A)))
                 (map (fun o => Float64.sub train (out_score o)) outs).
Proof.
  assert (Hwf : well_formed (X_train world_A) = true) by reflexivity.
  assert (H : run (evaluate predict_proba_1 roc_auc_score 10) world_A
              = (Ok tt, world_A_evaluated)) by (vm_compute; reflexivity).
  repeat (split; [assumption|]).
  exact (report_follows_the_columns predict_proba_1 roc_auc_score 10
           world_A world_A_evaluated Hwf H).
Defined.

Lemma every_column_shuffled_by_the_same_positions_witness :
  well_formed (X_train world_A) = true /\
  range_indexed (X_train world_A) = true /\
  is_range_permutation (n_rows (X_train world_A))
    (permutation 10 (n_rows (X_train world_A))) = true /\
  run (evaluate predict_proba_1 roc_auc_score 10) world_A
  = (Ok tt, world_A_evaluated) /\
  exists prediction outs,
    log world_A_evaluated
    = log world_A ++ baseline_events world_A prediction
        ++ flat_map (events_of (rf world_A) (y_train world_A)) outs /\
    Forall2
      (fun feature o =>
         exists col,
           lookup_column feature (df_data (X_train world_A)) = Some col /\
           lookup_column feature (df_data (out_frame o))
           = Some (permute (permutation 10 (n_rows (X_train world_A))) col))
      (columns (X_train world_A)) outs /\
    forall f g o o',
      In (f, o) (combine (columns (X_train world_A)) outs) ->
      In (g, o') (combine (columns (X_train world_A)) outs) ->
      lookup_column f (df_data (X_train world_A))
      = lookup_column g (df_data (X_train world_A)) ->
      lookup_column f (df_data (out_frame o))
      = lookup_column g (df_data (out_frame o')).
Proof.
  assert (Hwf : well_formed (X_train world_A) = true) by reflexivity.
  assert (Hrange : range_indexed (X_train world_A) = true) by reflexivity.
  assert (Hperm : is_range_permutation (n_rows (X_train world_A))
                    (permutation 10 (n_rows (X_train world_A))) = true)
    by (vm_compute; reflexivity).
  assert (H : run (evaluate predict_proba_1 roc_auc_score 10) world_A
              = (Ok tt, world_A_evaluated)) by (vm_compute; reflexivity).
  repeat (split; [assumption|]).
  exact (every_column_shuffled_by_the_same_positions
           predict_proba_1 roc_auc_score 10
           world_A world_A_evaluated Hwf Hrange Hperm H).
Defined.

Lemma evaluate_repeats_under_the_same_draw_and_answers_witness :
  same_inputs world_XC world_XC /\
  well_formed (X_train world_XC) = true /\
  permutation 10 (n_rows (X_train world_XC))
  = permutation 11 (n_rows (X_train world_XC)) /\
  let r1 := run (evaluate predict rmse 10) world_XC in
  let r2 := run (evaluate predict rmse 11) world_XC in
  let r3 := run (evaluate predict rmse 10) (snd r1) in
  (fst r1 = Ok tt -> fst r2 = Ok tt ->
   exists p1 p2 outs1 outs2 report1 report2,
     log (snd r1) = log world_XC ++ baseline_events world_XC p1
                      ++ flat_map (events_of (rf world_XC) (y_train world_XC))
                           outs1 /\
     log (snd r2) = log world_XC ++ baseline_events world_XC p2
                      ++ flat_map (events_of (rf world_XC) (y_train world_XC))
                           outs2 /\
     map out_frame outs1 = map out_frame outs2 /\
     length outs1 = length (columns (X_train world_XC)) /\
     feature_importance (snd r1) = Some report1 /\
     feature_importance (snd r2) = Some report2 /\
     index report1 = index report2) /\
  ((forall i X, i <= length (columns (X_train world_XC)) ->
                predict (threads world_XC i) (rf world_XC) X
                = predict (threads world_XC i) (rf world_XC) X) ->
   fst r1 = fst r2 /\
   (exists evs,
       log (snd r1) = log world_XC ++ evs /\
       log (snd r2) = log world_XC ++ evs) /\
   (fst r1 = Ok tt ->
    feature_importance (snd r1) <> None /\
    feature_importance (snd r1) = feature_importance (snd r2) /\
    performance_shift (snd r1) = performance_shift (snd r2))) /\
  ((forall s s' X, predict s (rf world_XC) X = predict s' (rf world_XC) X) ->
   fst r1 = Ok tt ->
   fst r3 = Ok tt /\
   feature_importance (snd r3) = feature_importance (snd r1)).
Proof.
  assert (Hin : same_inputs world_XC world_XC) by (repeat split).
  assert (Hwf : well_formed (X_train world_XC) = true) by reflexivity.
  assert (Hdraw : permutation 10 (n_rows (X_train world_XC))
                  = permutation 11 (n_rows (X_train world_XC)))
    by (vm_compute; reflexivity).
  repeat (split; [assumption|]).
  exact (evaluate_repeats_under_the_same_draw_and_answers predict rmse 10 11
           world_XC world_XC Hin Hwf Hdraw).
Defined.

(** * More of the notebooks *)

(** ** Alignment by label *)

Lemma nodupb_seq (n a : nat) : nodupb (seq a n) = true.
Proof.
  revert a; induction n as [|n IH]; intros a; [reflexivity|].
  simpl. rewrite IH, andb_true_r, negb_true_iff.
  destruct (existsb (Nat.eqb a) (seq (S a) n)) eqn:E; [|reflexivity].
  apply existsb_exists in E as (j & Hj & Ej).
  apply Nat.eqb_eq in Ej; subst j. apply in_seq in Hj. lia.
Qed.

Lemma map_nth_seq {A : Type} (l : list A) (d : A) :
  map (fun i => nth i l d) (seq 0 (length l)) = l.
Proof.
  induction l as [|a l IH]; [reflexivity|].
  simpl length. rewrite <- cons_seq, <- seq_shift. simpl.
  rewrite map_map. simpl. rewrite IH. reflexivity.
Qed.

Lemma find_combine_seq {A : Type} (sh : list A) (d : A) (l : nat) :
  forall a,
    find (fun row : nat * A => Nat.eqb (fst row) l) (combine (seq a (length sh)) sh)
    = if Nat.leb a l && Nat.ltb l (a + length sh)
      then Some (l, nth (l - a) sh d) else None.
Proof.
  induction sh as [|x sh IH]; intros a; simpl.
  - destruct (Nat.leb_spec a l); simpl; [|reflexivity].
    destruct (Nat.ltb_spec l (a + 0)); [lia | reflexivity].
  - destruct (Nat.eqb_spec a l) as [->|Hne].
    + rewrite Nat.leb_refl, Nat.sub_diag. simpl.
      destruct (Nat.ltb_spec l (l + S (length sh))); [reflexivity | lia].
    + rewrite IH.
      destruct (Nat.leb_spec a l), (Nat.leb_spec (S a) l); simpl;
        try lia; try reflexivity.
      replace (a + S (length sh)) with (S (a + length sh)) by lia.
      destruct (l - a) as [|m] eqn:Em; [lia|].
      replace (l - S a) with m by lia. reflexivity.
Qed.

Lemma nth_error_permute {A : Type} (p : list nat) (l : list A) :
  (forall j, In j p -> j < length l) ->
  forall i,
    nth_error (permute p l) i
    = match nth_error p i with
      | Some j => nth_error l j
      | None => None
      end.
Proof.
  induction p as [|j p IH]; intros Hp i.
  - destruct i; reflexivity.
  - destruct (nth_error l j) as [a|] eqn:Ej.
    + rewrite (permute_cons _ _ _ _ Ej).
      destruct i as [|i]; simpl; [symmetry; assumption|].
      apply IH. intros k Hk. apply Hp. right; assumption.
    + apply nth_error_None in Ej. specialize (Hp j (or_introl eq_refl)). lia.
Qed.

Section AlignmentFacts.

Context {V : Type}.
Variable nan : V.
Variable permutation : Z -> nat -> list nat.

Lemma reindex_range (sh : list V) (labels : list nat) :
  reindex nan (combine (seq 0 (length sh)) sh) labels
  = map (fun l => nth l sh nan) labels.
Proof.
  unfold reindex. apply map_ext. intros l.
  rewrite (find_combine_seq sh nan l 0). simpl.
  rewrite Nat.sub_0_r.
  destruct (Nat.ltb_spec l (length sh)); [reflexivity|].
  rewrite nth_overflow by assumption. reflexivity.
Qed.

(** The working copy of a well-formed frame under any index: the row
    labelled [l] receives the shuffled value at position [l], or NaN when
    there is none. *)
Lemma working_copy_any_index (seed : Z) (X : DataFrame V) (name : string)
  (col : list V) :
  well_formed X = true ->
  is_range_permutation (n_rows X) (permutation seed (n_rows X)) = true ->
  lookup_column name (df_data X) = Some col ->
  working_copy nan permutation seed X name =
  Ok (mkDataFrame (df_index X)
        (replace_column name
           (map (fun l => nth l (permute (permutation seed (n_rows X)) col) nan)
              (df_index X))
           (df_data X))).
Proof.
  intros Hwf Hperm Ecol.
  pose proof (well_formed_column _ _ _ Hwf Ecol) as Hlen.
  destruct (range_permutation_bound _ _ Hperm) as [Hplen Hpbound].
  unfold working_copy, getitem. rewrite copy_eq, Ecol. simpl.
  assert (Hs : length (combine (df_index X) col) = n_rows X).
  { rewrite length_combine, Hlen. unfold n_rows. lia. }
  unfold sample. rewrite Hs.
  rewrite take_permute by (rewrite Hs; assumption). simpl.
  unfold reset_index, setitem.
  rewrite permute_length by (rewrite Hs; assumption).
  rewrite Hplen, permute_map.
  rewrite map_snd_combine by (unfold n_rows in Hlen; lia).
  set (sh := permute (permutation seed (n_rows X)) col).
  assert (Hsh : length sh = n_rows X).
  { unfold sh. rewrite permute_length by (rewrite Hlen; assumption).
    assumption. }
  assert (Hl : length (seq 0 (n_rows X)) = length sh)
    by (rewrite length_seq; symmetry; assumption).
  rewrite (map_fst_combine _ _ Hl), (map_snd_combine _ _ Hl).
  destruct (list_nat_eqb (seq 0 (n_rows X)) (df_index X)) eqn:Eidx.
  - apply list_nat_eqb_eq in Eidx.
    assert (Hmap : map (fun l => nth l sh nan) (df_index X) = sh).
    { rewrite <- Eidx, <- Hsh. apply map_nth_seq. }
    rewrite Hmap. reflexivity.
  - rewrite nodupb_seq.
    assert (Hre : reindex nan (combine (seq 0 (n_rows X)) sh) (df_index X)
                  = map (fun l => nth l sh nan) (df_index X)).
    { rewrite <- Hsh. apply reindex_range. }
    rewrite Hre. reflexivity.
Qed.

(** X2: the shuffle of a column aligns by row label.  In the working copy
    of a well-formed frame, whatever its row index, the column has one
    value per row; the row labelled [l] holds the value the feature had at
    position [p(l)], [p] being NumPy's permutation of [0 .. N-1]; a row
    whose label is [N] or more holds NaN. *)
Theorem working_copy_aligns_by_label (seed : Z) (X : DataFrame V)
  (name : string) (col : list V) :
  well_formed X = true ->
  is_range_permutation (n_rows X) (permutation seed (n_rows X)) = true ->
  lookup_column name (df_data X) = Some col ->
  exists Xc col',
    working_copy nan permutation seed X name = Ok Xc /\
    lookup_column name (df_data Xc) = Some col' /\
    length col' = n_rows X /\
    (forall i l,
        nth_error (df_index X) i = Some l ->
        n_rows X <= l ->
        nth_error col' i = Some nan) /\
    (forall i l j,
        nth_error (df_index X) i = Some l ->
        nth_error (permutation seed (n_rows X)) l = Some j ->
        nth_error col' i = nth_error col j).
Proof.
  intros Hwf Hperm Ecol.
  pose proof (well_formed_column _ _ _ Hwf Ecol) as Hlen.
  destruct (range_permutation_bound _ _ Hperm) as [Hplen Hpbound].
  set (sh := permute (permutation seed (n_rows X)) col).
  assert (Hsh : length sh = n_rows X).
  { unfold sh. rewrite permute_length by (rewrite Hlen; assumption).
    assumption. }
  eexists. exists (map (fun l => nth l sh nan) (df_index X)).
  split; [apply working_copy_any_index; eassumption|].
  split; [apply lookup_replace_same|].
  split; [rewrite length_map; reflexivity|].
  split.
  - intros i l Hi Hl. rewrite nth_error_map, Hi. simpl.
    rewrite nth_overflow by (rewrite Hsh; assumption). reflexivity.
  - intros i l j Hi Hj. rewrite nth_error_map, Hi. simpl.
    assert (Hlt : l < length sh).
    { rewrite Hsh, <- Hplen. apply nth_error_Some. rewrite Hj. discriminate. }
    rewrite <- (nth_error_nth' sh nan Hlt).
    unfold sh. rewrite nth_error_permute by (rewrite Hlen; assumption).
    rewrite Hj. reflexivity.
Qed.

End AlignmentFacts.

(** ** The loop, its index and its failures *)

Section LoopFacts.

Context {C : Collaborators}.
Variable predictor : schedule -> model -> Frame -> result (list float).
Variable scorer : list target -> list float -> result float.
Variable random_state : Z.

Lemma n_rows_reset_index_frame (X : Frame) :
  n_rows (reset_index_frame X) = n_rows X.
Proof. unfold n_rows, reset_index_frame; simpl. apply length_seq. Qed.

(** X1: cell 7, then the evaluation.  Whatever index the feature matrix
    had, once cell 7 has reset it an evaluation that returns has handed the
    model, for each feature, a frame whose column for that feature is a
    rearrangement of the feature's own values. *)
Theorem reset_index_then_evaluate_permutes (w w' : world) :
  well_formed (X_train w) = true ->
  is_range_permutation (n_rows (X_train w))
    (permutation random_state (n_rows (X_train w))) = true ->
  run (bind cell_7 (fun _ => evaluate predictor scorer random_state)) w
  = (Ok tt, w') ->
  X_train w' = reset_index_frame (X_train w) /\
  exists prediction outs,
    log w' = log w
               ++ [EvPredict (rf w) (reset_index_frame (X_train w));
                   EvScore (y_train w) prediction]
               ++ flat_map (events_of (rf w) (y_train w)) outs /\
    Forall2
      (fun feature o =>
         exists col col',
           lookup_column feature (df_data (X_train w)) = Some col /\
           lookup_column feature (df_data (out_frame o)) = Some col' /\
           Permutation col' col)
      (columns (X_train w)) outs.
Proof.
  intros Hwf Hperm E. rewrite run_bind in E.
  destruct (cell_7_run w) as (E7 & Hrange & Hdata). rewrite E7 in E.
  set (X1 := reset_index_frame (X_train w)) in *.
  apply evaluate_Ok in E as (prediction & train & outs & Hev & ->).
  destruct Hev as (_ & _ & F & _). simpl in F.
  split; [reflexivity|].
  exists prediction, outs. split; [reflexivity|].
  assert (Hwf1 : well_formed X1 = true)
    by (apply reset_index_frame_well_formed; assumption).
  assert (Hperm1 : is_range_permutation (n_rows X1)
                     (permutation random_state (n_rows X1)) = true)
    by (unfold X1; rewrite n_rows_reset_index_frame; assumption).
  pose proof (outcomes_shuffled predictor scorer random_state _ _ _ _
                Hwf1 Hrange Hperm1 F) as F'.
  change (columns X1) with (columns (X_train w)) in F'.
  eapply Forall2_impl; [|exact F'].
  intros feature o (col & Ecol & ->).
  change (df_data X1) with (df_data (X_train w)) in Ecol.
  exists col, (permute (permutation random_state (n_rows X1)) col).
  split; [assumption|]. split; [apply lookup_replace_same|].
  apply permute_Permutation.
  rewrite (well_formed_column _ _ _ Hwf Ecol).
  unfold X1. rewrite n_rows_reset_index_frame.
  apply is_range_permutation_sound. assumption.
Qed.

Lemma for_each_app {A : Type} (l1 l2 : list A) (body : A -> M unit) (w : world) :
  run (for_each (l1 ++ l2) body) w =
  match run (for_each l1 body) w with
  | (Ok _, w1) => run (for_each l2 body) w1
  | (Raise e, w1) => (Raise e, w1)
  end.
Proof.
  revert w; induction l1 as [|a l1 IH]; intros w; [reflexivity|].
  simpl app. simpl for_each. rewrite !run_bind.
  destruct (run (body a) w) as [[[]|e] w1]; [apply IH | reflexivity].
Qed.

(** X3: a failure in the middle of the loop.  When the baseline and the
    turns of the columns before [feature] went through and the model
    raises on the working copy of [feature], the evaluation raises that
    exception; [performance_shift] then holds the drifts of the columns
    before, [X_train_c] the frame the model refused, [feature_importance]
    what it held, and no later column was touched. *)
Theorem failure_in_the_loop_keeps_the_earlier_drifts
  (w : world) (before after : list string) (feature : string)
  (prediction : list float) (train : float) (outs : list outcome)
  (Xc : Frame) (e : exn) :
  columns (X_train w) = before ++ feature :: after ->
  predictor (threads w 0) (rf w) (X_train w) = Ok prediction ->
  scorer (y_train w) prediction = Ok train ->
  Forall2
    (shuffled_outcome predictor scorer random_state
       (rf w) (X_train w) (y_train w)) before outs ->
  map out_schedule outs = map (threads w) (seq 1 (length outs)) ->
  working_copy nan permutation random_state (X_train w) feature = Ok Xc ->
  predictor (threads w (S (length before))) (rf w) Xc = Raise e ->
  run (evaluate predictor scorer random_state) w
  = (Raise e,
     mkWorld (rf w) (X_train w) (y_train w) (Some Xc)
       (Some (drifts train outs)) (feature_importance w)
       (log w ++ baseline_events w prediction
          ++ flat_map (events_of (rf w) (y_train w)) outs
          ++ [EvPredict (rf w) Xc])
       (fun k => threads w (S (length outs + S k)))).
Proof.
  intros Ecols Ep Es F Hs Ew Ee.
  assert (Hlen : length before = length outs)
    by (eapply Forall2_length; exact F).
  unfold evaluate. rewrite run_bind, shuffle_cell_run, Ep. simpl.
  rewrite Es, Ecols, for_each_app.
  match goal with
  | |- context [run (for_each before ?body) ?w1] =>
      rewrite (proj2 (for_each_shuffle_Ok predictor scorer random_state
                        train before w1 _ [] eq_refl)
                 (ex_intro _ outs
                    (conj F (conj (eq_trans Hs (eq_sym (map_later _ _ _)))
                               eq_refl))))
  end.
  simpl for_each. rewrite run_bind, shuffle_feature_run. simpl.
  rewrite Ew. simpl. rewrite Nat.add_0_r, <- Hlen, Ee.
  unfold add_event, next_call, set_X_train_c, baseline_events; simpl.
  rewrite <- !app_assoc, Hlen. reflexivity.
Qed.

Lemma for_each_raises_a_collaborators_exception (train : float)
  (cols : list string) :
  forall (w w' : world) (l : list float) (e : exn),
    well_formed (X_train w) = true ->
    is_range_permutation (n_rows (X_train w))
      (permutation random_state (n_rows (X_train w))) = true ->
    (forall f, In f cols -> In f (columns (X_train w))) ->
    performance_shift w = Some l ->
    run (for_each cols (shuffle_feature predictor scorer random_state train)) w
    = (Raise e, w') ->
    (exists i X, i < length cols /\
                 predictor (threads w i) (rf w) X = Raise e) \/
    (exists p, scorer (y_train w) p = Raise e).
Proof.
  induction cols as [|f cols IH]; intros w w' l e Hwf Hperm Hin El.
  - simpl. unfold run, ret. discriminate.
  - simpl for_each. rewrite run_bind, shuffle_feature_run.
    destruct (lookup_column_In f (df_data (X_train w))
                (Hin f (or_introl eq_refl))) as (col & Ecol).
    rewrite (working_copy_any_index nan permutation _ _ _ _ Hwf Hperm Ecol).
    simpl.
    match goal with
    | |- context [predictor (threads w 0) (rf w) ?Xc] =>
        destruct (predictor (threads w 0) (rf w) Xc) as [p|e1] eqn:Ep
    end.
    2:{ intros E; inversion E; subst. left. exists 0. eexists.
        split; [lia | eassumption]. }
    destruct (scorer (y_train w) p) as [sc|e1] eqn:Es.
    2:{ intros E; inversion E; subst. right. eauto. }
    rewrite El. intros E.
    match type of E with
    | run _ ?w1 = _ =>
        apply (IH w1 w' _ e Hwf Hperm
                 (fun g Hg => Hin g (or_intror Hg)) eq_refl) in E
    end.
    destruct E as [(i & X & Hi & E)|E]; [|right; exact E].
    left. exists (S i), X. split; [lia | exact E].
Qed.

(** Every exception of an evaluation is one the prediction method raised
    in one of its [1 + k] calls or one the metric raised. *)
Lemma evaluate_raises_what_was_raised (w w' : world) (e : exn) :
  well_formed (X_train w) = true ->
  is_range_permutation (n_rows (X_train w))
    (permutation random_state (n_rows (X_train w))) = true ->
  run (evaluate predictor scorer random_state) w = (Raise e, w') ->
  (exists i X, i <= length (columns (X_train w)) /\
               predictor (threads w i) (rf w) X = Raise e) \/
  (exists p, scorer (y_train w) p = Raise e).
Proof.
  intros Hwf Hperm. unfold evaluate. rewrite run_bind.
  destruct (run (shuffle_cell _ _ _) w) as [[[]|e1] w1] eqn:E1.
  - apply shuffle_cell_Ok in E1 as (prediction & train & outs & Hev & ->).
    rewrite (cell_13_run (after_shuffle_cell w prediction train outs)
               (drifts train outs) eq_refl).
    + discriminate.
    + destruct Hev as (_ & _ & F & _). unfold drifts. rewrite length_map.
      symmetry. eapply Forall2_length; exact F.
  - intros E; inversion E; subst e1 w1; clear E.
    rewrite shuffle_cell_run in E1. simpl in E1.
    destruct (predictor (threads w 0) (rf w) (X_train w)) as [p|e1] eqn:Ep.
    2:{ inversion E1; subst. left. exists 0. eexists.
        split; [lia | eassumption]. }
    destruct (scorer (y_train w) p) as [train|e1] eqn:Es.
    2:{ inversion E1; subst. right. eauto. }
    match type of E1 with
    | run _ ?w1 = _ =>
        apply (for_each_raises_a_collaborators_exception train _ w1 w' [] e
                 Hwf Hperm (fun f Hf => Hf) eq_refl) in E1
    end.
    destruct E1 as [(i & X & Hi & E1)|E1]; [|right; exact E1].
    simpl in Hi, E1. left. exists (S i), X. split; [lia | exact E1].
Qed.

End LoopFacts.

Lemma column_1_Raise (a : list (list float)) (e : exn) :
  column_1 a = Raise e ->
  e = IndexError /\ exists row, In row a /\ length row < 2.
Proof.
  induction a as [|row a IH]; cbn [column_1]; [discriminate|].
  destruct (nth_error row 1) as [p|] eqn:Ep.
  - destruct (column_1 a) as [ps|e1]; [discriminate|].
    intros E; inversion E; subst.
    destruct (IH eq_refl) as (-> & row' & Hin & Hlen).
    split; [reflexivity|]. exists row'.
    split; [right; assumption | assumption].
  - intros E; inversion E; subst.
    split; [reflexivity|]. exists row. split; [left; reflexivity|].
    apply nth_error_None in Ep. lia.
Qed.

Section RaisedByTheCollaborators.

Context {C : Collaborators}.

(** X4: what the two evaluations of the notebook can raise.  On a
    well-formed feature matrix, NumPy's permutation being one, every
    exception of the regression evaluation is one [rf.predict] raised in
    one of the [1 + k] calls or one [mean_squared_error] raised.  Every
    exception of the classification evaluation is one [rf.predict_proba]
    raised in one of the [1 + k] calls, or one [roc_auc_score] raised, or
    the [IndexError] of the notebook's own [[:, 1]] on probabilities that
    have a row of fewer than two entries.  No key, name or length is ever
    missing in the loops or in the building of the report. *)
Theorem evaluate_raises_only_what_a_collaborator_raises
  (w w' : world) (e : exn) :
  well_formed (X_train w) = true ->
  (is_range_permutation (n_rows (X_train w))
     (permutation 11 (n_rows (X_train w))) = true ->
   run evaluate_regression w = (Raise e, w') ->
   (exists i X, i <= length (columns (X_train w)) /\
                predict (threads w i) (rf w) X = Raise e) \/
   (exists p, mean_squared_error (y_train w) p false = Raise e)) /\
  (is_range_permutation (n_rows (X_train w))
     (permutation 10 (n_rows (X_train w))) = true ->
   run evaluate_classification w = (Raise e, w') ->
   (exists i X, i <= length (columns (X_train w)) /\
                predict_proba (threads w i) (rf w) X = Raise e) \/
   (exists i X probabilities row,
       i <= length (columns (X_train w)) /\
       predict_proba (threads w i) (rf w) X = Ok probabilities /\
       In row probabilities /\ length row < 2 /\ e = IndexError) \/
   (exists p, roc_auc_score (y_train w) p = Raise e)).
Proof.
  intros Hwf. split; intros Hperm E.
  - exact (evaluate_raises_what_was_raised predict rmse 11 w w' e Hwf Hperm E).
  - destruct (evaluate_raises_what_was_raised predict_proba_1 roc_auc_score 10
                w w' e Hwf Hperm E) as [(i & X & Hi & Ee)|Ee].
    + unfold predict_proba_1 in Ee.
      destruct (predict_proba (threads w i) (rf w) X) as [a|e1] eqn:Ea;
        simpl in Ee.
      * right; left.
        destruct (column_1_Raise _ _ Ee) as (-> & row & Hin & Hlen).
        exists i, X, a, row. auto.
      * inversion Ee; subst e1. left. exists i, X. auto.
    + right; right. exact Ee.
Qed.

End RaisedByTheCollaborators.

(** ** The two selections *)

Lemma gtb_ltb_zero_exclusive (d : float) :
  Float64.gtb d Float64.zero = true -> Float64.ltb d Float64.zero = false.
Proof.
  unfold Float64.gtb, Float64.ltb, Float64.zero, SFltb.
  destruct d as [s|[]| |[] m e]; simpl; try discriminate; reflexivity.
Qed.

Lemma ltb_zero_is_gtb_of_opp (d : float) :
  Float64.ltb d Float64.zero = Float64.gtb (Float64.opp d) Float64.zero.
Proof.
  unfold Float64.gtb, Float64.ltb, Float64.zero, Float64.opp, SFltb.
  destruct d as [s|[]| |[] m e]; reflexivity.
Qed.

Lemma gtb_zero_is_ltb_of_opp (d : float) :
  Float64.gtb d Float64.zero = Float64.ltb (Float64.opp d) Float64.zero.
Proof.
  unfold Float64.gtb, Float64.ltb, Float64.zero, Float64.opp, SFltb.
  destruct d as [s|[]| |[] m e]; reflexivity.
Qed.

Lemma select_above_In (s : list (label * float)) (t : float) (name : label) :
  In name (select_above s t) <->
  exists d, In (name, d) s /\ Float64.gtb d t = true.
Proof.
  exact (proj2 (select_filter (fun row => Float64.gtb (snd row) t) s) name).
Qed.

Lemma select_below_In (s : list (label * float)) (t : float) (name : label) :
  In name (select_below s t) <->
  exists d, In (name, d) s /\ Float64.ltb d t = true.
Proof.
  exact (proj2 (select_filter (fun row => Float64.ltb (snd row) t) s) name).
Qed.

Lemma NoDup_index_unique (s : list (label * float)) (name : label)
  (d d' : float) :
  NoDup (index s) -> In (name, d) s -> In (name, d') s -> d = d'.
Proof.
  unfold index. induction s as [|[n x] s IH]; simpl; [intros _ []|].
  intros Hnd. inversion Hnd as [|? ? Hn Hnd']; subst.
  intros [E|Hin] [E'|Hin'].
  - congruence.
  - inversion E; subst. exfalso. apply Hn.
    change name with (fst (name, d')). apply in_map. assumption.
  - inversion E'; subst. exfalso. apply Hn.
    change name with (fst (name, d)). apply in_map. assumption.
  - auto.
Qed.

Lemma length_exclusive_filters {A : Type} (f g : A -> bool) (l : list A) :
  (forall a, f a = true -> g a = false) ->
  length (filter f l) + length (filter g l) <= length l.
Proof.
  intros Hfg. induction l as [|a l IH]; simpl; [lia|].
  destruct (f a) eqn:Ef.
  - rewrite (Hfg a Ef). simpl. lia.
  - destruct (g a); simpl; lia.
Qed.

(** X5: the classification rule (drift above 0, cell 21) and the
    regression rule (drift below 0, cell 37) never pick the same feature of
    one report; together they pick at most as many names as the report has;
    and a feature whose drift is a zero or NaN is picked by neither. *)
Theorem selections_above_and_below_zero_are_disjoint
  (s : list (label * float)) :
  NoDup (index s) ->
  (forall name, In name (selected_features s) -> ~ In name (feat s)) /\
  length (selected_features s) + length (feat s) <= length s /\
  (forall name d,
      In (name, d) s ->
      (d = S754_nan \/ exists sign, d = S754_zero sign) ->
      ~ In name (selected_features s) /\ ~ In name (feat s)).
Proof.
  intros Hnd. unfold selected_features, feat. split; [|split].
  - intros name Ha Hb.
    apply select_above_In in Ha as (d & Hd & Hgt).
    apply select_below_In in Hb as (d' & Hd' & Hlt).
    rewrite (NoDup_index_unique _ _ _ _ Hnd Hd' Hd) in Hlt.
    rewrite (gtb_ltb_zero_exclusive _ Hgt) in Hlt. discriminate.
  - unfold select_above, select_below, series_gt, series_lt, index.
    rewrite !getitem_mask_filter, !length_map.
    apply length_exclusive_filters.
    intros row. apply gtb_ltb_zero_exclusive.
  - intros name d Hd Hzero. split; intros Hin.
    + apply select_above_In in Hin as (d' & Hd' & Hgt).
      rewrite (NoDup_index_unique _ _ _ _ Hnd Hd' Hd) in Hgt.
      destruct Hzero as [->|[sign ->]]; discriminate.
    + apply select_below_In in Hin as (d' & Hd' & Hlt).
      rewrite (NoDup_index_unique _ _ _ _ Hnd Hd' Hd) in Hlt.
      destruct Hzero as [->|[sign ->]]; discriminate.
Qed.

Lemma select_negated (f g : float -> bool) (s : list (label * float)) :
  (forall d, f d = g (Float64.opp d)) ->
  index (getitem_mask s (map (fun row => f (snd row)) s))
  = index (getitem_mask (negated s)
             (map (fun row => g (snd row)) (negated s))).
Proof.
  intros Hfg. rewrite !getitem_mask_filter. unfold index, negated.
  induction s as [|[n d] s IH]; simpl; [reflexivity|].
  rewrite <- Hfg. destruct (f d); simpl; rewrite IH; reflexivity.
Qed.

(** X7: the notebook's two sign conventions agree.  Selecting the drifts
    below 0, as the regression cell does, is selecting the drifts above 0,
    as the classification cell does, once every drift has its sign turned,
    and the other way round. *)
Theorem selecting_below_zero_is_selecting_above_zero_negated
  (s : list (label * float)) :
  feat s = selected_features (negated s) /\
  selected_features s = feat (negated s).
Proof.
  split.
  - exact (select_negated (fun d => Float64.ltb d Float64.zero)
             (fun d => Float64.gtb d Float64.zero) s ltb_zero_is_gtb_of_opp).
  - exact (select_negated (fun d => Float64.gtb d Float64.zero)
             (fun d => Float64.ltb d Float64.zero) s gtb_zero_is_ltb_of_opp).
Qed.

(** ** Slicing a frame by the selected names *)

Lemma subsequence_In {A : Type} (l l' : list A) (a : A) :
  subsequence l l' -> In a l -> In a l'.
Proof.
  induction 1 as [|b l l' H IH|b l l' H IH]; simpl; [tauto| |]; intuition.
Qed.

Lemma subsequence_NoDup {A : Type} (l l' : list A) :
  subsequence l l' -> NoDup l' -> NoDup l.
Proof.
  induction 1 as [|b l l' H IH|b l l' H IH]; intros Hnd.
  - constructor.
  - inversion Hnd; subst. constructor; [|auto].
    intros Hin. eapply subsequence_In in Hin; eauto.
  - inversion Hnd; subst. auto.
Qed.

Lemma NoDup_unique_names (names : list string) :
  NoDup names -> unique_names names = true.
Proof.
  induction 1 as [|n names Hn Hnd IH]; simpl; [reflexivity|].
  rewrite IH, andb_true_r, negb_true_iff.
  destruct (existsb (String.eqb n) names) eqn:E; [|reflexivity].
  apply existsb_exists in E as (m & Hm & Em).
  apply String.eqb_eq in Em; subst. contradiction.
Qed.

Section SlicingFacts.

Context {V : Type}.

Lemma select_columns_names (data : list (string * list V)) (names : list string) :
  (forall n, In n names -> In n (map fst data)) ->
  exists cols,
    select_columns data (map NameLabel names) = Ok cols /\
    map fst cols = names /\
    (forall n, In n names -> lookup_column n cols = lookup_column n data) /\
    (forall c, In c cols -> In c data).
Proof.
  induction names as [|n names IH]; intros Hin; simpl.
  - exists []. repeat split; try reflexivity; intros ? [].
  - destruct (lookup_column_In n data (Hin n (or_introl eq_refl)))
      as (col & Ecol).
    rewrite Ecol.
    destruct (IH (fun m Hm => Hin m (or_intror Hm)))
      as (cols & -> & Hnames & Hlook & Hsub).
    exists ((n, col) :: cols). split; [reflexivity|].
    split; [simpl; rewrite Hnames; reflexivity|]. split.
    + intros m Hm. simpl.
      destruct (String.eqb_spec m n) as [->|Hne]; [symmetry; assumption|].
      destruct Hm as [E|Hm]; [congruence | auto].
    + intros c [<-|Hc]; [apply lookup_column_Some; assumption | auto].
Qed.

(** X8: [X[names]] for names that are columns of [X].  The slice keeps the
    row index, has exactly the columns named, in the order named, each with
    the values it has in [X]; so it has as many rows, and names taken once
    each from a well-formed frame give a well-formed frame. *)
Theorem getitem_list_keeps_the_named_columns (X : DataFrame V)
  (names : list string) :
  (forall n, In n names -> In n (columns X)) ->
  exists X',
    getitem_list X (map NameLabel names) = Ok X' /\
    df_index X' = df_index X /\
    columns X' = names /\
    (forall n, In n names ->
               lookup_column n (df_data X') = lookup_column n (df_data X)) /\
    (well_formed X = true -> NoDup names -> well_formed X' = true).
Proof.
  intros Hin. unfold getitem_list.
  destruct (select_columns_names (df_data X) names Hin)
    as (cols & -> & Hnames & Hlook & Hsub).
  exists (mkDataFrame (df_index X) cols).
  split; [reflexivity|]. split; [reflexivity|]. split; [assumption|].
  split; [assumption|].
  unfold well_formed, columns, n_rows; simpl.
  rewrite !andb_true_iff, !forallb_forall. intros [Hlen _] Hnd.
  split.
  - intros c Hc. apply Hlen, Hsub. assumption.
  - rewrite Hnames. apply NoDup_unique_names. assumption.
Qed.

Lemma select_columns_missing (data : list (string * list V))
  (labels : list label) (l : label) :
  In l labels ->
  (forall n, l = NameLabel n -> lookup_column n data = None) ->
  exists key, select_columns data labels = Raise (KeyError key).
Proof.
  intros Hl Hno. induction labels as [|l0 labels IH]; [destruct Hl|].
  simpl. destruct l0 as [i|n]; [eexists; reflexivity|].
  destruct (lookup_column n data) as [col|] eqn:Ecol; [|eexists; reflexivity].
  destruct Hl as [El|Hl];
    [rewrite (Hno n (eq_sym El)) in Ecol; discriminate|].
  destruct (IH Hl) as (key & E). rewrite E. exists key. reflexivity.
Qed.

(** X9: [X[labels]] with a label that is no column.  One label that is a
    position, or a name that [X] has no column for, wherever it stands
    among the labels, makes the slice raise [KeyError], also when the
    other labels are columns: no frame comes back. *)
Theorem getitem_list_raises_on_a_missing_label (X : DataFrame V)
  (labels : list label) (l : label) :
  In l labels ->
  (forall n, l = NameLabel n -> ~ In n (columns X)) ->
  exists key, getitem_list X labels = Raise (KeyError key).
Proof.
  intros Hl Hno. unfold getitem_list.
  destruct (select_columns_missing (df_data X) labels l Hl) as (key & E).
  - intros n En.
    destruct (lookup_column n (df_data X)) as [col|] eqn:Ecol; [|reflexivity].
    exfalso. apply (Hno n En).
    apply lookup_column_Some in Ecol. unfold columns.
    change n with (fst (n, col)). apply in_map. assumption.
  - exists key. rewrite E. reflexivity.
Qed.

End SlicingFacts.

(** ** The evaluation, then the selection *)

Lemma subsequence_nil_l {A : Type} (l : list A) : subsequence [] l.
Proof. induction l; constructor; assumption. Qed.

Lemma kept_names_subsequence (f : float -> bool) (cols : list string)
  (dr : list float) :
  subsequence (map fst (filter (fun r => f (snd r)) (combine cols dr))) cols.
Proof.
  revert dr; induction cols as [|c cols IH]; intros [|d dr]; simpl;
    try apply subsequence_nil_l.
  destruct (f d); simpl; constructor; apply IH.
Qed.

Lemma select_of_named_report (f : float -> bool) (cols : list string)
  (dr : list float) :
  index (getitem_mask (combine (map NameLabel cols) dr)
           (map (fun row => f (snd row)) (combine (map NameLabel cols) dr)))
  = map NameLabel
      (map fst (filter (fun r => f (snd r)) (combine cols dr))).
Proof.
  rewrite getitem_mask_filter. unfold index.
  revert dr; induction cols as [|c cols IH]; intros [|d dr]; simpl;
    try reflexivity.
  destruct (f d); simpl; rewrite IH; reflexivity.
Qed.

Section SelectionAfterEvaluation.

Context {C : Collaborators}.
Variable predictor : schedule -> model -> Frame -> result (list float).
Variable scorer : list target -> list float -> result float.
Variable random_state : Z.

Lemma cell_37_run (w : world) (report : list (label * float)) (X' : Frame) :
  feature_importance w = Some report ->
  getitem_list (X_train w) (feat report) = Ok X' ->
  run cell_37 w = (Ok tt, set_X_train X' w).
Proof.
  intros Efi Eg.
  unfold cell_37, run, bind, read_feature_importance, read_X_train, lift,
    assign_X_train.
  rewrite Efi, Eg. reflexivity.
Qed.

(** X10: the regression notebook from the loop to the slice.  After an
    evaluation that returned on a well-formed feature matrix, cell 37
    returns too: it raises no [KeyError].  It leaves in [X_train] exactly
    the features whose drift is below 0, in column order, each with the
    values and the row index it had, and the frame is well formed. *)
Theorem evaluate_then_cell_37_keeps_the_selected_features (w w1 : world) :
  well_formed (X_train w) = true ->
  run (evaluate predictor scorer random_state) w = (Ok tt, w1) ->
  exists report X',
    feature_importance w1 = Some report /\
    run cell_37 w1 = (Ok tt, set_X_train X' w1) /\
    map NameLabel (columns X') = feat report /\
    subsequence (columns X') (columns (X_train w)) /\
    df_index X' = df_index (X_train w) /\
    (forall n, In n (columns X') ->
               lookup_column n (df_data X')
               = lookup_column n (df_data (X_train w))) /\
    well_formed X' = true.
Proof.
  intros Hwf E.
  apply evaluate_Ok in E as (prediction & train & outs & Hev & ->).
  set (cols := columns (X_train w)).
  set (dr := drifts train outs).
  set (kept := map fst (filter (fun r => Float64.ltb (snd r) Float64.zero)
                          (combine cols dr))).
  assert (Hsub : subsequence kept cols)
    by (apply (kept_names_subsequence
                 (fun d => Float64.ltb d Float64.zero))).
  assert (Hfeat : feat (combine (map NameLabel cols) dr) = map NameLabel kept)
    by (apply (select_of_named_report
                 (fun d => Float64.ltb d Float64.zero))).
  destruct (select_columns_names (df_data (X_train w)) kept)
    as (data & Eg & Hnames & Hlook & Hin).
  { intros n Hn. eapply subsequence_In; eassumption. }
  exists (combine (map NameLabel cols) dr),
    (mkDataFrame (df_index (X_train w)) data).
  split; [reflexivity|]. split.
  - apply cell_37_run with (report := combine (map NameLabel cols) dr);
      [reflexivity|].
    change (X_train (after_evaluate w prediction train outs))
      with (X_train w).
    rewrite Hfeat. unfold getitem_list. rewrite Eg. reflexivity.
  - unfold columns at 1 2 3; simpl. rewrite Hnames.
    split; [rewrite Hfeat; reflexivity|].
    split; [assumption|]. split; [reflexivity|]. split; [assumption|].
    revert Hwf. unfold well_formed, columns, n_rows; simpl.
    rewrite !andb_true_iff, !forallb_forall. intros [Hlen Hnd].
    split.
    + intros c Hc. apply Hlen, Hin. assumption.
    + rewrite Hnames. apply NoDup_unique_names.
      eapply subsequence_NoDup; [eassumption|].
      apply unique_names_NoDup. assumption.
Qed.

End SelectionAfterEvaluation.

Section ConstantFeatureAndRerun.

Context {C : Collaborators}.
Variable predictor : schedule -> model -> Frame -> result (list float).
Variable scorer : list target -> list float -> result float.
Variable random_state : Z.

(** A float minus itself is neither above nor below zero. *)
Lemma sub_diag_neither (x : float) :
  Float64.gtb (Float64.sub x x) Float64.zero = false /\
  Float64.ltb (Float64.sub x x) Float64.zero = false.
Proof.
  destruct (Float64.is_finite x) eqn:E.
  - rewrite (sub_diag _ E). split; reflexivity.
  - rewrite (sub_diag_not_finite _ E). split; reflexivity.
Qed.

(** The entry of a report under the name of a column is the drift of that
    column's turn. *)
Lemma entry_of_a_feature (w : world) (feature : string) (train : float)
  (outs : list outcome) (o : outcome) (d : float) :
  well_formed (X_train w) = true ->
  In (feature, o) (combine (columns (X_train w)) outs) ->
  In (NameLabel feature, d)
    (combine (map NameLabel (columns (X_train w))) (drifts train outs)) ->
  d = Float64.sub train (out_score o).
Proof.
  intros Hwf Ho Hd. unfold drifts in Hd.
  apply In_combine_map in Hd as (f & o' & Ho' & Ef & ->).
  inversion Ef; subst f.
  rewrite (combine_NoDup_unique _ _ _ _ _ (well_formed_NoDup _ Hwf) Ho' Ho).
  reflexivity.
Qed.

(** X6: a constant feature is selected only when the model changes its
    answer.  After an evaluation that returned on a well-formed feature
    matrix with index [0 .. N-1], the frame handed to the model for a
    feature whose column holds one value in every row is the feature
    matrix itself, and the feature has its entry in the report.  When the
    model answered that call as it answered the baseline call, the feature
    is neither among the names cell 21 selects (drift above 0) nor among
    those cell 37 selects (drift below 0), whether the baseline score is
    finite or not. *)
Theorem constant_feature_is_selected_only_on_a_changed_answer
  (w w' : world) (feature : string) (col : list cell) (v : cell) :
  well_formed (X_train w) = true ->
  range_indexed (X_train w) = true ->
  is_range_permutation (n_rows (X_train w))
    (permutation random_state (n_rows (X_train w))) = true ->
  lookup_column feature (df_data (X_train w)) = Some col ->
  (forall a, In a col -> a = v) ->
  run (evaluate predictor scorer random_state) w = (Ok tt, w') ->
  exists prediction train outs o report,
    evaluation predictor scorer random_state w prediction train outs /\
    In (feature, o) (combine (columns (X_train w)) outs) /\
    out_frame o = X_train w /\
    feature_importance w' = Some report /\
    In (NameLabel feature) (index report) /\
    (out_prediction o = prediction ->
     ~ In (NameLabel feature) (selected_features report) /\
     ~ In (NameLabel feature) (feat report)).
Proof.
  intros Hwf Hrange Hperm Ecol Hconst E.
  apply evaluate_Ok in E as (prediction & train & outs & Hev & ->).
  pose proof Hev as (Ep & Es & F & _).
  assert (Hin : In feature (columns (X_train w))).
  { apply lookup_column_Some in Ecol. unfold columns.
    change feature with (fst (feature, col)). apply in_map. assumption. }
  destruct (Forall2_In_combine _ _ _ _ F Hin) as (o & Ho).
  exists prediction, train, outs, o,
    (combine (map NameLabel (columns (X_train w))) (drifts train outs)).
  split; [assumption|]. split; [assumption|].
  split; [eapply constant_feature_frame; eassumption|].
  split; [reflexivity|]. split.
  - unfold index. rewrite map_fst_combine; [apply in_map; assumption|].
    unfold drifts. rewrite (length_map NameLabel).
    etransitivity; [eapply Forall2_length; exact F|].
    symmetry; apply length_map.
  - intros Esame.
    destruct (Forall2_combine_In _ _ _ _ _ F Ho) as (_ & _ & Eos).
    rewrite Esame, Es in Eos. inversion Eos as [Escore].
    destruct (sub_diag_neither train) as (Hgt & Hlt).
    split; intros Hsel.
    + unfold selected_features in Hsel.
      apply select_above_In in Hsel as (d & Hd & Hd').
      rewrite (entry_of_a_feature _ _ _ _ _ _ Hwf Ho Hd), <- Escore, Hgt in Hd'.
      discriminate.
    + unfold feat in Hsel.
      apply select_below_In in Hsel as (d & Hd & Hd').
      rewrite (entry_of_a_feature _ _ _ _ _ _ Hwf Ho Hd), <- Escore, Hlt in Hd'.
      discriminate.
Qed.

(** X11: cells 13 and 33 cannot be run again after the slice.  Once an
    evaluation has returned and cell 37 has left in [X_train] fewer
    columns than it had, running the cell that builds [feature_importance]
    again raises [ValueError]: the drifts recorded, one per column of the
    feature matrix evaluated, no longer fit the columns; and
    [feature_importance] is left as the series of those drifts under
    their positions. *)
Theorem building_the_report_again_after_the_slice_raises (w w1 w2 : world) :
  run (evaluate predictor scorer random_state) w = (Ok tt, w1) ->
  run cell_37 w1 = (Ok tt, w2) ->
  length (columns (X_train w2)) <> length (columns (X_train w)) ->
  exists l,
    performance_shift w2 = Some l /\
    length l = length (columns (X_train w)) /\
    run cell_13 w2
    = (Raise (ValueError "Length mismatch"),
       set_feature_importance (pd_Series l) w2).
Proof.
  intros E E37 Hne.
  apply evaluate_Ok in E as (prediction & train & outs & Hev & ->).
  destruct Hev as (_ & _ & F & _).
  assert (Hlen : length (drifts train outs) = length (columns (X_train w))).
  { unfold drifts. rewrite length_map. symmetry.
    eapply Forall2_length; exact F. }
  revert E37.
  unfold cell_37, run, bind, read_feature_importance, read_X_train, lift,
    assign_X_train. simpl.
  destruct (getitem_list (X_train w) _) as [X'|e]; [|discriminate].
  intros E37; inversion E37; subst w2; clear E37.
  exists (drifts train outs).
  split; [reflexivity|]. split; [assumption|].
  simpl in Hne.
  unfold cell_13, run, bind, read_performance_shift, assign_feature_importance,
    read_feature_importance, read_X_train, lift. simpl.
  rewrite length_pd_Series, Hlen.
  destruct (Nat.eqb_spec (length (columns X')) (length (columns (X_train w))));
    [contradiction | reflexivity].
Qed.

End ConstantFeatureAndRerun.

(** ** Dropping columns *)

Lemma existsb_eqb_In (n : string) (names : list string) :
  existsb (String.eqb n) names = true <-> In n names.
Proof.
  rewrite existsb_exists. split.
  - intros (m & Hm & E). apply String.eqb_eq in E. subst. assumption.
  - intros H. exists n. split; [assumption | apply String.eqb_refl].
Qed.

Lemma length_filter_split {A : Type} (f : A -> bool) (l : list A) :
  length (filter f l) + length (filter (fun a => negb (f a)) l) = length l.
Proof.
  induction l as [|a l IH]; simpl; [reflexivity|].
  destruct (f a); simpl; lia.
Qed.

Section DropFacts.

Context {V : Type}.

Lemma names_of_kept (labels : list string) (data : list (string * list V)) :
  map fst (filter (fun c => negb (existsb (String.eqb (fst c)) labels)) data)
  = filter (kept labels) (map fst data).
Proof.
  unfold kept. induction data as [|[n c] data IH]; simpl; [reflexivity|].
  destruct (existsb (String.eqb n) labels); simpl; rewrite IH; reflexivity.
Qed.

Lemma lookup_in_kept (labels : list string) (data : list (string * list V))
  (n : string) :
  ~ In n labels ->
  lookup_column n
    (filter (fun c => negb (existsb (String.eqb (fst c)) labels)) data)
  = lookup_column n data.
Proof.
  intros Hn. induction data as [|[m c] data IH]; simpl; [reflexivity|].
  destruct (existsb (String.eqb m) labels) eqn:Em; simpl.
  - rewrite IH. destruct (String.eqb_spec n m) as [->|Hne]; [|reflexivity].
    apply existsb_eqb_In in Em. contradiction.
  - rewrite IH. reflexivity.
Qed.

Lemma drop_present (X : DataFrame V) (labels : list string) :
  (forall l, In l labels -> In l (columns X)) ->
  drop X labels =
  Ok (mkDataFrame (df_index X)
        (filter (fun c => negb (existsb (String.eqb (fst c)) labels))
           (df_data X))).
Proof.
  intros Hin. unfold drop.
  destruct (filter _ labels) as [|l missing] eqn:E; [reflexivity|].
  assert (Hl : In l (filter
                       (fun l => negb (existsb (String.eqb l) (columns X)))
                       labels))
    by (rewrite E; left; reflexivity).
  apply filter_In in Hl as [Hl E'].
  apply negb_true_iff in E'.
  assert (existsb (String.eqb l) (columns X) = true) as E''
    by (apply existsb_eqb_In, Hin, Hl).
  congruence.
Qed.

(** X12: [data.drop(labels=..., axis=1)] with labels that are columns.  The
    frame that comes back has the row index of [data] and its columns but
    the ones dropped, in their order and with their values; none of the
    dropped names is a column of it, so the features built in cells 6 and
    26 hold no target; and dropping [k] different labels from a well-formed
    frame leaves [k] columns fewer, the frame still well formed. *)
Theorem drop_removes_the_named_columns (X : DataFrame V)
  (labels : list string) :
  (forall l, In l labels -> In l (columns X)) ->
  exists X',
    drop X labels = Ok X' /\
    df_index X' = df_index X /\
    subsequence (columns X') (columns X) /\
    (forall n, In n (columns X') <-> In n (columns X) /\ ~ In n labels) /\
    (forall n, ~ In n labels ->
               lookup_column n (df_data X') = lookup_column n (df_data X)) /\
    (forall l, In l labels -> lookup_column l (df_data X') = None) /\
    (well_formed X = true ->
     well_formed X' = true /\
     (NoDup labels ->
      length (columns X') + length labels = length (columns X))).
Proof.
  intros Hin. eexists. split; [apply drop_present; assumption|].
  unfold columns at 1 2 3 5; simpl. rewrite names_of_kept.
  assert (Hmem : forall n, In n (filter (kept labels) (map fst (df_data X)))
                           <-> In n (columns X) /\ ~ In n labels).
  { intros n. rewrite filter_In. unfold kept, columns.
    rewrite negb_true_iff, <- not_true_iff_false, existsb_eqb_In. tauto. }
  split; [reflexivity|]. split; [apply subsequence_filter|].
  split; [assumption|]. split; [intros n Hn; apply lookup_in_kept; assumption|].
  split.
  - intros l Hl.
    destruct (lookup_column l (filter _ (df_data X))) as [col|] eqn:E;
      [|reflexivity].
    apply lookup_column_Some, filter_In in E as [_ E]. simpl in E.
    apply negb_true_iff in E.
    assert (existsb (String.eqb l) labels = true) as E'
      by (apply existsb_eqb_In; assumption).
    congruence.
  - intros Hwf.
    pose proof (well_formed_NoDup _ Hwf) as Hnd.
    revert Hwf. unfold well_formed, columns, n_rows; simpl.
    rewrite !andb_true_iff, !forallb_forall. intros [Hlen _].
    split; [split|].
    + intros c Hc. apply Hlen. apply filter_In in Hc. tauto.
    + rewrite names_of_kept. apply NoDup_unique_names, NoDup_filter.
      assumption.
    + intros Hndl.
      rewrite <- (length_filter_split
                    (fun n => existsb (String.eqb n) labels)
                    (map fst (df_data X))).
      rewrite Nat.add_comm. f_equal.
      apply Permutation_length, NoDup_Permutation;
        [assumption | apply NoDup_filter; assumption|].
      intros n. rewrite filter_In, existsb_eqb_In.
      split; [intros Hn; split; [apply Hin|]; assumption | tauto].
Qed.

(** X13: [data.drop(labels=..., axis=1)] with a label that is no column,
    the labels being strings of ASCII characters.  One label that [data]
    has no column for, wherever it stands among the labels, makes the call
    raise [KeyError] and no frame comes back, also when the other labels
    are columns; the message is the list of the labels not found, as
    Python prints it, followed by [not found in axis]: that label is among
    them, and no label that is a column. *)
Theorem drop_raises_on_a_missing_label (X : DataFrame V)
  (labels : list string) (l : string) :
  forallb ascii_name labels = true ->
  In l labels ->
  ~ In l (columns X) ->
  exists missing,
    drop X labels
    = Raise (KeyError (python_list missing ++ " not found in axis")) /\
    In l missing /\
    (forall n, In n missing <-> In n labels /\ ~ In n (columns X)).
Proof.
  intros _ Hl Hno.
  set (absent := fun n => negb (existsb (String.eqb n) (columns X))).
  assert (Habsent : forall n, absent n = true <-> ~ In n (columns X)).
  { intros n. unfold absent. rewrite negb_true_iff.
    rewrite <- existsb_eqb_In.
    destruct (existsb (String.eqb n) (columns X)); split; intros H;
      try reflexivity; try discriminate; try (intros H'; discriminate).
    exfalso. apply H. reflexivity. }
  exists (filter absent labels).
  assert (Hin : In l (filter absent labels))
    by (apply filter_In; split; [assumption | apply Habsent; assumption]).
  split; [|split; [assumption|]].
  - unfold drop. fold absent.
    destruct (filter absent labels) as [|m missing]; [destruct Hin|].
    reflexivity.
  - intros n. rewrite filter_In, Habsent. reflexivity.
Qed.

End DropFacts.

(** ** Filling the missing cells *)

Section FillnaFacts.

Context {V : Type}.
Variable isna : V -> bool.
Variable value : V.

Lemma lookup_fillna (X : DataFrame V) (name : string) :
  lookup_column name (df_data (fillna isna value X))
  = option_map (map (fun x => if isna x then value else x))
      (lookup_column name (df_data X)).
Proof.
  unfold fillna; simpl.
  induction (df_data X) as [|[n c] data IH]; simpl; [reflexivity|].
  destruct (String.eqb name n); [reflexivity | assumption].
Qed.

(** X14: [X.fillna(value)], the value not being a missing one.  The frame
    that comes back has the index and the column names of [X]; a cell that
    was missing holds the value, every other cell what it held; no cell of
    it is missing; filling it again changes nothing; and it is well formed,
    and indexed [0 .. N-1], exactly when [X] is. *)
Theorem fillna_fills_the_missing_cells_only (X : DataFrame V) :
  isna value = false ->
  df_index (fillna isna value X) = df_index X /\
  columns (fillna isna value X) = columns X /\
  (forall name col i x,
      lookup_column name (df_data X) = Some col ->
      nth_error col i = Some x ->
      exists col',
        lookup_column name (df_data (fillna isna value X)) = Some col' /\
        length col' = length col /\
        nth_error col' i = Some (if isna x then value else x)) /\
  (forall name col x,
      lookup_column name (df_data (fillna isna value X)) = Some col ->
      In x col -> isna x = false) /\
  fillna isna value (fillna isna value X) = fillna isna value X /\
  well_formed (fillna isna value X) = well_formed X /\
  range_indexed (fillna isna value X) = range_indexed X.
Proof.
  intros Hvalue.
  assert (Hcols : columns (fillna isna value X) = columns X).
  { unfold columns, fillna; simpl. rewrite map_map. reflexivity. }
  assert (Hfilled : forall x, isna (if isna x then value else x) = false).
  { intros x. destruct (isna x) eqn:E; assumption. }
  split; [reflexivity|]. split; [assumption|]. split; [|split; [|split; [|split]]].
  - intros name col i x Ecol Ex.
    exists (map (fun x => if isna x then value else x) col).
    rewrite lookup_fillna, Ecol. split; [reflexivity|].
    split; [apply length_map|].
    rewrite nth_error_map, Ex. reflexivity.
  - intros name col x Ecol Hx. rewrite lookup_fillna in Ecol.
    destruct (lookup_column name (df_data X)) as [col0|]; [|discriminate].
    inversion Ecol; subst col. apply in_map_iff in Hx as (x0 & <- & _).
    apply Hfilled.
  - unfold fillna; simpl. f_equal. rewrite map_map. apply map_ext.
    intros [n c]; simpl. f_equal. rewrite map_map. apply map_ext.
    intros x. rewrite Hfilled. reflexivity.
  - unfold well_formed. rewrite Hcols. f_equal.
    unfold fillna, n_rows; simpl.
    induction (df_data X) as [|[n c] data IH]; simpl; [reflexivity|].
    rewrite length_map, IH. reflexivity.
  - reflexivity.
Qed.

End FillnaFacts.

(** ** One image of the PCA notebook *)

Section ReshapeFacts.

Context {V : Type}.

Lemma length_rows_of (r c : nat) (a : list V) : length (rows_of r c a) = r.
Proof.
  revert a; induction r as [|r IH]; intros a; simpl; [reflexivity|].
  rewrite IH. reflexivity.
Qed.

Lemma rows_of_widths (r c : nat) (a : list V) :
  length a = r * c -> Forall (fun row => length row = c) (rows_of r c a).
Proof.
  revert a; induction r as [|r IH]; intros a Hlen; simpl; constructor.
  - rewrite length_firstn. simpl in Hlen. lia.
  - apply IH. rewrite length_skipn. simpl in Hlen. lia.
Qed.

Lemma concat_rows_of (r c : nat) (a : list V) :
  length a = r * c -> concat (rows_of r c a) = a.
Proof.
  revert a; induction r as [|r IH]; intros a Hlen; simpl.
  - destruct a; [reflexivity | discriminate].
  - rewrite IH by (rewrite length_skipn; simpl in Hlen; lia).
    apply firstn_skipn.
Qed.

Lemma nth_error_rows_of (r c : nat) :
  forall (a : list V) (i : nat),
    i < r ->
    nth_error (rows_of r c a) i = Some (firstn c (skipn (i * c) a)).
Proof.
  induction r as [|r IH]; intros a i Hi; [lia|].
  destruct i as [|i]; simpl; [reflexivity|].
  rewrite IH by lia. rewrite skipn_skipn.
  replace (i * c + c) with (c + i * c) by lia. reflexivity.
Qed.

(** X15: [a.reshape(r, c)] of a one-dimensional array.  An array of
    [r * c] values becomes [r] rows of [c] values that, read row after
    row, give the array back: the value at row [i], column [j] is the one
    at position [i * c + j].  An array of any other size makes the call
    raise [ValueError], the message telling the size and the shape. *)
Theorem reshape_reads_the_array_row_by_row (r c : nat) (a : list V) :
  (length a = r * c ->
   exists m,
     reshape r c a = Ok m /\
     length m = r /\
     Forall (fun row => length row = c) m /\
     concat m = a /\
     forall i j, i < r -> j < c ->
       exists row,
         nth_error m i = Some row /\
         nth_error row j = nth_error a (i * c + j)) /\
  (length a <> r * c ->
   reshape r c a
   = Raise (ValueError ("cannot reshape array of size " ++ decimal (length a)
                        ++ " into shape (" ++ decimal r ++ ","
                        ++ decimal c ++ ")"))).
Proof.
  unfold reshape. split; intros Hlen.
  - rewrite Hlen, Nat.eqb_refl. exists (rows_of r c a).
    split; [reflexivity|]. split; [apply length_rows_of|].
    split; [apply rows_of_widths; assumption|].
    split; [apply concat_rows_of; assumption|].
    intros i j Hi Hj. exists (firstn c (skipn (i * c) a)).
    split; [apply nth_error_rows_of; assumption|].
    rewrite nth_error_firstn.
    destruct (Nat.ltb_spec j c); [|lia].
    apply nth_error_skipn.
  - destruct (Nat.eqb_spec (length a) (r * c)); [contradiction | reflexivity].
Qed.

Lemma row_of_first (data : list (string * list V)) :
  (forall c, In c data -> 0 < length (snd c)) ->
  exists row,
    row_of data 0 = Ok row /\
    to_numpy row = flat_map (fun c => firstn 1 (snd c)) data /\
    length row = length data.
Proof.
  induction data as [|[n col] data IH]; intros Hpos; simpl.
  - exists []. repeat split.
  - destruct col as [|x col].
    + specialize (Hpos (n, []) (or_introl eq_refl)). simpl in Hpos. lia.
    + destruct (IH (fun c Hc => Hpos c (or_intror Hc)))
        as (row & -> & Hvalues & Hlen).
      exists ((n, x) :: row). split; [reflexivity|].
      split; simpl; [rewrite Hvalues | rewrite Hlen]; reflexivity.
Qed.

Lemma flat_map_kept (labels : list string) (data : list (string * list V)) :
  flat_map (fun c => firstn 1 (snd c))
    (filter (fun c => negb (existsb (String.eqb (fst c)) labels)) data)
  = flat_map (fun c => if kept labels (fst c) then firstn 1 (snd c) else [])
      data.
Proof.
  unfold kept. induction data as [|[n col] data IH]; [reflexivity|].
  cbn [filter flat_map fst snd].
  destruct (existsb (String.eqb n) labels); cbn [negb flat_map fst snd app];
    rewrite IH; reflexivity.
Qed.

Lemma filter_all {A : Type} (f : A -> bool) (l : list A) :
  (forall a, In a l -> f a = true) -> filter f l = l.
Proof.
  induction l as [|a l IH]; intros H; simpl; [reflexivity|].
  rewrite (H a (or_introl eq_refl)), IH; [reflexivity|].
  intros b Hb. apply H. right; assumption.
Qed.

Lemma filter_absent (name : string) (data : list (string * list V)) :
  ~ In name (map fst data) ->
  filter (fun c => negb (existsb (String.eqb (fst c)) [name])) data = data.
Proof.
  intros Hn. apply filter_all. intros [m c] Hc. simpl.
  rewrite orb_false_r, negb_true_iff. apply String.eqb_neq.
  intros ->. apply Hn. change name with (fst (name, c)).
  apply in_map. assumption.
Qed.

Lemma length_without_one (name : string) (data : list (string * list V)) :
  NoDup (map fst data) ->
  In name (map fst data) ->
  length (filter (fun c => negb (existsb (String.eqb (fst c)) [name])) data) + 1
  = length data.
Proof.
  induction data as [|[n col] data IH]; [intros _ []|].
  intros Hnd Hin. inversion Hnd as [|? ? Hn Hnd']; subst.
  cbn [filter].
  change (existsb (String.eqb (fst (n, col))) [name])
    with (String.eqb n name || false)%bool.
  rewrite orb_false_r.
  destruct (String.eqb_spec n name) as [->|Hne]; cbn [negb length].
  - rewrite (filter_absent name data Hn). lia.
  - assert (Hin' : In name (map fst data))
      by (destruct Hin as [E|Hin]; [simpl in E; congruence | assumption]).
    specialize (IH Hnd' Hin'). lia.
Qed.

(** X16: the first image of the PCA notebook.  On a well-formed [digits]
    frame with a [number_label] column and at least one row, dropping the
    label, taking the first row and reshaping it to 8 by 8 returns exactly
    when the frame has 65 columns; the image then is, read row after row,
    the first-row values of the pixel columns in column order.  With any
    other number of columns the reshape raises [ValueError]. *)
Theorem single_image_is_the_first_row_of_the_pixels (digits : DataFrame V) :
  well_formed digits = true ->
  In "number_label" (columns digits) ->
  0 < n_rows digits ->
  (length (columns digits) = 65 ->
   exists image,
     single_image_array digits = Ok image /\
     length image = 8 /\
     Forall (fun row => length row = 8) image /\
     concat image
     = flat_map (fun c => if kept ["number_label"] (fst c)
                          then firstn 1 (snd c) else [])
         (df_data digits)) /\
  (length (columns digits) <> 65 ->
   exists msg, single_image_array digits = Raise (ValueError msg)).
Proof.
  intros Hwf Hin Hrows.
  pose proof (well_formed_NoDup _ Hwf) as Hnd.
  set (pixels := filter (fun c => negb (existsb (String.eqb (fst c))
                                          ["number_label"]))
                   (df_data digits)).
  assert (Edrop : drop digits ["number_label"]
                  = Ok (mkDataFrame (df_index digits) pixels))
    by (apply drop_present; intros l [<-|[]]; assumption).
  destruct (row_of_first pixels) as (row & Erow & Hvalues & Hlen).
  { intros c Hc. apply filter_In in Hc as [Hc _].
    revert Hwf. unfold well_formed. rewrite andb_true_iff, forallb_forall.
    intros [Hl _]. specialize (Hl c Hc). apply Nat.eqb_eq in Hl. lia. }
  assert (Eiloc : iloc (mkDataFrame (df_index digits) pixels) 0 = Ok row).
  { unfold iloc. change (n_rows (mkDataFrame (df_index digits) pixels))
      with (n_rows digits).
    destruct (Nat.ltb_spec 0 (n_rows digits)); [exact Erow | lia]. }
  unfold single_image_array. rewrite Edrop. cbn [rbind].
  rewrite Eiloc. cbn [rbind].
  assert (Hcount : length (to_numpy row) + 1 = length (columns digits)).
  { unfold to_numpy, columns. rewrite !length_map, Hlen.
    apply length_without_one; assumption. }
  unfold reshape. split; intros Hcols.
  - assert (H64 : length (to_numpy row) = 8 * 8) by (simpl; lia).
    rewrite H64, Nat.eqb_refl. exists (rows_of 8 8 (to_numpy row)).
    split; [reflexivity|]. split; [apply length_rows_of|].
    split; [apply rows_of_widths; assumption|].
    rewrite (concat_rows_of 8 8 _ H64), Hvalues. apply flat_map_kept.
  - destruct (Nat.eqb_spec (length (to_numpy row)) (8 * 8)) as [E|_].
    + simpl in E. lia.
    + eexists. reflexivity.
Qed.

End ReshapeFacts.

(** ** NumPy's draw *)

Module NumPyFacts.

Import NumPy.






Local Open Scope Z_scope.




Local Close Scope Z_scope.




End NumPyFacts.

(** ** The further facts at work on small data *)

Import Cases.

Lemma reset_index_then_evaluate_permutes_witness :
  well_formed (X_train world_unreset) = true /\
  run (bind cell_7 (fun _ => evaluate predict rmse 11)) world_unreset
  = (Ok tt, world_unreset_evaluated) /\
  X_train world_unreset_evaluated
  = reset_index_frame (X_train world_unreset) /\
  exists prediction outs,
    log world_unreset_evaluated
    = log world_unreset
        ++ [EvPredict (rf world_unreset)
              (reset_index_frame (X_train world_unreset));
            EvScore (y_train world_unreset) prediction]
        ++ flat_map (events_of (rf world_unreset) (y_train world_unreset)) outs /\
    Forall2
      (fun feature o =>
         exists col col',
           lookup_column feature (df_data (X_train world_unreset)) = Some col /\
           lookup_column feature (df_data (out_frame o)) = Some col' /\
           Permutation col' col)
      (columns (X_train world_unreset)) outs.
Proof.
  assert (Hwf : well_formed (X_train world_unreset) = true) by reflexivity.
  assert (Hperm : is_range_permutation (n_rows (X_train world_unreset))
                    (permutation 11 (n_rows (X_train world_unreset))) = true)
    by (vm_compute; reflexivity).
  assert (H : run (bind cell_7 (fun _ => evaluate predict rmse 11))
                world_unreset
              = (Ok tt, world_unreset_evaluated)) by (vm_compute; reflexivity).
  split; [exact Hwf|]. split; [exact H|].
  exact (reset_index_then_evaluate_permutes predict rmse 11
           world_unreset world_unreset_evaluated Hwf Hperm H).
Defined.

Lemma working_copy_aligns_by_label_witness :
  well_formed frame_unreset = true /\
  is_range_permutation (n_rows frame_unreset)
    (NumPy.permutation 11 (n_rows frame_unreset)) = true /\
  lookup_column "z" (df_data frame_unreset) = Some [150; 50; 0; 0]%Z /\
  exists Xc col',
    working_copy 0%Z NumPy.permutation 11 frame_unreset "z" = Ok Xc /\
    lookup_column "z" (df_data Xc) = Some col' /\
    length col' = n_rows frame_unreset /\
    (forall i l,
        nth_error (df_index frame_unreset) i = Some l ->
        n_rows frame_unreset <= l ->
        nth_error col' i = Some 0%Z) /\
    (forall i l j,
        nth_error (df_index frame_unreset) i = Some l ->
        nth_error (NumPy.permutation 11 (n_rows frame_unreset)) l = Some j ->
        nth_error col' i = nth_error [150; 50; 0; 0]%Z j).
Proof.
  assert (Hwf : well_formed frame_unreset = true) by reflexivity.
  assert (Hperm : is_range_permutation (n_rows frame_unreset)
                    (NumPy.permutation 11 (n_rows frame_unreset)) = true)
    by (vm_compute; reflexivity).
  assert (Hcol : lookup_column "z" (df_data frame_unreset)
                 = Some [150; 50; 0; 0]%Z) by reflexivity.
  split; [exact Hwf|]. split; [exact Hperm|]. split; [exact Hcol|].
  exact (working_copy_aligns_by_label 0%Z NumPy.permutation 11 frame_unreset
           "z" [150; 50; 0; 0]%Z Hwf Hperm Hcol).
Defined.

Lemma failure_in_the_loop_keeps_the_earlier_drifts_witness :
  run (evaluate (C := picky) predict rmse 11) world_YX
  = (Raise (ValueError "x is out of order"),
     mkWorld (rf world_YX) (X_train world_YX) (y_train world_YX)
       (Some frame_YX_shuffled)
       (Some (drifts (C := picky) Float64.zero
                [mkOutcome frame_YX [0] prediction_YX Float64.zero]))
       (feature_importance world_YX)
       (log world_YX ++ baseline_events (C := picky) world_YX prediction_YX
          ++ flat_map (events_of (C := picky) (rf world_YX) (y_train world_YX))
               [mkOutcome frame_YX [0] prediction_YX Float64.zero]
          ++ [EvPredict (rf world_YX) frame_YX_shuffled])
       (fun k =>
          threads world_YX
            (S (length [mkOutcome frame_YX [0] prediction_YX Float64.zero]
                + S k)))).
Proof.
  apply (failure_in_the_loop_keeps_the_earlier_drifts (C := picky)
           predict rmse 11 world_YX ["y"] [] "x" prediction_YX Float64.zero
           [mkOutcome frame_YX [0] prediction_YX Float64.zero]
           frame_YX_shuffled (ValueError "x is out of order")).
  - reflexivity.
  - vm_compute; reflexivity.
  - vm_compute; reflexivity.
  - constructor; [|constructor].
    unfold shuffled_outcome. repeat split; vm_compute; reflexivity.
  - reflexivity.
  - vm_compute; reflexivity.
  - vm_compute; reflexivity.
Defined.

Lemma evaluate_raises_only_what_a_collaborator_raises_witness :
  well_formed (X_train world_mismatch) = true /\
  is_range_permutation (n_rows (X_train world_mismatch))
    (permutation 11 (n_rows (X_train world_mismatch))) = true /\
  run evaluate_regression world_mismatch
  = (Raise (ValueError
              "Found input variables with inconsistent numbers of samples"),
     world_mismatch_failed) /\
  ((exists i X,
       i <= length (columns (X_train world_mismatch)) /\
       predict (threads world_mismatch i) (rf world_mismatch) X
       = Raise (ValueError
                  "Found input variables with inconsistent numbers of samples"))
   \/
   (exists p,
       mean_squared_error (y_train world_mismatch) p false
       = Raise (ValueError
                  "Found input variables with inconsistent numbers of samples"))).
Proof.
  assert (Hwf : well_formed (X_train world_mismatch) = true) by reflexivity.
  assert (Hperm : is_range_permutation (n_rows (X_train world_mismatch))
                    (permutation 11 (n_rows (X_train world_mismatch))) = true)
    by (vm_compute; reflexivity).
  assert (H : run evaluate_regression world_mismatch
              = (Raise (ValueError
                   "Found input variables with inconsistent numbers of samples"),
                 world_mismatch_failed)) by (vm_compute; reflexivity).
  split; [exact Hwf|]. split; [exact Hperm|]. split; [exact H|].
  exact (proj1 (evaluate_raises_only_what_a_collaborator_raises
                  world_mismatch world_mismatch_failed _ Hwf) Hperm H).
Defined.

Lemma selections_above_and_below_zero_are_disjoint_witness :
  NoDup (index report_abc) /\
  (forall name, In name (selected_features report_abc) ->
                ~ In name (feat report_abc)) /\
  length (selected_features report_abc) + length (feat report_abc)
  <= length report_abc /\
  (forall name d,
      In (name, d) report_abc ->
      (d = S754_nan \/ exists sign, d = S754_zero sign) ->
      ~ In name (selected_features report_abc) /\
      ~ In name (feat report_abc)).
Proof.
  assert (Hnd : NoDup (index report_abc))
    by (apply (NoDup_NameLabel ["a"; "target"; "b"]), unique_names_NoDup;
        reflexivity).
  split; [exact Hnd|].
  exact (selections_above_and_below_zero_are_disjoint report_abc Hnd).
Defined.

Lemma constant_feature_is_selected_only_on_a_changed_answer_witness :
  well_formed (X_train world_A) = true /\
  range_indexed (X_train world_A) = true /\
  is_range_permutation (n_rows (X_train world_A))
    (permutation 10 (n_rows (X_train world_A))) = true /\
  lookup_column "y" (df_data (X_train world_A)) = Some [9; 9; 9; 9; 9]%Z /\
  run (evaluate predict_proba_1 roc_auc_score 10) world_A
  = (Ok tt, world_A_evaluated) /\
  exists prediction train outs o report,
    evaluation predict_proba_1 roc_auc_score 10 world_A prediction train outs /\
    In ("y", o) (combine (columns (X_train world_A)) outs) /\
    out_frame o = X_train world_A /\
    feature_importance world_A_evaluated = Some report /\
    In (NameLabel "y") (index report) /\
    (out_prediction o = prediction ->
     ~ In (NameLabel "y") (selected_features report) /\
     ~ In (NameLabel "y") (feat report)).
Proof.
  assert (Hwf : well_formed (X_train world_A) = true) by reflexivity.
  assert (Hrange : range_indexed (X_train world_A) = true) by reflexivity.
  assert (Hperm : is_range_permutation (n_rows (X_train world_A))
                    (permutation 10 (n_rows (X_train world_A))) = true)
    by (vm_compute; reflexivity).
  assert (Hcol : lookup_column "y" (df_data (X_train world_A))
                 = Some [9; 9; 9; 9; 9]%Z) by reflexivity.
  assert (Hconst : forall a : Z, In a [9; 9; 9; 9; 9]%Z -> a = 9%Z)
    by (simpl; intuition).
  assert (H : run (evaluate predict_proba_1 roc_auc_score 10) world_A
              = (Ok tt, world_A_evaluated)) by (vm_compute; reflexivity).
  repeat (split; [assumption|]).
  exact (constant_feature_is_selected_only_on_a_changed_answer
           predict_proba_1 roc_auc_score 10
           world_A world_A_evaluated "y" [9; 9; 9; 9; 9]%Z 9%Z
           Hwf Hrange Hperm Hcol Hconst H).
Defined.

Lemma getitem_list_keeps_the_named_columns_witness :
  exists X',
    getitem_list frame_data (map NameLabel ["b"; "a"]) = Ok X' /\
    df_index X' = df_index frame_data /\
    columns X' = ["b"; "a"] /\
    (forall n, In n ["b"; "a"] ->
               lookup_column n (df_data X')
               = lookup_column n (df_data frame_data)) /\
    (well_formed frame_data = true -> NoDup ["b"; "a"] ->
     well_formed X' = true).
Proof.
  apply (getitem_list_keeps_the_named_columns frame_data ["b"; "a"]).
  simpl. intuition.
Defined.

Lemma getitem_list_raises_on_a_missing_label_witness :
  exists key,
    getitem_list frame_data [NameLabel "a"; NameLabel "c"]
    = Raise (KeyError key).
Proof.
  apply (getitem_list_raises_on_a_missing_label frame_data
           [NameLabel "a"; NameLabel "c"] (NameLabel "c")).
  - simpl. intuition.
  - intros n E. inversion E; subst n. simpl. intuition discriminate.
Defined.

Lemma evaluate_then_cell_37_keeps_the_selected_features_witness :
  run (evaluate predict rmse 11) world_B = (Ok tt, world_B_evaluated) /\
  exists report X',
    feature_importance world_B_evaluated = Some report /\
    run cell_37 world_B_evaluated = (Ok tt, set_X_train X' world_B_evaluated) /\
    map NameLabel (columns X') = feat report /\
    subsequence (columns X') (columns (X_train world_B)) /\
    df_index X' = df_index (X_train world_B) /\
    (forall n, In n (columns X') ->
               lookup_column n (df_data X')
               = lookup_column n (df_data (X_train world_B))) /\
    well_formed X' = true.
Proof.
  assert (Hwf : well_formed (X_train world_B) = true) by reflexivity.
  assert (H : run (evaluate predict rmse 11) world_B
              = (Ok tt, world_B_evaluated)) by (vm_compute; reflexivity).
  split; [exact H|].
  exact (evaluate_then_cell_37_keeps_the_selected_features predict rmse 11
           world_B world_B_evaluated Hwf H).
Defined.

Lemma building_the_report_again_after_the_slice_raises_witness :
  run (evaluate predict rmse 11) world_AB = (Ok tt, world_AB_evaluated) /\
  run cell_37 world_AB_evaluated = (Ok tt, world_AB_sliced) /\
  columns (X_train world_AB_sliced) = ["a"] /\
  exists l,
    performance_shift world_AB_sliced = Some l /\
    length l = length (columns (X_train world_AB)) /\
    run cell_13 world_AB_sliced
    = (Raise (ValueError "Length mismatch"),
       set_feature_importance (pd_Series l) world_AB_sliced).
Proof.
  assert (H : run (evaluate predict rmse 11) world_AB
              = (Ok tt, world_AB_evaluated)) by (vm_compute; reflexivity).
  assert (H37 : run cell_37 world_AB_evaluated = (Ok tt, world_AB_sliced))
    by (vm_compute; reflexivity).
  assert (Hne : length (columns (X_train world_AB_sliced))
                <> length (columns (X_train world_AB)))
    by (vm_compute; discriminate).
  split; [exact H|]. split; [exact H37|]. split; [vm_compute; reflexivity|].
  exact (building_the_report_again_after_the_slice_raises predict rmse 11
           world_AB world_AB_evaluated world_AB_sliced H H37 Hne).
Defined.

Lemma drop_removes_the_named_columns_witness :
  exists X',
    drop frame_data ["target"] = Ok X' /\
    df_index X' = df_index frame_data /\
    subsequence (columns X') (columns frame_data) /\
    (forall n, In n (columns X') <->
               In n (columns frame_data) /\ ~ In n ["target"]) /\
    (forall n, ~ In n ["target"] ->
               lookup_column n (df_data X')
               = lookup_column n (df_data frame_data)) /\
    (forall l, In l ["target"] -> lookup_column l (df_data X') = None) /\
    (well_formed frame_data = true ->
     well_formed X' = true /\
     (NoDup ["target"] ->
      length (columns X') + length ["target"] = length (columns frame_data))).
Proof.
  apply (drop_removes_the_named_columns frame_data ["target"]).
  simpl. intuition.
Defined.

Lemma drop_raises_on_a_missing_label_witness :
  drop frame_data ["Id"; "target"; "SalePrice"]
  = Raise (KeyError "['Id', 'SalePrice'] not found in axis") /\
  forallb ascii_name ["Id"; "target"; "SalePrice"] = true /\
  exists missing,
    drop frame_data ["Id"; "target"; "SalePrice"]
    = Raise (KeyError (python_list missing ++ " not found in axis")) /\
    In "SalePrice" missing /\
    (forall n, In n missing <->
               In n ["Id"; "target"; "SalePrice"] /\
               ~ In n (columns frame_data)).
Proof.
  split; [reflexivity|]. split; [reflexivity|].
  apply (drop_raises_on_a_missing_label frame_data
           ["Id"; "target"; "SalePrice"] "SalePrice").
  - reflexivity.
  - simpl. intuition.
  - simpl. intuition discriminate.
Defined.

Lemma fillna_fills_the_missing_cells_only_witness :
  isna_float Float64.zero = false /\
  lookup_column "LotFrontage"
    (df_data (fillna isna_float Float64.zero frame_holes))
  = Some [Float64.zero; Float64.of_Z 65] /\
  fillna isna_float Float64.zero (fillna isna_float Float64.zero frame_holes)
  = fillna isna_float Float64.zero frame_holes.
Proof.
  assert (Hvalue : isna_float Float64.zero = false) by reflexivity.
  split; [exact Hvalue|]. split; [reflexivity|].
  exact (proj1 (proj2 (proj2 (proj2 (proj2
           (fillna_fills_the_missing_cells_only isna_float Float64.zero
              frame_holes Hvalue)))))).
Defined.

Lemma single_image_is_the_first_row_of_the_pixels_witness :
  length (columns digits_8x8) = 65 /\
  exists image,
    single_image_array digits_8x8 = Ok image /\
    length image = 8 /\
    Forall (fun row => length row = 8) image /\
    concat image
    = flat_map (fun c => if kept ["number_label"] (fst c)
                         then firstn 1 (snd c) else [])
        (df_data digits_8x8).
Proof.
  assert (Hwf : well_formed digits_8x8 = true) by (vm_compute; reflexivity).
  assert (Hin : In "number_label" (columns digits_8x8))
    by (left; reflexivity).
  assert (Hrows : 0 < n_rows digits_8x8) by (vm_compute; lia).
  assert (Hcols : length (columns digits_8x8) = 65) by reflexivity.
  split; [exact Hcols|].
  exact (proj1 (single_image_is_the_first_row_of_the_pixels digits_8x8
                  Hwf Hin Hrows) Hcols).
Defined.

(** ** Cells 27 and 28 before the regression loop *)

Section PreparingTheFrame.

Context {C : Collaborators}.
Variable isna : cell -> bool.
Variable zero : cell.

Lemma well_formed_fillna (X : Frame) :
  well_formed (fillna isna zero X) = well_formed X.
Proof.
  unfold well_formed. f_equal.
  - unfold fillna, n_rows; simpl.
    induction (df_data X) as [|[n c] data IH]; simpl; [reflexivity|].
    rewrite length_map, IH. reflexivity.
  - unfold columns, fillna; simpl. rewrite map_map. reflexivity.
Qed.

(** X17: the index reset and the filling, one after the other.  Cells 27
    and 28 always return; they leave in [X_train] a frame with the columns
    and the number of rows it had, indexed [0 .. N-1], with no missing
    cell, and well formed if it was: what the loop of cell 32 needs.  The
    model, the target and the calls made are left alone. *)
Theorem reset_then_fill_prepares_the_frame (w : world) :
  isna zero = false ->
  exists X',
    run (bind cell_7 (fun _ => cell_28 isna zero)) w
    = (Ok tt, set_X_train X' w) /\
    range_indexed X' = true /\
    columns X' = columns (X_train w) /\
    n_rows X' = n_rows (X_train w) /\
    (well_formed (X_train w) = true -> well_formed X' = true) /\
    (forall name col x,
        lookup_column name (df_data X') = Some col ->
        In x col -> isna x = false) /\
    (forall name col i x,
        lookup_column name (df_data (X_train w)) = Some col ->
        nth_error col i = Some x ->
        isna x = false ->
        exists col',
          lookup_column name (df_data X') = Some col' /\
          nth_error col' i = Some x).
Proof.
  intros Hzero.
  exists (fillna isna zero (reset_index_frame (X_train w))).
  split; [reflexivity|].
  split; [apply (reset_index_frame_range (X_train w))|].
  split; [unfold columns, fillna; simpl; rewrite map_map; reflexivity|].
  split; [apply n_rows_reset_index_frame|].
  split.
  - intros Hwf. rewrite well_formed_fillna.
    apply reset_index_frame_well_formed. assumption.
  - split.
    + intros name col x Ecol Hx. rewrite lookup_fillna in Ecol.
      destruct (lookup_column name _) as [col0|]; [|discriminate].
      inversion Ecol; subst col. apply in_map_iff in Hx as (x0 & <- & _).
      destruct (isna x0) eqn:E; assumption.
    + intros name col i x Ecol Ex Hx.
      exists (map (fun x => if isna x then zero else x) col).
      rewrite lookup_fillna.
      change (df_data (reset_index_frame (X_train w)))
        with (df_data (X_train w)).
      rewrite Ecol. split; [reflexivity|].
      rewrite nth_error_map, Ex. simpl. rewrite Hx. reflexivity.
Qed.

End PreparingTheFrame.

Lemma reset_then_fill_prepares_the_frame_witness :
  exists X',
    run (bind cell_7 (fun _ => cell_28 (C := toy) (fun _ => false) 0%Z))
      world_unreset
    = (Ok tt, set_X_train X' world_unreset) /\
    range_indexed X' = true /\
    columns X' = columns (X_train world_unreset) /\
    n_rows X' = n_rows (X_train world_unreset) /\
    (well_formed (X_train world_unreset) = true -> well_formed X' = true) /\
    (forall name col x,
        lookup_column name (df_data X') = Some col ->
        In x col -> (fun _ : Z => false) x = false) /\
    (forall name col i x,
        lookup_column name (df_data (X_train world_unreset)) = Some col ->
        nth_error col i = Some x ->
        (fun _ : Z => false) x = false ->
        exists col',
          lookup_column name (df_data X') = Some col' /\
          nth_error col' i = Some x).
Proof.
  apply (reset_then_fill_prepares_the_frame (C := toy)
           (fun _ : Z => false) 0%Z world_unreset).
  reflexivity.
Defined.

